(** * Jarvis long-term memory: a shallow embedding of [jarv_memory.py]
      (class [JarvisMemory]) and of [build_memory_block] from [jarvis.py].

    Conventions of the embedding.

    - A Python [str] is a [string]; the case mappings and the whitespace
      class of [str.strip], [str.lower] and [str.upper] are the ones Python
      has on the ASCII range (code points below 128).  Text above that
      range is outside the embedding: the definitions leave such a
      character alone, which Python does not (its [lower] takes the Kelvin
      sign to k, its [upper] the long s to S), so a statement that rests on
      the case mapping of a text it does not fix takes that text in the
      ASCII range ([Py.isascii]) or made of ASCII letters.
    - A Python [int] is a [Z].  Integers that reach SQLite as bound
      parameters are taken inside its signed 64-bit range.
    - The SQLite file is the state.  Every method opens its own connection,
      so a method is a function from the state to an outcome and a new
      state.  Storage faults (unreadable file, full disk) are not modelled.
    - SQL is given the meaning SQLite documents for the statements the
      program sends: [=] on TEXT is exact, [LIKE] has the wildcards [%] and
      [_] and ignores the case of ASCII letters, [ORDER BY id DESC LIMIT n]
      sorts and truncates, [UPDATE] reports the number of rows its [WHERE]
      selects; the names of columns and indexes are compared without the
      case of ASCII letters, and a column declared TEXT stores an integer
      as its decimal text. *)

From Stdlib Require Import ZArith Ascii String.
From stdpp Require Import base decidable option list sorting strings pretty gmap.

Local Open Scope Z_scope.

(** ** Python strings *)

Module Py.

(** [str.isspace] on ASCII: TAB..CR, FS..US and the blank. *)
Definition isspace (c : ascii) : bool :=
  let n := N_of_ascii c in
  ((9 <=? n) && (n <=? 13) || (28 <=? n) && (n <=? 32))%N.

Definition lower_char (c : ascii) : ascii :=
  let n := N_of_ascii c in
  if ((65 <=? n) && (n <=? 90))%N then ascii_of_N (n + 32) else c.

Definition upper_char (c : ascii) : ascii :=
  let n := N_of_ascii c in
  if ((97 <=? n) && (n <=? 122))%N then ascii_of_N (n - 32) else c.

Fixpoint lower (s : string) : string :=
  match s with
  | EmptyString => EmptyString
  | String c s' => String (lower_char c) (lower s')
  end.

Fixpoint upper (s : string) : string :=
  match s with
  | EmptyString => EmptyString
  | String c s' => String (upper_char c) (upper s')
  end.

Fixpoint lstrip (s : string) : string :=
  match s with
  | EmptyString => EmptyString
  | String c s' => if isspace c then lstrip s' else s
  end.

Fixpoint rstrip (s : string) : string :=
  match s with
  | EmptyString => EmptyString
  | String c s' =>
      match rstrip s' with
      | EmptyString => if isspace c then EmptyString else String c EmptyString
      | t => String c t
      end
  end.

(** [s.strip()] *)
Definition strip (s : string) : string := rstrip (lstrip s).

(** [not s] for a string. *)
Definition is_empty (s : string) : bool :=
  match s with EmptyString => true | _ => false end.

(** [s or d] *)
Definition or_else (s d : string) : string :=
  if is_empty s then d else s.

(** [sep.join(l)] *)
Fixpoint join (sep : string) (l : list string) : string :=
  match l with
  | [] => ""
  | [x] => x
  | x :: l' => x +:+ sep +:+ join sep l'
  end.

(** ["\n"] *)
Definition nl : string := String (ascii_of_N 10) EmptyString.

(** [s.split("\n")]: the lines of a text. *)
Fixpoint splitlines_go (cur : string) (s : string) : list string :=
  match s with
  | EmptyString => [String.rev cur]
  | String c s' =>
      if Ascii.eqb c (ascii_of_N 10)
      then String.rev cur :: splitlines_go "" s'
      else splitlines_go (String c cur) s'
  end.

Definition split_nl (s : string) : list string := splitlines_go "" s.

(** [a in b] for strings: [a] occurs in [b] as a contiguous run. *)
Fixpoint contains (b a : string) : bool :=
  match b with
  | EmptyString => is_empty a
  | String _ b' => String.prefix a b || contains b' a
  end.

(** [str.isascii]: every character lies below code point 128.  On such a
    text [lower], [upper] and the trims above are Python's. *)
Fixpoint isascii (s : string) : bool :=
  match s with
  | EmptyString => true
  | String c s' => (N_of_ascii c <? 128)%N && isascii s'
  end.

End Py.

(** ** Exceptions and results *)

Inductive exn : Type :=
| ValueError (msg : string)
| OperationalError (msg : string).

Inductive result (A : Type) : Type :=
| Ok (a : A)
| Raise (e : exn).
Arguments Ok {A} a.
Arguments Raise {A} e.

(** An exception ends the call: what follows a raising step is skipped. *)
Global Instance result_bind : MBind result := λ A B k m,
  match m with
  | Ok a => k a
  | Raise e => Raise e
  end.

(** ** SQL fragments *)

Module Sql.

(** The comparison [LIKE] makes between a pattern character and a text
    character: equal, or equal up to the case of an ASCII letter. *)
Definition eq_nocase (c d : ascii) : bool :=
  Ascii.eqb (Py.lower_char c) (Py.lower_char d).

Definition percent : ascii := ascii_of_N 37.
Definition underscore : ascii := ascii_of_N 95.

(** [text LIKE pattern], without an ESCAPE clause: [%] stands for any run
    of characters, the empty one included, [_] for any one character. *)
Fixpoint like_pat (p : string) : string → bool :=
  match p with
  | EmptyString => λ s, Py.is_empty s
  | String c p' =>
      if Ascii.eqb c percent then
        fix star (s : string) : bool :=
          like_pat p' s ||
          match s with
          | EmptyString => false
          | String _ s' => star s'
          end
      else
        λ s,
          match s with
          | EmptyString => false
          | String d s' =>
              (Ascii.eqb c underscore || eq_nocase c d) && like_pat p' s'
          end
  end.

Definition like (text pattern : string) : bool := like_pat pattern text.

(** SQLite's [lower()]: ASCII letters only. *)
Definition lower : string → string := Py.lower.

End Sql.

(** ** The current table: [conversations] *)

(** [MemoryRow], the dataclass; also one row of [conversations] in the
    current column layout. *)
Record MemoryRow : Type := mkRow {
  id : Z;
  user_id : string;
  role : string;
  content : string;
  kind : string;
  deleted : Z;
  timestamp : string;
}.

Global Instance MemoryRow_eq_dec : EqDecision MemoryRow.
Proof. solve_decision. Defined.

(** The file as the API methods see it: the rows of [conversations] in
    insertion order, and the AUTOINCREMENT counter SQLite keeps for the table
    in [sqlite_sequence]. *)
Record store : Type := mkStore {
  conversations : list MemoryRow;
  sqlite_sequence : Z;
}.

Definition empty_store : store := mkStore [] 0.

(** [SET deleted = 1] on one row. *)
Definition set_deleted (r : MemoryRow) : MemoryRow :=
  mkRow (id r) (user_id r) (role r) (content r) (kind r) 1 (timestamp r).

(** [UPDATE conversations SET deleted = 1 WHERE w]: the new rows and
    [cur.rowcount]. *)
Definition update_deleted (w : MemoryRow → bool) (s : store) : Z * store :=
  (Z.of_nat (length (filter (λ r, w r = true) (conversations s))),
   mkStore (map (λ r, if w r then set_deleted r else r) (conversations s))
           (sqlite_sequence s)).

(** The largest rowid of the table, 0 for an empty one. *)
Definition max_rowid (l : list MemoryRow) : Z :=
  foldr (λ r m, Z.max (id r) m) 0 l.

(** Insertion into a list sorted by [le]; equal keys keep their order. *)
Fixpoint insert_by {A} (le : A → A → bool) (x : A) (l : list A) : list A :=
  match l with
  | [] => [x]
  | y :: l' => if le x y then x :: l else y :: insert_by le x l'
  end.

Definition sort_by {A} (le : A → A → bool) (l : list A) : list A :=
  foldr (insert_by le) [] l.

(** [ORDER BY id DESC] *)
Definition order_by_id_desc : list MemoryRow → list MemoryRow :=
  sort_by (λ a b, id b <=? id a).

(** [rows.sort(key=lambda r: r.id)] *)
Definition sort_key_id : list MemoryRow → list MemoryRow :=
  sort_by (λ a b, id a <=? id b).

(** [l[-n:]] for [n > 0]. *)
Definition last_n {A} (n : Z) (l : list A) : list A :=
  drop (length l - Z.to_nat n)%nat l.

Definition roles : list string := ["user"; "assistant"; "system"].
Definition kinds : list string := ["chat"; "remembered"].

Definition role_error : exn := ValueError "role must be one of: user, assistant, system".
Definition kind_error : exn := ValueError "kind must be one of: chat, remembered".
Definition content_error : exn := ValueError "content cannot be empty".

(** ** The public API of [JarvisMemory] *)

(** [store_message]; [now] is what CURRENT_TIMESTAMP reads at the insert. *)
Definition store_message (s : store) (now : string)
    (user role content kind : string) : result Z * store :=
  let role := Py.lower (Py.strip (Py.or_else role "")) in
  if negb (bool_decide (role ∈ roles)) then (Raise role_error, s) else
  let kind := Py.lower (Py.strip (Py.or_else kind "chat")) in
  if negb (bool_decide (kind ∈ kinds)) then (Raise kind_error, s) else
  let content := Py.strip (Py.or_else content "") in
  if Py.is_empty content then (Raise content_error, s) else
  let lastrowid := Z.max (max_rowid (conversations s)) (sqlite_sequence s) + 1 in
  (Ok lastrowid,
   mkStore (conversations s ++ [mkRow lastrowid user role content kind 0 now])
           lastrowid).

(** [remember] *)
Definition remember (s : store) (now : string) (user content : string)
    : result Z * store :=
  store_message s now user "user" content "remembered".

(** The [if kind:] block of [get_recent] and of [search]: the value bound to
    [kind = ?], if the clause is added. *)
Definition kind_clause (kind : option string) : result (option string) :=
  match kind with
  | None => Ok None
  | Some k0 =>
      if Py.is_empty k0 then Ok None else
      let k := Py.lower (Py.strip k0) in
      if negb (bool_decide (k ∈ kinds)) then Raise kind_error else Ok (Some k)
  end.

(** [user_id = ? [AND deleted = 0] [AND kind = ?]] *)
Definition recent_where (user : string) (include_deleted : bool)
    (k : option string) (r : MemoryRow) : bool :=
  bool_decide (user_id r = user)
  && (include_deleted || (deleted r =? 0))
  && match k with None => true | Some k => bool_decide (kind r = k) end.

(** [SELECT ... WHERE w ORDER BY id DESC LIMIT n] *)
Definition select_desc (w : MemoryRow → bool) (n : Z) (s : store)
    : list MemoryRow :=
  take (Z.to_nat n) (order_by_id_desc (filter (λ r, w r = true) (conversations s))).

(** [get_recent] *)
Definition get_recent (s : store) (user : string) (limit : Z)
    (include_deleted : bool) (kind : option string) : result (list MemoryRow) :=
  let limit := Z.max 1 limit in
  k ← kind_clause kind ;
  Ok (select_desc (recent_where user include_deleted k) limit s).

(** [user_id = ? AND content LIKE ? [AND deleted = 0] [AND kind = ?]] *)
Definition search_where (user pattern : string) (include_deleted : bool)
    (k : option string) (r : MemoryRow) : bool :=
  bool_decide (user_id r = user)
  && Sql.like (content r) pattern
  && (include_deleted || (deleted r =? 0))
  && match k with None => true | Some k => bool_decide (kind r = k) end.

(** [search] *)
Definition search (s : store) (user query : string) (limit : Z)
    (include_deleted : bool) (kind : option string) : result (list MemoryRow) :=
  let q := Py.strip (Py.or_else query "") in
  if Py.is_empty q then Ok [] else
  let limit := Z.max 1 limit in
  k ← kind_clause kind ;
  Ok (select_desc (search_where user ("%" +:+ q +:+ "%") include_deleted k) limit s).

(** [user_id = ? AND deleted = 0 AND content LIKE ?] *)
Definition forget_keyword_where (user pattern : string) (r : MemoryRow) : bool :=
  bool_decide (user_id r = user) && (deleted r =? 0) && Sql.like (content r) pattern.

(** [forget_keyword] *)
Definition forget_keyword (s : store) (user keyword : string) : Z * store :=
  let kw := Py.strip (Py.or_else keyword "") in
  if Py.is_empty kw then (0, s) else
  update_deleted (forget_keyword_where user ("%" +:+ kw +:+ "%")) s.

(** [user_id = ? AND id = ? AND deleted = 0] *)
Definition forget_id_where (user : string) (row_id : Z) (r : MemoryRow) : bool :=
  bool_decide (user_id r = user) && (id r =? row_id) && (deleted r =? 0).

(** [forget_id] *)
Definition forget_id (s : store) (user : string) (row_id : Z) : Z * store :=
  update_deleted (forget_id_where user row_id) s.

(** [user_id = ? AND deleted = 0] *)
Definition clear_user_where (user : string) (r : MemoryRow) : bool :=
  bool_decide (user_id r = user) && (deleted r =? 0).

(** [clear_user] *)
Definition clear_user (s : store) (user : string) : Z * store :=
  update_deleted (clear_user_where user) s.

(** [vacuum]: no row is ever removed physically, so there is nothing to
    reclaim and the rows stay as they are. *)
Definition vacuum (s : store) : store := s.

(** ** [build_memory_block] of [jarvis.py] *)

Definition memory_header : string :=
  "Long-term memory (SQLite). Use this for continuity:".

(** One line of the block: [f"- {role} ({kind}): {r.content}"]. *)
Definition memory_line (r : MemoryRow) : string :=
  let role := Py.upper (Py.or_else (role r) "") in
  let kind := Py.or_else (kind r) "chat" in
  "- " +:+ role +:+ " (" +:+ kind +:+ "): " +:+ content r.

(** The list [rows] after the two fetches. *)
Definition memory_candidates (s : store) (mem_user : string) (mem_inject : Z)
    (include_chat include_remembered : bool) : result (list MemoryRow) :=
  chat ← (if include_chat
          then get_recent s mem_user mem_inject false (Some "chat")
          else Ok []) ;
  remembered ← (if include_remembered
                then get_recent s mem_user mem_inject false (Some "remembered")
                else Ok []) ;
  Ok (chat ++ remembered).

(** The list [rows] after the sort and the slice. *)
Definition memory_selection (mem_inject : Z) (rows : list MemoryRow)
    : list MemoryRow :=
  last_n mem_inject (sort_key_id rows).

Definition build_memory_block (memory : option store) (mem_user : string)
    (mem_inject : Z) (include_chat include_remembered : bool) : result string :=
  match memory with
  | None => Ok ""
  | Some s =>
      if mem_inject <=? 0 then Ok "" else
      rows ← memory_candidates s mem_user mem_inject include_chat include_remembered ;
      match rows with
      | [] => Ok ""
      | _ =>
          let rows := memory_selection mem_inject rows in
          let lines := memory_header :: map memory_line rows in
          Ok (Py.strip (Py.join Py.nl lines))
      end
  end.

(** ** The command line of [jarv_memory.py] *)

(** What the two listing commands print for one row. *)
Definition row_line (r : MemoryRow) : string :=
  let flag := if deleted r =? 0 then "" else " (DELETED)" in
  "[" +:+ pretty (id r) +:+ "] " +:+ timestamp r +:+ " " +:+ role r +:+ "/"
  +:+ kind r +:+ flag +:+ ": " +:+ content r.

(** [_cmd_add]: the lines printed, and the store left behind. *)
Definition _cmd_add (s : store) (now user role kind content : string)
    : result (list string) * store :=
  match store_message s now user role content kind with
  | (Ok row_id, s') => (Ok ["added id=" +:+ pretty row_id], s')
  | (Raise e, s') => (Raise e, s')
  end.

(** [_cmd_recent]: the lines printed. *)
Definition _cmd_recent (s : store) (user : string) (n : Z) (kind : option string)
    (include_deleted : bool) : result (list string) :=
  rows ← get_recent s user n include_deleted kind;
  Ok (row_line <$> reverse rows).

(** [_cmd_search]: the lines printed. *)
Definition _cmd_search (s : store) (user q : string) (n : Z) (kind : option string)
    (include_deleted : bool) : result (list string) :=
  rows ← search s user q n include_deleted kind;
  Ok (row_line <$> reverse rows).

(** [_cmd_forget_keyword] *)
Definition _cmd_forget_keyword (s : store) (user kw : string) : list string * store :=
  let '(n, s') := forget_keyword s user kw in
  (["forgot " +:+ pretty n +:+ " row(s) matching: " +:+ kw], s').

(** [_cmd_forget_id] *)
Definition _cmd_forget_id (s : store) (user : string) (row_id : Z) : list string * store :=
  let '(n, s') := forget_id s user row_id in
  (["forgot " +:+ pretty n +:+ " row(s) with id=" +:+ pretty row_id], s').

(** [_cmd_clear] *)
Definition _cmd_clear (s : store) (user : string) : list string * store :=
  let '(n, s') := clear_user s user in
  (["cleared " +:+ pretty n +:+ " row(s) for user=" +:+ user], s').

(** ** Routing in [jarvis.py] *)

(** The longest run of characters satisfying [p] at the head of a text,
    and what follows it. *)
Fixpoint span (p : ascii → bool) (s : string) : string * string :=
  match s with
  | EmptyString => ("", "")
  | String c s' =>
      if p c then let '(a, b) := span p s' in (String c a, b) else ("", s)
  end.

(** [s.split(maxsplit=1)]: the first word and, if anything but blanks
    follows it, the rest from its first character that is not blank. *)
Definition split_maxsplit1 (s : string) : list string :=
  match Py.lstrip s with
  | EmptyString => []
  | s1 =>
      let '(word, r) := span (λ c, negb (Py.isspace c)) s1 in
      match Py.lstrip r with
      | EmptyString => [word]
      | rest => [word; rest]
      end
  end.

(** [s.rstrip(":")] *)
Fixpoint rstrip_colon (s : string) : string :=
  match s with
  | EmptyString => EmptyString
  | String c s' =>
      match rstrip_colon s' with
      | EmptyString => if Ascii.eqb c ":" then EmptyString else String c EmptyString
      | t => String c t
      end
  end.

(** [parse_mode_and_query]; [None] stands for the IndexError [parts[0]]
    would raise on an empty list of parts. *)
Definition parse_mode_and_query (argv_text : string) : option (string * string) :=
  let s := Py.strip argv_text in
  if Py.is_empty s then Some ("chat", "") else
  match split_maxsplit1 s with
  | [] => None
  | part0 :: parts =>
      let head := rstrip_colon (Py.lower part0) in
      let tail := match parts with part1 :: _ => Py.strip part1 | [] => "" end in
      if bool_decide (head ∈ ["wiki"; "wikipedia"]) then Some ("wiki", tail) else
      if bool_decide (head = "arxiv") then Some ("arxiv", tail) else
      if bool_decide (head ∈ ["rag"; "mitre"]) then Some ("rag", tail) else
      if bool_decide (head ∈ ["tools"; "all"]) then Some ("tools", tail) else
      Some ("chat", s)
  end.

(** The modes [parse_mode_and_query] tells apart. *)
Definition modes : list string := ["chat"; "wiki"; "arxiv"; "rag"; "tools"].

(** [any(k in ql for k in keys)] with [ql = q.lower()]. *)
Definition any_in_lower (keys : list string) (q : string) : bool :=
  let ql := Py.lower q in
  existsb (λ k, Py.contains ql k) keys.

Definition should_auto_use_arxiv (q : string) : bool :=
  any_in_lower ["paper"; "arxiv"; "preprint"; "doi"; "published"; "research"; "study"] q.

Definition should_auto_use_rag (q : string) : bool :=
  any_in_lower ["mitre"; "att&ck"; "attack"; "t10"; "cwe"; "capec"; "rfc"] q.

Definition should_auto_use_wiki (q : string) : bool :=
  any_in_lower ["who is"; "what is"; "history"; "mythology"; "definition";
                "wikipedia"; "wiki"] q.

(** [[a-zA-Z]] *)
Definition is_letter (c : ascii) : bool :=
  let n := N_of_ascii c in
  ((65 <=? n) && (n <=? 90) || (97 <=? n) && (n <=? 122))%N.

(** [.]: any character but the line break. *)
Definition is_dot (c : ascii) : bool := negb (Ascii.eqb c (ascii_of_N 10)).

Fixpoint forall_chars (p : ascii → bool) (s : string) : bool :=
  match s with
  | EmptyString => true
  | String c s' => p c && forall_chars p s'
  end.

(** The last character of a text that is not a line break. *)
Fixpoint last_dot (s : string) : option ascii :=
  match s with
  | EmptyString => None
  | String c s' =>
      match last_dot s' with
      | Some d => Some d
      | None => if is_dot c then Some c else None
      end
  end.

(** [_PREFIX_RE.match(s)], for [^\s*([a-zA-Z]+)\s*:\s*(.+?)\s*$]: the two
    groups of the match, if there is one.  After the blanks, the letters, the
    blanks and the colon, the greedy [\s*] takes the blanks that follow and
    the lazy group stops as soon as only blanks remain; so when the body has
    a character that is not blank, group 2 is the body trimmed, and there is
    a match only if no line break lies inside it.  When the body is all
    blanks, [\s*] gives characters back from the end until the group can
    take one, the last that is not a line break. *)
Definition _PREFIX_RE_match (s : string) : option (string * string) :=
  let '(letters, r) := span is_letter (Py.lstrip s) in
  if Py.is_empty letters then None else
  match Py.lstrip r with
  | String c body =>
      if Ascii.eqb c ":" then
        let b := Py.strip body in
        if Py.is_empty b then
          match last_dot body with
          | Some d => Some (letters, String d EmptyString)
          | None => None
          end
        else if forall_chars is_dot b then Some (letters, b) else None
      else None
  | EmptyString => None
  end.

(** [parse_chat_prefix] *)
Definition parse_chat_prefix (user_in : string) : string :=
  match _PREFIX_RE_match user_in with
  | None => user_in
  | Some (group1, group2) =>
      let prefix := Py.lower group1 in
      let rest := Py.strip group2 in
      if bool_decide (prefix ∈ ["wiki"; "wikipedia"]) then "wiki " +:+ rest else
      if bool_decide (prefix = "arxiv") then "arxiv " +:+ rest else
      if bool_decide (prefix ∈ ["rag"; "mitre"]) then "rag " +:+ rest else
      if bool_decide (prefix ∈ ["tools"; "all"]) then "tools " +:+ rest else
      user_in
  end.

(** ** Calls of the public API *)

(** One call of the public API. *)
Inductive call : Type :=
| CallStoreMessage (now user role content kind : string)
| CallRemember (now user content : string)
| CallForgetKeyword (user keyword : string)
| CallForgetId (user : string) (row_id : Z)
| CallClearUser (user : string)
| CallGetRecent (user : string) (limit : Z) (include_deleted : bool) (kind : option string)
| CallSearch (user query : string) (limit : Z) (include_deleted : bool) (kind : option string)
| CallVacuum.

(** The store a call leaves behind.  The two queries only run a SELECT. *)
Definition after (c : call) (s : store) : store :=
  match c with
  | CallStoreMessage now user role content kind =>
      (store_message s now user role content kind).2
  | CallRemember now user content => (remember s now user content).2
  | CallForgetKeyword user keyword => (forget_keyword s user keyword).2
  | CallForgetId user row_id => (forget_id s user row_id).2
  | CallClearUser user => (clear_user s user).2
  | CallGetRecent _ _ _ _ => s
  | CallSearch _ _ _ _ _ => s
  | CallVacuum => vacuum s
  end.

Definition run (cs : list call) (s : store) : store :=
  foldl (λ s c, after c s) s cs.

(** ** The file at the level of columns: schema and migration *)

Module Schema.

(** The storage classes the program reads and writes. *)
Inductive value : Type :=
| NULL
| INTEGER (n : Z)
| TEXT (s : string).

Global Instance value_eq_dec : EqDecision value.
Proof. solve_decision. Defined.

(** A table: its column names, in order, and its rows; a row maps a
    column name to the value stored under it. *)
Record table : Type := mkTable {
  columns : list string;
  body : list (gmap string value);
}.

(** The file: the table [conversations] if it exists, the names of the
    indexes, the table [meta] if it exists. *)
Record database : Type := mkDb {
  conversations : option table;
  indexes : list string;
  meta : option (gmap string string);
}.

(** A statement run on a connection: it ends well or raises, and leaves
    a file behind either way. *)
Definition stmt (A : Type) : Type := database → result A * database.

Global Instance stmt_ret : MRet stmt := λ A a d, (Ok a, d).

Global Instance stmt_bind : MBind stmt := λ A B k m d,
  match m d with
  | (Ok a, d') => k a d'
  | (Raise e, d') => (Raise e, d')
  end.

(** A statement that cannot fail. *)
Definition exec (f : database → database) : stmt unit := λ d, (Ok tt, f d).

Definition cell (r : gmap string value) (c : string) : value :=
  default NULL (r !! c).

(** [COALESCE(a, b)] *)
Definition coalesce (a b : value) : value :=
  match a with NULL => b | _ => a end.

(** [lower(v)] *)
Definition lower (v : value) : value :=
  match v with
  | NULL => NULL
  | INTEGER n => TEXT (pretty n)
  | TEXT s => TEXT (Sql.lower s)
  end.

(** [v IN ('a', 'b', ...)] as the condition of a CASE branch. *)
Definition is_in (v : value) (l : list string) : bool :=
  match v with
  | TEXT s => bool_decide (s ∈ l)
  | _ => false
  end.

Definition SCHEMA_VERSION : Z := 1.

Definition current_columns : list string :=
  ["id"; "user_id"; "role"; "content"; "kind"; "deleted"; "timestamp"].

(** [CREATE TABLE IF NOT EXISTS conversations (...)] *)
Definition create_conversations (d : database) : database :=
  match conversations d with
  | Some _ => d
  | None => mkDb (Some (mkTable current_columns [])) (indexes d) (meta d)
  end.

(** SQLite compares the names of columns and indexes without regard to the
    case of ASCII letters. *)
Definition same_name (a b : string) : bool :=
  bool_decide (Sql.lower a = Sql.lower b).

(** A name among the names of a table or of the file, as SQLite looks it
    up. *)
Definition has_name (names : list string) (n : string) : bool :=
  existsb (same_name n) names.

(** [CREATE INDEX IF NOT EXISTS name ON conversations(on)]: skipped when
    the name is taken, refused when a column is missing.  Of the message
    only the exception class matters. *)
Definition create_index (name : string) (on : list string) : stmt unit := λ d,
  if has_name (indexes d) name then (Ok tt, d) else
  match conversations d with
  | None => (Raise (OperationalError "no such table: main.conversations"), d)
  | Some t =>
      if forallb (has_name (columns t)) on
      then (Ok tt, mkDb (conversations d) (indexes d ++ [name]) (meta d))
      else (Raise (OperationalError "no such column"), d)
  end.

(** [CREATE TABLE IF NOT EXISTS meta (...)] and
    [INSERT OR IGNORE INTO meta(key, value) VALUES('schema_version', ?)] *)
Definition create_meta (d : database) : database :=
  let m := default ∅ (meta d) in
  let m := match m !! "schema_version" with
           | Some _ => m
           | None => <["schema_version" := pretty SCHEMA_VERSION]> m
           end in
  mkDb (conversations d) (indexes d) (Some m).

(** [_init_database].  The statements before the INSERT are DDL and run
    outside a transaction, so what was done stays done when a later one
    raises. *)
Definition _init_database : stmt unit :=
  exec create_conversations ;;
  create_index "idx_conv_user_time" ["user_id"; "id"] ;;
  create_index "idx_conv_user_deleted" ["user_id"; "deleted"] ;;
  create_index "idx_conv_content" ["content"] ;;
  exec create_meta.

(** [_table_columns(conn, "conversations")]: no table, no columns. *)
Definition _table_columns (d : database) : list string :=
  match conversations d with
  | Some t => columns t
  | None => []
  end.

(** [ALTER TABLE conversations ADD COLUMN c ... DEFAULT dflt]: refused
    when the table has a column of that name already, in whatever letter
    case; otherwise the column is appended and every row reads the default
    in it. *)
Definition add_column (c : string) (dflt : value) : stmt unit := λ d,
  match conversations d with
  | None => (Raise (OperationalError "no such table: conversations"), d)
  | Some t =>
      if has_name (columns t) c
      then (Raise (OperationalError "duplicate column name"), d)
      else (Ok tt,
            mkDb (Some (mkTable (columns t ++ [c]) ((λ r, <[c := dflt]> r) <$> body t)))
                 (indexes d) (meta d))
  end.

(** [if c not in cols: conn.execute("ALTER TABLE ...")]: the test is
    Python's, on the names as they are written. *)
Definition if_not_in (c : string) (cols : list string) (m : stmt unit) : stmt unit :=
  if bool_decide (c ∈ cols) then mret tt else m.

(** The four guarded ALTER statements; [cols] is the list read before. *)
Definition add_missing_columns (cols : list string) : stmt unit :=
  if_not_in "role" cols (add_column "role" NULL) ;;
  if_not_in "content" cols (add_column "content" NULL) ;;
  if_not_in "kind" cols (add_column "kind" (TEXT "chat")) ;;
  if_not_in "deleted" cols (add_column "deleted" (INTEGER 0)).

(** What a column declared TEXT stores of a value: an integer as its
    decimal text. *)
Definition text_affinity (v : value) : value :=
  match v with
  | INTEGER n => TEXT (pretty n)
  | _ => v
  end.

(** [UPDATE ... SET content = COALESCE(content, message)
    WHERE content IS NULL], on one row.  The program declares [content]
    as TEXT, in the CREATE TABLE and in the ALTER alike. *)
Definition fill_content (r : gmap string value) : gmap string value :=
  match cell r "content" with
  | NULL =>
      <["content" := text_affinity (coalesce (cell r "content") (cell r "message"))]> r
  | _ => r
  end.

(** [UPDATE ... SET role = CASE ... END WHERE role IS NULL], on one row. *)
Definition fill_role (r : gmap string value) : gmap string value :=
  match cell r "role" with
  | NULL =>
      let c := lower (coalesce (cell r "context") (TEXT "")) in
      <["role" := if is_in c ["user"; "assistant"; "system"] then lower (cell r "context")
                  else if is_in c ["remembered"; "memory"; "note"] then TEXT "user"
                  else TEXT "user"]> r
  | _ => r
  end.

(** [UPDATE ... SET kind = CASE ... END], on one row. *)
Definition fill_kind (r : gmap string value) : gmap string value :=
  let c := lower (coalesce (cell r "context") (TEXT "")) in
  <["kind" := if is_in c ["remembered"; "memory"; "note"] then TEXT "remembered"
              else coalesce (cell r "kind") (TEXT "chat")]> r.

Definition on_rows (f : gmap string value → gmap string value) (t : table) : table :=
  mkTable (columns t) (f <$> body t).

(** The three UPDATE statements on the table and the UPDATE of [meta]:
    they share one transaction, which the [with] block rolls back when the
    last one raises. *)
Definition back_fill : stmt unit := λ d,
  match meta d with
  | None => (Raise (OperationalError "no such table: meta"), d)
  | Some m =>
      (Ok tt,
       mkDb (on_rows (fill_kind ∘ fill_role ∘ fill_content) <$> conversations d)
            (indexes d)
            (Some (alter (λ _, pretty SCHEMA_VERSION) "schema_version" m)))
  end.

(** [_attempt_migrate_legacy_schema].  The ALTER statements commit as
    they run, so the columns added stay when a later statement raises. *)
Definition _attempt_migrate_legacy_schema : stmt unit := λ d,
  let cols := _table_columns d in
  if bool_decide (cols = []) then (Ok tt, d) else
  if bool_decide ("content" ∈ cols) && bool_decide ("role" ∈ cols) then (Ok tt, d) else
  if bool_decide ("message" ∈ cols) && bool_decide ("context" ∈ cols) then
    (add_missing_columns cols ;; back_fill) d
  else (Ok tt, d).

(** [JarvisMemory.__init__], after the parent directory is there. *)
Definition __init__ : stmt unit :=
  _init_database ;; _attempt_migrate_legacy_schema.

(** A file an older version left: the table
    [conversations(user_id, message, timestamp, context)] with one
    remembered item, and nothing else. *)
Definition legacy_row : gmap string value :=
  {[ "user_id" := TEXT "JD"; "message" := TEXT "likes tea";
     "timestamp" := TEXT "2024-05-01 10:00:00"; "context" := TEXT "remembered" ]}.

Definition legacy_file : database :=
  mkDb (Some (mkTable ["user_id"; "message"; "timestamp"; "context"] [legacy_row]))
       [] None.

End Schema.

(** ** Sample stores *)

(** Five chat turns for JD, roles alternating, ids 1 to 5. *)
Definition five_turns : store :=
  foldl (λ s '(r, c), (store_message s "2026-01-01 00:00:00" "JD" r c "chat").2)
        empty_store
        [("user", "one"); ("assistant", "two"); ("user", "three");
         ("assistant", "four"); ("user", "five")].

(** Two namespaces side by side: JD owns ids 1 and 3, Ann owns id 2. *)
Definition two_users : store :=
  foldl (λ s '(u, c), (remember s "2026-01-01 00:00:00" u c).2)
        empty_store
        [("JD", "likes dark roast Coffee"); ("Ann", "drinks tea");
         ("JD", "owns a bike")].

(** Three chat turns and three remembered items for JD, interleaved,
    ids 1 to 6. *)
Definition six_mixed : store :=
  foldl (λ s '(r, c, k), (store_message s "2026-01-01 00:00:00" "JD" r c k).2)
        empty_store
        [("user", "hello", "chat"); ("user", "likes tea", "remembered");
         ("assistant", "hi there", "chat"); ("user", "owns a bike", "remembered");
         ("user", "what now", "chat"); ("user", "lives in Bern", "remembered")].

(** One chat turn whose content runs over two lines. *)
Definition two_line_note : store :=
  (store_message empty_store "2026-01-01 00:00:00" "JD" "user"
                 ("milk" +:+ Py.nl +:+ "eggs") "chat").2.

(** One remembered item, then two chat turns, for JD. *)
Definition busy_chat : store :=
  foldl (λ s '(r, c, k), (store_message s "2026-01-01 00:00:00" "JD" r c k).2)
        empty_store
        [("user", "likes tea", "remembered"); ("user", "hello", "chat");
         ("assistant", "hi there", "chat")].

(** ** Vocabulary of the statements *)

(** [id INTEGER PRIMARY KEY]: no two rows of the table have the same id. *)
Definition primary_key (s : store) : Prop := NoDup (id <$> conversations s).

(** [l] is what a newest-first query for the rows satisfying [P] returns
    under [LIMIT n]: at most [n] rows of the table, all satisfying [P], by
    strictly descending id, and a satisfying row is left out only when the
    limit is reached and the row is older than all that is returned. *)
Definition newest_first (s : store) (P : MemoryRow → Prop) (n : Z)
    (l : list MemoryRow) : Prop :=
  Z.of_nat (length l) ≤ n ∧
  (∀ r, r ∈ l → r ∈ conversations s ∧ P r) ∧
  StronglySorted (λ a b, id b < id a) l ∧
  (∀ r, r ∈ conversations s → P r →
        r ∈ l ∨ (Z.of_nat (length l) = n ∧ ∀ r', r' ∈ l → id r < id r')).

(** The rows [get_recent] is asked for. *)
Definition recent_rows (user : string) (include_deleted : bool)
    (k : option string) (r : MemoryRow) : Prop :=
  user_id r = user ∧
  (include_deleted = false → deleted r = 0) ∧
  (∀ k', k = Some k' → kind r = k').

(** The positions of the table whose deleted flag differs between two
    states, as pairs of the row before and the row after. *)
Definition transitions (s s' : store) : list (MemoryRow * MemoryRow) :=
  filter (λ p, deleted p.1 ≠ deleted p.2) (zip (conversations s) (conversations s')).

(** What may happen to a row: nothing, or its deleted flag goes from 0
    to 1. *)
Definition soft_deletes (r r' : MemoryRow) : Prop :=
  r' = r ∨ (deleted r = 0 ∧ r' = set_deleted r).

(** The rows one of the two fetches brings. *)
Definition fetched (s : store) (user : string) (n : Z) (enabled : bool)
    (k : string) : list MemoryRow :=
  if enabled then select_desc (recent_where user false (Some k)) (Z.max 1 n) s else [].

(** The number of line breaks in a text. *)
Fixpoint count_nl (s : string) : nat :=
  match s with
  | EmptyString => 0
  | String c s' => (if Ascii.eqb c (ascii_of_N 10) then 1 else 0) + count_nl s'
  end.

(** A row none of whose texts holds a line break. *)
Definition single_line (r : MemoryRow) : Prop :=
  count_nl (role r) = 0%nat ∧ count_nl (kind r) = 0%nat ∧ count_nl (content r) = 0%nat.

(** The layout the migration is written for: the old columns are there,
    and no column has the name of a new one, in whatever letter case. *)
Definition legacy_layout (cols : list string) : Prop :=
  "message" ∈ cols ∧ "context" ∈ cols ∧
  Forall (λ c, Schema.has_name cols c = false) ["role"; "content"; "kind"; "deleted"].

(** The row a legacy row becomes when the four columns are added and the
    three UPDATE statements run. *)
Definition migrated_row (r : gmap string Schema.value) : gmap string Schema.value :=
  Schema.fill_kind (Schema.fill_role (Schema.fill_content
    (<["deleted" := Schema.INTEGER 0]> (<["kind" := Schema.TEXT "chat"]>
       (<["content" := Schema.NULL]> (<["role" := Schema.NULL]> r)))))).

(** The user a call is made for. *)
Definition caller (c : call) : option string :=
  match c with
  | CallStoreMessage _ user _ _ _ => Some user
  | CallRemember _ user _ => Some user
  | CallForgetKeyword user _ => Some user
  | CallForgetId user _ => Some user
  | CallClearUser user => Some user
  | CallGetRecent user _ _ _ => Some user
  | CallSearch user _ _ _ _ => Some user
  | CallVacuum => None
  end.

(** The ids of the table are 1, 2, ... in insertion order and the
    AUTOINCREMENT counter stands at the last of them. *)
Definition consecutive_ids (s : store) : Prop :=
  (∀ i r, conversations s !! i = Some r → id r = Z.of_nat i + 1) ∧
  sqlite_sequence s = Z.of_nat (length (conversations s)).

(** A file [__init__] has nothing left to do on: table, indexes and
    version row are there and the table has the current columns the
    migration looks for. *)
Definition initialised (d : Schema.database) : Prop :=
  ∃ t m,
    Schema.conversations d = Some t ∧ Schema.meta d = Some m ∧
    is_Some (m !! "schema_version") ∧
    Schema.has_name (Schema.indexes d) "idx_conv_user_time" = true ∧
    Schema.has_name (Schema.indexes d) "idx_conv_user_deleted" = true ∧
    Schema.has_name (Schema.indexes d) "idx_conv_content" = true ∧
    "content" ∈ Schema.columns t ∧ "role" ∈ Schema.columns t.

(** A file [_init_database] can index: no table yet, or a table with the
    columns the indexes and the migration name. *)
Definition indexable (d : Schema.database) : Prop :=
  match Schema.conversations d with
  | None => True
  | Some t =>
      Forall (λ c, c ∈ Schema.columns t) ["id"; "user_id"; "deleted"; "content"; "role"]
  end.

(** The words [parse_chat_prefix] and [parse_mode_and_query] know, each with
    the mode it stands for. *)
Definition prefix_modes : list (string * string) :=
  [("wiki", "wiki"); ("wikipedia", "wiki"); ("arxiv", "arxiv"); ("rag", "rag");
   ("mitre", "rag"); ("tools", "tools"); ("all", "tools")].

(** A text without a colon. *)
Definition no_colon (s : string) : bool :=
  forall_chars (λ c, negb (Ascii.eqb c ":")) s.

(** * Properties *)

(** A decidable closed fact, by evaluation. *)
Ltac by_compute := apply (bool_decide_unpack _); vm_compute; exact I.

(** ** Sorting by a key *)

Section sort_by.
Context {A : Type} (le : A → A → bool).
Hypothesis le_total : ∀ a b, le a b = true ∨ le b a = true.
Hypothesis le_trans : ∀ a b c, le a b = true → le b c = true → le a c = true.

Let R (a b : A) : Prop := le a b = true.

Lemma insert_by_Permutation x l : insert_by le x l ≡ₚ x :: l.
Proof.
  induction l as [|y l IH]; simpl; [done|].
  destruct (le x y); [done|].
  rewrite IH. apply Permutation_swap.
Qed.

Lemma sort_by_Permutation l : sort_by le l ≡ₚ l.
Proof.
  induction l as [|x l IH]; simpl; [done|].
  rewrite insert_by_Permutation. by f_equiv.
Qed.

Lemma elem_of_sort_by x l : x ∈ sort_by le l ↔ x ∈ l.
Proof. by rewrite sort_by_Permutation. Qed.

Lemma length_sort_by l : length (sort_by le l) = length l.
Proof. by rewrite sort_by_Permutation. Qed.

Lemma insert_by_sorted x l :
  StronglySorted R l → StronglySorted R (insert_by le x l).
Proof.
  induction 1 as [|y l Hl IH Hy]; simpl.
  - repeat constructor.
  - destruct (le x y) eqn:Hxy.
    + constructor; [by constructor|].
      constructor; [done|].
      eapply Forall_impl; [exact Hy|]. intros z Hz. by eapply le_trans.
    + constructor; [done|].
      rewrite insert_by_Permutation. constructor; [|done].
      destruct (le_total x y) as [Hc|Hc]; [congruence|done].
Qed.

Lemma sort_by_sorted l : StronglySorted R (sort_by le l).
Proof.
  induction l as [|x l IH]; simpl; [constructor|].
  by apply insert_by_sorted.
Qed.
End sort_by.

Lemma StronglySorted_mono {A} (R1 R2 : relation A) l :
  (∀ a b, R1 a b → R2 a b) → StronglySorted R1 l → StronglySorted R2 l.
Proof.
  intros HR. induction 1 as [|x l Hl IH Hx]; constructor; [done|].
  eapply Forall_impl; [exact Hx|]. auto.
Qed.

Lemma StronglySorted_take {A} (R : relation A) n l :
  StronglySorted R l → StronglySorted R (take n l).
Proof.
  intros H. rewrite <-(take_drop n l) in H.
  apply StronglySorted_app in H. tauto.
Qed.

Lemma StronglySorted_drop {A} (R : relation A) n l :
  StronglySorted R l → StronglySorted R (drop n l).
Proof.
  intros H. rewrite <-(take_drop n l) in H.
  apply StronglySorted_app in H. tauto.
Qed.

Lemma StronglySorted_take_drop {A} (R : relation A) n l x y :
  StronglySorted R l → x ∈ take n l → y ∈ drop n l → R x y.
Proof.
  intros H Hx Hy. rewrite <-(take_drop n l) in H.
  by apply (StronglySorted_app_1_elem_of R _ _ x y) in H.
Qed.

(** A list sorted by a key without repeated keys is strictly sorted. *)
Lemma StronglySorted_strict {A} (key : A → Z) (l : list A) :
  NoDup (key <$> l) →
  StronglySorted (λ a b, key a ≤ key b) l →
  StronglySorted (λ a b, key a < key b) l.
Proof.
  induction l as [|x l IH]; intros Hnd Hs; [constructor|].
  rewrite fmap_cons in Hnd. apply NoDup_cons in Hnd as [Hx Hnd].
  apply StronglySorted_inv in Hs as [Hs Hall].
  constructor; [by apply IH|].
  rewrite Forall_forall in Hall |- *. intros y Hy.
  specialize (Hall y Hy).
  assert (key x ≠ key y); [|lia].
  intros Heq. apply Hx. rewrite Heq. by apply list_elem_of_fmap_2.
Qed.

Lemma StronglySorted_strict_desc {A} (key : A → Z) (l : list A) :
  NoDup (key <$> l) →
  StronglySorted (λ a b, key b ≤ key a) l →
  StronglySorted (λ a b, key b < key a) l.
Proof.
  induction l as [|x l IH]; intros Hnd Hs; [constructor|].
  rewrite fmap_cons in Hnd. apply NoDup_cons in Hnd as [Hx Hnd].
  apply StronglySorted_inv in Hs as [Hs Hall].
  constructor; [by apply IH|].
  rewrite Forall_forall in Hall |- *. intros y Hy.
  specialize (Hall y Hy).
  assert (key x ≠ key y); [|lia].
  intros Heq. apply Hx. rewrite Heq. by apply list_elem_of_fmap_2.
Qed.

(** ** The primary key *)

Lemma primary_key_inj s r1 r2 :
  primary_key s → r1 ∈ conversations s → r2 ∈ conversations s →
  id r1 = id r2 → r1 = r2.
Proof.
  unfold primary_key. intros Hnd H1 H2 Heq.
  apply list_elem_of_lookup in H1 as [i Hi], H2 as [j Hj].
  assert (i = j) as ->; [|congruence].
  eapply NoDup_lookup; [exact Hnd| |]; rewrite list_lookup_fmap.
  - by rewrite Hi.
  - rewrite Hj. simpl. by rewrite Heq.
Qed.

Lemma NoDup_fmap_Permutation_sub {A B} (f : A → B) (l k : list A) :
  NoDup (f <$> l) → k ⊆+ l → NoDup (f <$> k).
Proof.
  intros Hnd [k' Hk']%submseteq_Permutation.
  rewrite Hk', fmap_app in Hnd. by apply NoDup_app in Hnd as (? & _ & _).
Qed.

(** ** SELECT ... ORDER BY id DESC LIMIT n *)

Section select_desc.
Context (w : MemoryRow → bool) (n : Z) (s : store).

Let matching := filter (λ r, w r = true) (conversations s).

Lemma id_desc_total (a b : MemoryRow) : (id b <=? id a) = true ∨ (id a <=? id b) = true.
Proof. lia. Qed.

Lemma id_desc_trans (a b c : MemoryRow) :
  (id b <=? id a) = true → (id c <=? id b) = true → (id c <=? id a) = true.
Proof. lia. Qed.

Lemma order_by_id_desc_sorted l :
  StronglySorted (λ a b, id b ≤ id a) (order_by_id_desc l).
Proof.
  eapply StronglySorted_mono; [|apply (sort_by_sorted _ id_desc_total id_desc_trans)].
  intros a b. simpl. lia.
Qed.

Lemma select_desc_submseteq : select_desc w n s ⊆+ conversations s.
Proof.
  unfold select_desc. etrans; [apply submseteq_take|].
  unfold order_by_id_desc. rewrite sort_by_Permutation.
  apply sublist_submseteq, sublist_filter.
Qed.

Lemma elem_of_select_desc r :
  r ∈ select_desc w n s → r ∈ conversations s ∧ w r = true.
Proof.
  unfold select_desc. intros H%subseteq_take.
  unfold order_by_id_desc in H. rewrite elem_of_sort_by in H.
  by apply list_elem_of_filter in H as [? ?].
Qed.

Lemma length_select_desc :
  length (select_desc w n s) = (Z.to_nat n `min` length matching)%nat.
Proof.
  unfold select_desc. rewrite length_take.
  unfold order_by_id_desc. by rewrite length_sort_by.
Qed.

Lemma select_desc_sorted :
  StronglySorted (λ a b, id b ≤ id a) (select_desc w n s).
Proof. apply StronglySorted_take, order_by_id_desc_sorted. Qed.

Lemma select_desc_strict :
  primary_key s → StronglySorted (λ a b, id b < id a) (select_desc w n s).
Proof.
  intros Hpk. apply StronglySorted_strict_desc; [|apply select_desc_sorted].
  eapply NoDup_fmap_Permutation_sub; [exact Hpk|apply select_desc_submseteq].
Qed.

(** What the LIMIT cuts off is older than everything returned. *)
Lemma select_desc_newest r r' :
  r ∈ conversations s → w r = true → r ∉ select_desc w n s →
  r' ∈ select_desc w n s → id r ≤ id r'.
Proof.
  intros Hr Hw Hnot Hr'. unfold select_desc in *.
  set (l := order_by_id_desc matching) in *.
  assert (r ∈ l) as Hin.
  { unfold l, order_by_id_desc. rewrite elem_of_sort_by.
    apply list_elem_of_filter. done. }
  rewrite <-(take_drop (Z.to_nat n) l) in Hin.
  apply elem_of_app in Hin as [Hin|Hin]; [done|].
  apply (StronglySorted_take_drop (λ a b, id b ≤ id a) (Z.to_nat n) l r' r);
    [apply order_by_id_desc_sorted|done|done].
Qed.

(** A limit that covers the table cuts nothing off. *)
Lemma select_desc_all r :
  (length (conversations s) ≤ Z.to_nat n)%nat →
  r ∈ conversations s → w r = true → r ∈ select_desc w n s.
Proof.
  intros Hn Hr Hw. unfold select_desc.
  rewrite take_ge.
  - unfold order_by_id_desc. rewrite elem_of_sort_by.
    by apply list_elem_of_filter.
  - unfold order_by_id_desc. rewrite length_sort_by.
    etrans; [apply length_filter|done].
Qed.
End select_desc.

(** ** Reading: [get_recent] and [search] *)

Lemma select_desc_newest_first s w P n :
  primary_key s → 0 ≤ n → (∀ r, w r = true ↔ P r) →
  newest_first s P n (select_desc w n s).
Proof.
  intros Hpk Hn HP. repeat split.
  - rewrite length_select_desc. lia.
  - by apply elem_of_select_desc in H as [? ?].
  - apply HP. by apply elem_of_select_desc in H as [? ?].
  - by apply select_desc_strict.
  - intros r Hr HPr. apply HP in HPr.
    destruct (decide (r ∈ select_desc w n s)) as [Hin|Hout]; [by left|right].
    split.
    + rewrite length_select_desc.
      assert (Z.to_nat n < length (filter (λ r, w r = true) (conversations s)))%nat; [|lia].
      destruct (decide (Z.to_nat n < length (filter (λ r, w r = true) (conversations s)))%nat)
        as [?|Hge]; [done|].
      exfalso. apply Hout. unfold select_desc. rewrite take_ge.
      * unfold order_by_id_desc. rewrite elem_of_sort_by.
        by apply list_elem_of_filter.
      * unfold order_by_id_desc. rewrite length_sort_by. lia.
    + intros r' Hr'.
      pose proof (select_desc_newest w n s r r' Hr HPr Hout Hr') as Hle.
      assert (id r ≠ id r'); [|lia].
      intros Heq. apply Hout.
      apply elem_of_select_desc in Hr' as Hr''. destruct Hr'' as [Hr'' _].
      by rewrite (primary_key_inj s r r' Hpk Hr Hr'' Heq).
Qed.

Lemma recent_where_spec user incl k r :
  recent_where user incl k r = true ↔ recent_rows user incl k r.
Proof.
  unfold recent_where, recent_rows.
  rewrite !andb_true_iff, orb_true_iff, bool_decide_eq_true, Z.eqb_eq.
  split.
  - intros [[Hu Hd] Hk]. split_and!; [done| |].
    + intros ->. by destruct Hd.
    + intros k' ->. by apply bool_decide_eq_true in Hk.
  - intros (Hu & Hd & Hk). split_and!; [done| |].
    + destruct incl; [by left|right; by apply Hd].
    + destruct k as [k|]; [|done]. apply bool_decide_eq_true. by apply Hk.
Qed.

Lemma kind_clause_none : kind_clause None = Ok None.
Proof. done. Qed.

Lemma kind_clause_empty : kind_clause (Some "") = Ok None.
Proof. done. Qed.

Lemma kind_clause_valid k0 :
  k0 ≠ "" → Py.lower (Py.strip k0) ∈ kinds →
  kind_clause (Some k0) = Ok (Some (Py.lower (Py.strip k0))).
Proof.
  intros Hne Hin. unfold kind_clause.
  destruct k0; [done|]. simpl Py.is_empty. cbv iota.
  by rewrite bool_decide_eq_true_2.
Qed.

Lemma kind_clause_invalid k0 :
  k0 ≠ "" → Py.lower (Py.strip k0) ∉ kinds →
  kind_clause (Some k0) = Raise kind_error.
Proof.
  intros Hne Hin. unfold kind_clause.
  destruct k0; [done|]. simpl Py.is_empty. cbv iota.
  by rewrite bool_decide_eq_false_2.
Qed.

Lemma get_recent_ok s user limit incl kind k :
  primary_key s → kind_clause kind = Ok k →
  ∃ l, get_recent s user limit incl kind = Ok l ∧
       newest_first s (recent_rows user incl k) (Z.max 1 limit) l.
Proof.
  intros Hpk Hk. unfold get_recent. rewrite Hk. simpl.
  eexists; split; [done|].
  apply select_desc_newest_first; [done|lia|].
  intros r. apply recent_where_spec.
Qed.

(** C3, as the program has it: [get_recent] checks the kind filter after
    trimming and lower-casing it, and takes an empty filter for none.  A
    filter that is then outside chat/remembered raises the ValueError on
    kind; otherwise the call returns at most max(1, limit) rows of the user,
    newest first by strictly descending id, without the soft-deleted rows
    unless [include_deleted], of the filter's kind only, and what the limit
    cuts off is older than what is returned.  After five inserts,
    limit 3 returns ids 5, 4, 3. *)
Theorem get_recent_spec (s : store) (user : string) (limit : Z) (incl : bool) :
  primary_key s →
  (∀ k0, k0 ≠ "" → Py.lower (Py.strip k0) ∉ kinds →
         get_recent s user limit incl (Some k0) = Raise kind_error) ∧
  (∀ k0, k0 ≠ "" → Py.lower (Py.strip k0) ∈ kinds →
         ∃ l, get_recent s user limit incl (Some k0) = Ok l ∧
              newest_first s (recent_rows user incl (Some (Py.lower (Py.strip k0))))
                           (Z.max 1 limit) l) ∧
  (∃ l, get_recent s user limit incl None = Ok l ∧
        newest_first s (recent_rows user incl None) (Z.max 1 limit) l) ∧
  (∃ l, get_recent s user limit incl (Some "") = Ok l ∧
        newest_first s (recent_rows user incl None) (Z.max 1 limit) l) ∧
  (id <$> conversations five_turns = [1; 2; 3; 4; 5] ∧
   ∃ l, get_recent five_turns "JD" 3 false None = Ok l ∧ id <$> l = [5; 4; 3]).
Proof.
  intros Hpk. split; [|split; [|split; [|split]]].
  - intros k0 Hne Hout. unfold get_recent.
    by rewrite (kind_clause_invalid k0 Hne Hout).
  - intros k0 Hne Hin. apply get_recent_ok; [done|by apply kind_clause_valid].
  - by apply get_recent_ok.
  - by apply get_recent_ok.
  - split; [done|]. eexists. split; [vm_compute; reflexivity|done].
Qed.

Lemma get_recent_spec_witness :
  primary_key five_turns ∧
  ∃ l, get_recent five_turns "JD" 2 true (Some " Chat ") = Ok l ∧
       newest_first five_turns (recent_rows "JD" true (Some "chat")) 2 l.
Proof.
  assert (primary_key five_turns) as Hpk.
  { unfold primary_key. by_compute. }
  split; [exact Hpk|].
  destruct (get_recent_spec five_turns "JD" 2 true Hpk) as (_ & H & _).
  apply (H " Chat "); [done|by_compute].
Defined.

(** C3 as stated fails: a kind filter outside the two kinds that is not
    rejected.  "CHAT" is read as chat, and so the call returns rows. *)
Lemma get_recent_kind_counterexample :
  ("CHAT" ∉ kinds) ∧
  (∀ e, get_recent five_turns "JD" 3 false (Some "CHAT") ≠ Raise e) ∧
  ∃ l, get_recent five_turns "JD" 3 false (Some "CHAT") = Ok l ∧
       id <$> l = [5; 4; 3].
Proof.
  split; [|split].
  - by_compute.
  - intros e. vm_compute. discriminate.
  - eexists. split; [vm_compute; reflexivity|done].
Qed.

(** ** Writing: [store_message] *)

Lemma max_rowid_ge l r : r ∈ l → id r ≤ max_rowid l.
Proof.
  induction l as [|x l IH]; simpl; [by intros ?%elem_of_nil|].
  intros [->|Hin]%elem_of_cons; [lia|]. specialize (IH Hin). lia.
Qed.

Lemma or_else_empty s : Py.or_else s "" = s.
Proof. by destruct s. Qed.

Lemma is_empty_true s : Py.is_empty s = true ↔ s = "".
Proof. by destruct s. Qed.

Lemma is_empty_false s : Py.is_empty s = false ↔ s ≠ "".
Proof. by destruct s. Qed.

(** C2, as the program has it: [store_message] validates the role after
    trimming and lower-casing it, then the kind after defaulting an empty one
    to chat, trimming and lower-casing it, then the trimmed content.  The
    first check that fails raises a ValueError whose message starts with the
    name of the field, and the store is left as it was.  When all pass, one
    row with the normalised role and kind, the trimmed content and
    deleted = 0 is appended under an id above every id of the table, and
    that id is returned. *)
Theorem store_message_spec (s : store) (now user role content kind : string) :
  let role' := Py.lower (Py.strip role) in
  let kind' := Py.lower (Py.strip (Py.or_else kind "chat")) in
  let content' := Py.strip content in
  (role' ∉ roles →
     store_message s now user role content kind
     = (Raise (ValueError "role must be one of: user, assistant, system"), s)) ∧
  (role' ∈ roles → kind' ∉ kinds →
     store_message s now user role content kind
     = (Raise (ValueError "kind must be one of: chat, remembered"), s)) ∧
  (role' ∈ roles → kind' ∈ kinds → content' = "" →
     store_message s now user role content kind
     = (Raise (ValueError "content cannot be empty"), s)) ∧
  (role' ∈ roles → kind' ∈ kinds → content' ≠ "" →
     ∃ i, store_message s now user role content kind
          = (Ok i, mkStore (conversations s ++ [mkRow i user role' content' kind' 0 now]) i)
          ∧ ∀ r, r ∈ conversations s → id r < i).
Proof.
  intros role' kind' content'. unfold store_message.
  rewrite !or_else_empty. fold role' kind' content'.
  split; [|split; [|split]].
  - intros Hr. by rewrite bool_decide_eq_false_2.
  - intros Hr Hk. rewrite bool_decide_eq_true_2 by done. simpl.
    by rewrite bool_decide_eq_false_2.
  - intros Hr Hk Hc. rewrite !bool_decide_eq_true_2 by done. simpl.
    by rewrite Hc.
  - intros Hr Hk Hc. rewrite !bool_decide_eq_true_2 by done. simpl.
    apply is_empty_false in Hc. rewrite Hc.
    eexists. split; [done|].
    intros r Hin%max_rowid_ge. lia.
Qed.

Lemma store_message_spec_witness :
  store_message empty_store "2026-01-01 00:00:00" "JD" "user" "  " "chat"
  = (Raise (ValueError "content cannot be empty"), empty_store) ∧
  ∃ i, store_message empty_store "2026-01-01 00:00:00" "JD" " User" " likes tea " ""
       = (Ok i, mkStore [mkRow i "JD" "user" "likes tea" "chat" 0 "2026-01-01 00:00:00"] i)
       ∧ ∀ r, r ∈ [] → id r < i.
Proof.
  split.
  - destruct (store_message_spec empty_store "2026-01-01 00:00:00" "JD" "user" "  " "chat")
      as (_ & _ & H & _).
    apply H; [by_compute|by_compute|reflexivity].
  - destruct (store_message_spec empty_store "2026-01-01 00:00:00" "JD" " User" " likes tea " "")
      as (_ & _ & _ & H).
    apply H; [by_compute|by_compute|discriminate].
Defined.

(** C2 as stated fails: a role outside user/assistant/system and a kind
    outside chat/remembered that are accepted, the row being stored under
    the normalised values. *)
Lemma store_message_counterexample :
  ("USER" ∉ roles) ∧ ("" ∉ kinds) ∧
  store_message empty_store "2026-01-01 00:00:00" "JD" "USER" "hello" ""
  = (Ok 1, mkStore [mkRow 1 "JD" "user" "hello" "chat" 0 "2026-01-01 00:00:00"] 1).
Proof.
  split; [by_compute|]. split; [by_compute|]. reflexivity.
Qed.

(** ** Soft deletion: [UPDATE conversations SET deleted = 1 WHERE ...] *)

Section update_deleted.
Context (w : MemoryRow → bool).
Hypothesis w_live : ∀ r, w r = true → deleted r = 0.

Lemma update_deleted_rows s :
  conversations (update_deleted w s).2
  = (λ r, if w r then set_deleted r else r) <$> conversations s.
Proof. done. Qed.

Lemma update_deleted_count s :
  (update_deleted w s).1
  = Z.of_nat (length (filter (λ r, w r = true) (conversations s))).
Proof. done. Qed.

Lemma update_deleted_transitions s :
  transitions s (update_deleted w s).2
  = (λ r, (r, set_deleted r)) <$> filter (λ r, w r = true) (conversations s).
Proof.
  unfold transitions. rewrite update_deleted_rows.
  induction (conversations s) as [|r l IH]; [done|].
  rewrite fmap_cons. simpl zip.
  destruct (w r) eqn:Hw.
  - rewrite filter_cons_True by (simpl; rewrite (w_live r Hw); done).
    rewrite (filter_cons_True (λ r, w r = true)) by done.
    by rewrite IH.
  - rewrite filter_cons_False by (simpl; intros H; by apply H).
    rewrite (filter_cons_False (λ r, w r = true)) by (by rewrite Hw).
    by rewrite IH.
Qed.

Lemma update_deleted_none s :
  (∀ r, r ∈ conversations s → w r = false) → update_deleted w s = (0, s).
Proof.
  intros Hnone. unfold update_deleted. destruct s as [l q]. simpl in *.
  f_equal.
  - induction l as [|r l IH]; [done|].
    rewrite filter_cons_False.
    + apply IH. intros x Hx. apply Hnone. by right.
    + rewrite Hnone; [done|by left].
  - f_equal. induction l as [|r l IH]; [done|]. simpl.
    rewrite Hnone by (by left). f_equal. apply IH.
    intros x Hx. apply Hnone. by right.
Qed.

(** A row the WHERE clause does not select stays as it is, where it is. *)
Lemma update_deleted_other s i r :
  conversations s !! i = Some r → w r = false →
  conversations (update_deleted w s).2 !! i = Some r.
Proof.
  intros Hi Hw. rewrite update_deleted_rows, list_lookup_fmap, Hi. simpl.
  by rewrite Hw.
Qed.

(** When the clause pins the id, at most one row is selected. *)
Lemma update_deleted_one s r :
  primary_key s → r ∈ conversations s → w r = true →
  (∀ x, w x = true → id x = id r) →
  update_deleted w s
  = (1, mkStore ((λ x, if decide (x = r) then set_deleted x else x) <$> conversations s)
                (sqlite_sequence s)).
Proof.
  intros Hpk Hr Hw Hid.
  assert (∀ x, x ∈ conversations s → w x = true ↔ x = r) as Hiff.
  { intros x Hx. split; [|by intros ->].
    intros Hwx. apply (primary_key_inj s); auto. }
  unfold update_deleted. f_equal.
  - unfold primary_key in Hpk. apply NoDup_fmap_1 in Hpk.
    assert (filter (λ x, w x = true) (conversations s) = [r]) as ->; [|done].
    revert Hpk Hr Hiff. generalize (conversations s) as l.
    induction l as [|x l IH]; intros Hnd Hr Hiff; [by apply elem_of_nil in Hr|].
    apply NoDup_cons in Hnd as [Hx Hnd].
    destruct (decide (x = r)) as [->|Hne].
    + rewrite filter_cons_True by done. f_equal.
      clear IH Hr Hnd. induction l as [|y l IH]; [done|].
      rewrite filter_cons_False.
      * apply IH; [by intros ?; apply Hx; right|].
        intros z Hz. apply Hiff.
        apply elem_of_cons in Hz as [->|Hz]; [by left|by right; right].
      * intros Hy. apply Hiff in Hy; [|by right; left].
        apply Hx. rewrite Hy. by left.
    + rewrite filter_cons_False.
      * apply elem_of_cons in Hr as [?|Hr]; [done|].
        apply IH; [done|done|]. intros z Hz. apply Hiff. by right.
      * intros Hwx. apply Hne. apply Hiff; [by left|done].
  - f_equal. apply list_fmap_ext. intros i x Hx%list_elem_of_lookup_2.
    destruct (decide (x = r)) as [->|Hne]; [by rewrite Hw|].
    destruct (w x) eqn:Hwx; [|done]. by apply Hiff in Hwx.
Qed.
End update_deleted.

Lemma forget_id_where_live user row_id r :
  forget_id_where user row_id r = true → deleted r = 0.
Proof. unfold forget_id_where. rewrite !andb_true_iff. lia. Qed.

Lemma forget_keyword_where_live user pat r :
  forget_keyword_where user pat r = true → deleted r = 0.
Proof. unfold forget_keyword_where. rewrite !andb_true_iff. lia. Qed.

Lemma clear_user_where_live user r :
  clear_user_where user r = true → deleted r = 0.
Proof. unfold clear_user_where. rewrite !andb_true_iff. lia. Qed.

Lemma forget_id_where_spec user row_id r :
  forget_id_where user row_id r = true
  ↔ user_id r = user ∧ id r = row_id ∧ deleted r = 0.
Proof.
  unfold forget_id_where.
  rewrite !andb_true_iff, bool_decide_eq_true, !Z.eqb_eq. tauto.
Qed.

(** C6: under the primary key, [forget_id] returns 1 and sets the deleted
    flag of exactly the row with that id to 1, with every other field of the
    row as it was, when that row exists, belongs to the user and is not
    deleted yet; otherwise it returns 0 and the store is as before.  In both
    cases every row of another user stays as it is. *)
Theorem forget_id_spec (s : store) (user : string) (row_id : Z) :
  primary_key s →
  (∀ r, r ∈ conversations s → id r = row_id → user_id r = user → deleted r = 0 →
        forget_id s user row_id
        = (1, mkStore ((λ x, if decide (x = r)
                             then mkRow (id x) (user_id x) (role x) (content x) (kind x)
                                        1 (timestamp x)
                             else x) <$> conversations s)
                      (sqlite_sequence s)) ∧
        (∀ i, conversations s !! i = Some r →
              ∃ r', conversations (forget_id s user row_id).2 !! i = Some r' ∧
                    deleted r' = 1 ∧ id r' = id r ∧ user_id r' = user_id r ∧
                    role r' = role r ∧ content r' = content r ∧ kind r' = kind r ∧
                    timestamp r' = timestamp r)) ∧
  ((¬ ∃ r, r ∈ conversations s ∧ id r = row_id ∧ user_id r = user ∧ deleted r = 0) →
        forget_id s user row_id = (0, s)) ∧
  ((forget_id s user row_id).1 = 1
     ↔ ∃ r, r ∈ conversations s ∧ id r = row_id ∧ user_id r = user ∧ deleted r = 0) ∧
  (∀ i r, conversations s !! i = Some r → user_id r ≠ user →
          conversations (forget_id s user row_id).2 !! i = Some r).
Proof.
  intros Hpk.
  assert (∀ r, r ∈ conversations s → id r = row_id → user_id r = user → deleted r = 0 →
        forget_id s user row_id
        = (1, mkStore ((λ x, if decide (x = r) then set_deleted x else x) <$> conversations s)
                      (sqlite_sequence s))) as Hone.
  { intros r Hr Hid Hu Hd. unfold forget_id. apply update_deleted_one; [done|done| |].
    - apply forget_id_where_spec. done.
    - intros x Hx%forget_id_where_spec. destruct Hx as (_ & -> & _). done. }
  assert ((¬ ∃ r, r ∈ conversations s ∧ id r = row_id ∧ user_id r = user ∧ deleted r = 0) →
        forget_id s user row_id = (0, s)) as Hnone.
  { intros Hno. apply update_deleted_none. intros r Hr.
    destruct (forget_id_where user row_id r) eqn:Hw; [|done].
    apply forget_id_where_spec in Hw. exfalso. apply Hno. exists r. tauto. }
  split.
  { intros r Hr Hid Hu Hd. split; [exact (Hone r Hr Hid Hu Hd)|].
    intros i Hi. rewrite (Hone r Hr Hid Hu Hd). cbn [snd conversations].
    rewrite list_lookup_fmap, Hi. cbn [fmap option_fmap option_map].
    rewrite decide_True by done. eexists. split; [reflexivity|]. done. }
  split; [exact Hnone|]. split.
  - split.
    + intros H1.
      destruct (decide (Exists (λ r, id r = row_id ∧ user_id r = user ∧ deleted r = 0)
                               (conversations s))) as [Hex|Hno].
      * apply Exists_exists in Hex. exact Hex.
      * rewrite Hnone in H1; [done|]. intros Hex. apply Hno, Exists_exists. exact Hex.
    + intros (r & Hr & Hid & Hu & Hd). by rewrite (Hone r).
  - intros i r Hi Hu. apply update_deleted_other; [done|].
    destruct (forget_id_where user row_id r) eqn:Hw; [|done].
    apply forget_id_where_spec in Hw. tauto.
Qed.

Lemma forget_id_spec_witness :
  primary_key two_users ∧
  (forget_id two_users "JD" 2).1 = 0 ∧
  (forget_id two_users "Ann" 2).1 = 1 ∧
  forget_id two_users "Ann" 2
  = (1, mkStore [mkRow 1 "JD" "user" "likes dark roast Coffee" "remembered" 0
                       "2026-01-01 00:00:00";
                 mkRow 2 "Ann" "user" "drinks tea" "remembered" 1 "2026-01-01 00:00:00";
                 mkRow 3 "JD" "user" "owns a bike" "remembered" 0 "2026-01-01 00:00:00"]
                3).
Proof.
  assert (primary_key two_users) as Hpk by (unfold primary_key; by_compute).
  split; [exact Hpk|]. split; [|split].
  - destruct (forget_id_spec two_users "JD" 2 Hpk) as (_ & H & _).
    rewrite H; [done|].
    intros (r & Hr & Hid & Hu & _). revert Hr Hid Hu.
    vm_compute conversations. rewrite !elem_of_cons.
    intros [->|[->|[->|[]%elem_of_nil]]]; simpl; done.
  - destruct (forget_id_spec two_users "Ann" 2 Hpk) as (_ & _ & H & _).
    apply H. eexists (mkRow 2 "Ann" "user" _ _ 0 _).
    split; [|done]. vm_compute conversations. right. left.
  - destruct (forget_id_spec two_users "Ann" 2 Hpk) as (H & _).
    destruct (H (mkRow 2 "Ann" "user" "drinks tea" "remembered" 0 "2026-01-01 00:00:00"))
      as [Heq _]; [by_compute|done..|].
    rewrite Heq. vm_compute. reflexivity.
Defined.

(** ** Matching: [LIKE] *)

Lemma like_pat_percent_cons p s :
  Sql.like_pat (String Sql.percent p) s
  = Sql.like_pat p s
    || match s with
       | EmptyString => false
       | String _ s' => Sql.like_pat (String Sql.percent p) s'
       end.
Proof. by destruct s. Qed.

Lemma like_pat_char_cons c p d s :
  Ascii.eqb c Sql.percent = false →
  Sql.like_pat (String c p) (String d s)
  = (Ascii.eqb c Sql.underscore || Sql.eq_nocase c d) && Sql.like_pat p s.
Proof. intros Hc. simpl. by rewrite Hc. Qed.

Lemma append_nil_l s : "" +:+ s = s.
Proof. done. Qed.

Lemma append_cons c a s : String c a +:+ s = String c (a +:+ s).
Proof. done. Qed.

(** [%] alone matches every text. *)
Lemma like_pat_percent_any s : Sql.like_pat "%" s = true.
Proof.
  induction s as [|c s IH]; [done|].
  change "%" with (String Sql.percent "") in *.
  rewrite like_pat_percent_cons, IH. apply orb_true_r.
Qed.

(** A leading [%] lets the rest of the pattern start anywhere. *)
Lemma like_pat_percent_skip p a s :
  Sql.like_pat p s = true → Sql.like_pat (String Sql.percent p) (a +:+ s) = true.
Proof.
  intros Hp. induction a as [|c a IH].
  - rewrite append_nil_l, like_pat_percent_cons, Hp. done.
  - rewrite append_cons, like_pat_percent_cons, IH. apply orb_true_r.
Qed.

Lemma like_pat_percent_here p s :
  Sql.like_pat p s = true → Sql.like_pat (String Sql.percent p) s = true.
Proof. apply (like_pat_percent_skip p ""). Qed.

(** A pattern matches a text that spells it out up to letter case, its
    wildcard characters included, whatever follows a trailing [%]. *)
Lemma like_pat_nocase p t b :
  Py.lower t = Py.lower p → Sql.like_pat (p +:+ "%") (t +:+ b) = true.
Proof.
  revert t. induction p as [|c p IH]; intros t Heq.
  - destruct t; [|done]. apply like_pat_percent_any.
  - destruct t as [|d t]; [done|]. simpl in Heq. injection Heq as Hc Ht.
    rewrite !append_cons.
    destruct (Ascii.eqb c Sql.percent) eqn:Hpc.
    + apply Ascii.eqb_eq in Hpc as ->.
      rewrite like_pat_percent_cons. apply orb_true_iff. right.
      apply like_pat_percent_here. by apply IH.
    + rewrite like_pat_char_cons by done.
      rewrite IH by done. rewrite andb_true_r.
      apply orb_true_iff. right. unfold Sql.eq_nocase.
      apply Ascii.eqb_eq. done.
Qed.

Lemma lower_app a b : Py.lower (a +:+ b) = Py.lower a +:+ Py.lower b.
Proof. induction a as [|c a IH]; simpl; [done|]. by rewrite IH. Qed.

(** What [lstrip] keeps of a text is a suffix of it, up to letter case. *)
Lemma lstrip_nocase q c :
  Py.lower c = Py.lower q →
  ∃ a c', c = a +:+ c' ∧ Py.lower c' = Py.lower (Py.lstrip q).
Proof.
  revert c. induction q as [|x q IH]; intros c Heq.
  - exists "", c. done.
  - destruct c as [|y c]; [done|]. simpl in Heq. injection Heq as Hc Ht.
    simpl Py.lstrip. destruct (Py.isspace x).
    + destruct (IH c Ht) as (a & c' & -> & Hc'). by exists (String y a), c'.
    + exists "", (String y c). simpl. by rewrite Hc, Ht.
Qed.

(** What [rstrip] keeps of a text is a prefix of it, up to letter case. *)
Lemma rstrip_nocase p c :
  Py.lower c = Py.lower p →
  ∃ t b, c = t +:+ b ∧ Py.lower t = Py.lower (Py.rstrip p).
Proof.
  revert c. induction p as [|x p IH]; intros c Heq.
  - exists "", c. done.
  - destruct c as [|y c]; [done|]. simpl in Heq. injection Heq as Hc Ht.
    destruct (IH c Ht) as (t & b & -> & Hb).
    simpl Py.rstrip. destruct (Py.rstrip p) as [|z r] eqn:Hr.
    + destruct (Py.isspace x).
      * exists "", (String y (t +:+ b)). done.
      * exists (String y ""), (t +:+ b). simpl. by rewrite Hc.
    + exists (String y t), b. simpl. by rewrite Hc, Hb.
Qed.

(** The pattern both [search] and [forget_keyword] build from a text matches
    every content that equals the text up to the case of ASCII letters. *)
Lemma like_strip_nocase q c :
  Py.lower c = Py.lower q → Sql.like c ("%" +:+ Py.strip q +:+ "%") = true.
Proof.
  intros Heq. unfold Sql.like, Py.strip.
  destruct (lstrip_nocase q c Heq) as (a & c' & -> & Hc').
  destruct (rstrip_nocase _ c' Hc') as (t & b & -> & Ht).
  change ("%" +:+ ?x) with (String Sql.percent x).
  apply like_pat_percent_skip, like_pat_nocase, Ht.
Qed.

(** [%%%], the pattern built from the keyword [%], matches every text. *)
Lemma like_percent_all c : Sql.like c ("%" +:+ Py.strip "%" +:+ "%") = true.
Proof.
  unfold Sql.like. change (Sql.like_pat (String Sql.percent (String Sql.percent "%")) c = true).
  apply like_pat_percent_here, like_pat_percent_here, like_pat_percent_any.
Qed.

(** ** [search] and [forget_keyword] *)

Lemma search_where_forget user pat r :
  search_where user pat false None r = forget_keyword_where user pat r.
Proof.
  unfold search_where, forget_keyword_where. simpl. rewrite andb_true_r.
  by rewrite <-!andb_assoc, (andb_comm (Sql.like _ _)).
Qed.

Lemma search_nonblank s user query limit incl kind :
  Py.strip query ≠ "" →
  search s user query limit incl kind
  = (k ← kind_clause kind;
     Ok (select_desc (search_where user ("%" +:+ Py.strip query +:+ "%") incl k)
                     (Z.max 1 limit) s)).
Proof.
  intros Hq%is_empty_false. unfold search. rewrite or_else_empty. by rewrite Hq.
Qed.

Lemma forget_keyword_nonblank s user keyword :
  Py.strip keyword ≠ "" →
  forget_keyword s user keyword
  = update_deleted (forget_keyword_where user ("%" +:+ Py.strip keyword +:+ "%")) s.
Proof.
  intros Hq%is_empty_false. unfold forget_keyword. rewrite or_else_empty. by rewrite Hq.
Qed.

Lemma elem_of_transitions_update w s r :
  (∀ r, w r = true → deleted r = 0) →
  (r, set_deleted r) ∈ transitions s (update_deleted w s).2
  ↔ r ∈ conversations s ∧ w r = true.
Proof.
  intros Hlive. rewrite update_deleted_transitions by done.
  rewrite list_elem_of_fmap. setoid_rewrite list_elem_of_filter. split.
  - intros (y & [= <-] & Hw & Hy). done.
  - intros [Hr Hw]. by exists r.
Qed.

(** C9: a text that is empty or trims to nothing matches no row: [search]
    returns the empty list and [forget_keyword] returns 0 and leaves the
    store as it is. *)
Theorem blank_pattern_matches_nothing (s : store) (user text : string)
    (limit : Z) (incl : bool) (kind : option string) :
  Py.strip text = "" →
  search s user text limit incl kind = Ok [] ∧
  forget_keyword s user text = (0, s).
Proof.
  intros Hblank. unfold search, forget_keyword.
  rewrite or_else_empty, Hblank. done.
Qed.

Lemma blank_pattern_matches_nothing_witness :
  search two_users "JD" "   " 20 false None = Ok [] ∧
  forget_keyword two_users "JD" "   " = (0, two_users).
Proof. apply (blank_pattern_matches_nothing two_users "JD" "   " 20 false None). reflexivity. Defined.

(** The rows a non-blank search returns are rows [forget_keyword] turns, and
    with a limit that covers the table the converse holds. *)
Lemma search_returns_what_forget_turns s user keyword :
  Py.strip keyword ≠ "" →
  (∀ r, (r, set_deleted r) ∈ transitions s (forget_keyword s user keyword).2
        ↔ r ∈ conversations s
          ∧ forget_keyword_where user ("%" +:+ Py.strip keyword +:+ "%") r = true) ∧
  (∀ limit, ∃ l, search s user keyword limit false None = Ok l ∧
     (∀ r, r ∈ l → (r, set_deleted r) ∈ transitions s (forget_keyword s user keyword).2) ∧
     (Z.of_nat (length (conversations s)) ≤ limit →
      ∀ r, (r, set_deleted r) ∈ transitions s (forget_keyword s user keyword).2 → r ∈ l)).
Proof.
  intros Hkw. rewrite forget_keyword_nonblank by done.
  set (pat := "%" +:+ Py.strip keyword +:+ "%").
  pose proof (forget_keyword_where_live user pat) as Hlive.
  split; [intros r; by apply elem_of_transitions_update|].
  intros limit. rewrite search_nonblank by done. simpl. fold pat.
  eexists. split; [done|]. split.
  - intros r [Hr Hw]%elem_of_select_desc.
    apply elem_of_transitions_update; [done|].
    by rewrite <-search_where_forget.
  - intros Hlim r [Hr Hw]%elem_of_transitions_update; [|done].
    apply select_desc_all; [lia|done|]. by rewrite search_where_forget.
Qed.

(** C4: for a keyword that does not trim to nothing, the rows whose deleted
    flag [forget_keyword] turns are exactly the rows [search] returns for the
    same text and user: each row a search returns is turned, each turned row
    is returned by every search whose limit covers the table, no other row
    changes, and the number returned is the number of flags turned. *)
Theorem forget_keyword_matches_search (s : store) (user keyword : string) :
  Py.strip keyword ≠ "" →
  let n := (forget_keyword s user keyword).1 in
  let s' := (forget_keyword s user keyword).2 in
  n = Z.of_nat (length (transitions s s')) ∧
  Forall2 (λ r r', r' = r ∨ (deleted r = 0 ∧ r' = set_deleted r))
          (conversations s) (conversations s') ∧
  (∀ p, p ∈ transitions s s' → p.2 = set_deleted p.1) ∧
  (∀ r, (r, set_deleted r) ∈ transitions s s'
        ↔ ∃ limit l, search s user keyword limit false None = Ok l ∧ r ∈ l) ∧
  (∀ limit, ∃ l, search s user keyword limit false None = Ok l ∧
     (∀ r, r ∈ l → (r, set_deleted r) ∈ transitions s s') ∧
     (Z.of_nat (length (conversations s)) ≤ limit →
      ∀ r, (r, set_deleted r) ∈ transitions s s' → r ∈ l)).
Proof.
  intros Hkw n s'. subst n s'.
  destruct (search_returns_what_forget_turns s user keyword Hkw) as (_ & Hsearch).
  revert Hsearch. rewrite forget_keyword_nonblank by done.
  set (pat := "%" +:+ Py.strip keyword +:+ "%").
  pose proof (forget_keyword_where_live user pat) as Hlive.
  intros Hsearch.
  split; [|split; [|split; [|split]]].
  - rewrite update_deleted_transitions by done.
    by rewrite length_fmap.
  - rewrite update_deleted_rows. apply Forall2_fmap_r, Forall_Forall2_diag.
    apply Forall_forall. intros r _. simpl.
    destruct (forget_keyword_where user pat r) eqn:Hw; [right|by left].
    split; [by apply Hlive in Hw|done].
  - rewrite update_deleted_transitions by done.
    intros p (r & -> & _)%list_elem_of_fmap. done.
  - intros r. split.
    + intros Hr. exists (Z.of_nat (length (conversations s))).
      destruct (Hsearch (Z.of_nat (length (conversations s)))) as (l & Hl & _ & Hall).
      exists l. split; [done|]. apply Hall; [lia|done].
    + intros (limit & l & Hl & Hr).
      destruct (Hsearch limit) as (l' & Hl' & Hsound & _).
      rewrite Hl in Hl'. injection Hl' as <-. by apply Hsound.
  - exact Hsearch.
Qed.

Lemma forget_keyword_matches_search_witness :
  (forget_keyword two_users "JD" " coffee ").1
  = Z.of_nat (length (transitions two_users (forget_keyword two_users "JD" " coffee ").2)).
Proof.
  destruct (forget_keyword_matches_search two_users "JD" " coffee ") as (H & _);
    [discriminate|exact H].
Defined.

(** ** Wildcards in the keyword *)

Lemma prefix_append a q : String.prefix a (a +:+ q) = true.
Proof.
  induction a as [|c a IH]; [by destruct q|].
  rewrite append_cons. simpl. by destruct (ascii_dec c c).
Qed.

(** [Py.contains] finds every occurrence. *)
Lemma contains_complete p a q : Py.contains (p +:+ a +:+ q) a = true.
Proof.
  induction p as [|c p IH].
  - rewrite append_nil_l. destruct a as [|c a].
    + by destruct q.
    + rewrite append_cons. unfold Py.contains; fold Py.contains.
      rewrite <-append_cons, prefix_append. done.
  - rewrite append_cons. unfold Py.contains; fold Py.contains.
    rewrite IH. apply orb_true_r.
Qed.

Lemma forget_keyword_where_percent user r :
  forget_keyword_where user ("%" +:+ Py.strip "%" +:+ "%") r = clear_user_where user r.
Proof.
  unfold forget_keyword_where, clear_user_where.
  by rewrite like_percent_all, andb_true_r.
Qed.

Lemma search_where_percent user incl k r :
  search_where user ("%" +:+ Py.strip "%" +:+ "%") incl k r = recent_where user incl k r.
Proof.
  unfold search_where, recent_where.
  by rewrite like_percent_all, andb_true_r.
Qed.

Lemma update_deleted_ext w1 w2 s :
  (∀ r, w1 r = w2 r) → update_deleted w1 s = update_deleted w2 s.
Proof.
  intros Hext. unfold update_deleted. f_equal.
  - f_equal. f_equal. apply list_filter_iff. intros r. by rewrite Hext.
  - f_equal. apply list_fmap_ext. intros _ r _. by rewrite Hext.
Qed.

Lemma select_desc_ext w1 w2 n s :
  (∀ r, w1 r = w2 r) → select_desc w1 n s = select_desc w2 n s.
Proof.
  intros Hext. unfold select_desc. do 2 f_equal.
  apply list_filter_iff. intros r. by rewrite Hext.
Qed.

(** C5: the trimmed text goes into the LIKE pattern as it is, so [%] and
    [_] in it are wildcards.  With the keyword [%], [forget_keyword] does
    what [clear_user] does: it turns the flag of every row of the user that
    is not deleted yet; and [search] with the query [%] returns what
    [get_recent] returns, rows that do not contain the character [%]
    included. *)
Theorem percent_keyword_is_wildcard :
  (∀ s user, forget_keyword s user "%" = clear_user s user) ∧
  (∀ s user i r, conversations s !! i = Some r → user_id r = user → deleted r = 0 →
     conversations (forget_keyword s user "%").2 !! i = Some (set_deleted r)) ∧
  (∀ s user limit incl kind,
     search s user "%" limit incl kind = get_recent s user limit incl kind) ∧
  (∃ r, search two_users "Ann" "%" 20 false None = Ok [r] ∧
        content r = "drinks tea" ∧
        ∀ p q, content r ≠ p +:+ "%" +:+ q).
Proof.
  assert (∀ s user, forget_keyword s user "%" = clear_user s user) as Hclear.
  { intros s user. rewrite forget_keyword_nonblank by done.
    apply update_deleted_ext, forget_keyword_where_percent. }
  split; [exact Hclear|]. split; [|split].
  - intros s user i r Hi Hu Hd. rewrite Hclear. unfold clear_user.
    rewrite update_deleted_rows, list_lookup_fmap, Hi. simpl.
    unfold clear_user_where.
    rewrite bool_decide_eq_true_2 by done.
    by rewrite (proj2 (Z.eqb_eq _ _) Hd).
  - intros s user limit incl kind. rewrite search_nonblank by done.
    unfold get_recent. destruct (kind_clause kind) as [k|e]; [|done]. simpl.
    f_equal. apply select_desc_ext, search_where_percent.
  - eexists. split; [vm_compute; reflexivity|]. split; [done|].
    intros p q Heq. simpl in Heq.
    pose proof (contains_complete p "%" q) as Hc. rewrite <-Heq in Hc.
    vm_compute in Hc. discriminate.
Qed.

(** ** Letter case *)

Lemma isspace_lower_char c : Py.isspace (Py.lower_char c) = Py.isspace c.
Proof. destruct c as [[] [] [] [] [] [] [] []]; reflexivity. Qed.

Lemma lstrip_lower s : Py.lstrip (Py.lower s) = Py.lower (Py.lstrip s).
Proof.
  induction s as [|c s IH]; [done|]. simpl.
  rewrite isspace_lower_char. by destruct (Py.isspace c).
Qed.

Lemma rstrip_lower s : Py.rstrip (Py.lower s) = Py.lower (Py.rstrip s).
Proof.
  induction s as [|c s IH]; [done|]. simpl.
  rewrite IH, isspace_lower_char.
  destruct (Py.rstrip s); simpl; [|done]. by destruct (Py.isspace c).
Qed.

Lemma strip_lower s : Py.strip (Py.lower s) = Py.lower (Py.strip s).
Proof. unfold Py.strip. by rewrite lstrip_lower, rstrip_lower. Qed.

Lemma lower_empty s : Py.lower s = "" ↔ s = "".
Proof. by destruct s. Qed.

(** Texts equal up to letter case are blank together. *)
Lemma strip_nocase_blank c q :
  Py.lower c = Py.lower q → Py.strip c ≠ "" → Py.strip q ≠ "".
Proof.
  intros Heq Hc Hq. apply Hc.
  apply lower_empty. rewrite <-strip_lower, Heq, strip_lower. by rewrite Hq.
Qed.

(** C10: matching ignores the case of ASCII letters, in [search] and in
    [forget_keyword] alike.  A row of the user that is not deleted and whose
    content, not blank, equals the text up to the case of ASCII letters is
    returned by every search for the text whose limit covers the table, and
    is soft-deleted by [forget_keyword] with the text.  The query coffee
    finds and forgets the row a remark on Coffee was stored in. *)
Theorem like_ignores_ascii_case (s : store) (user text : string) (r : MemoryRow) :
  r ∈ conversations s → user_id r = user → deleted r = 0 →
  Py.strip (content r) ≠ "" →
  Sql.lower (content r) = Sql.lower text →
  (∀ limit, Z.of_nat (length (conversations s)) ≤ limit →
     ∃ l, search s user text limit false None = Ok l ∧ r ∈ l) ∧
  (r, set_deleted r) ∈ transitions s (forget_keyword s user text).2 ∧
  (∃ r0, search two_users "JD" "coffee" 20 false None = Ok [r0] ∧
         content r0 = "likes dark roast Coffee" ∧
         transitions two_users (forget_keyword two_users "JD" "coffee").2
         = [(r0, set_deleted r0)]).
Proof.
  unfold Sql.lower. intros Hr Hu Hd Hc Heq.
  pose proof (strip_nocase_blank _ _ Heq Hc) as Hq.
  destruct (search_returns_what_forget_turns s user text Hq) as (Hsound & Hall).
  assert (forget_keyword_where user ("%" +:+ Py.strip text +:+ "%") r = true) as Hw.
  { unfold forget_keyword_where.
    rewrite bool_decide_eq_true_2 by done.
    rewrite (proj2 (Z.eqb_eq _ _) Hd). simpl.
    by apply like_strip_nocase. }
  assert ((r, set_deleted r) ∈ transitions s (forget_keyword s user text).2) as Hdel.
  { rewrite forget_keyword_nonblank by done.
    apply elem_of_transitions_update; [apply forget_keyword_where_live|done]. }
  split; [|split; [exact Hdel|]].
  - intros limit Hlim. destruct (Hall limit) as (l & Hl & _ & Hin).
    exists l. split; [done|]. by apply Hin.
  - eexists. split; [vm_compute; reflexivity|]. split; [done|].
    vm_compute. reflexivity.
Qed.

Lemma like_ignores_ascii_case_witness :
  ∃ r, r ∈ conversations two_users ∧
       content r = "likes dark roast Coffee" ∧
       (r, set_deleted r)
       ∈ transitions two_users (forget_keyword two_users "JD" "LIKES dark ROAST coffee").2.
Proof.
  exists (mkRow 1 "JD" "user" "likes dark roast Coffee" "remembered" 0 "2026-01-01 00:00:00").
  assert (mkRow 1 "JD" "user" "likes dark roast Coffee" "remembered" 0 "2026-01-01 00:00:00"
          ∈ conversations two_users) as Hin by (vm_compute conversations; left).
  split; [exact Hin|]. split; [done|].
  destruct (like_ignores_ascii_case two_users "JD" "LIKES dark ROAST coffee" _ Hin)
    as (_ & H & _); [done|done|discriminate|reflexivity|exact H].
Defined.

(** ** The primary key over a run of calls *)

Lemma primary_key_empty : primary_key empty_store.
Proof. unfold primary_key. simpl. constructor. Qed.

Lemma update_deleted_ids w s :
  id <$> conversations (update_deleted w s).2 = id <$> conversations s.
Proof.
  rewrite update_deleted_rows, <-list_fmap_compose.
  apply list_fmap_ext. intros _ r _. simpl. by destruct (w r).
Qed.

Lemma store_message_primary_key s now user role content kind :
  primary_key s → primary_key (store_message s now user role content kind).2.
Proof.
  intros Hpk. unfold store_message.
  repeat match goal with
  | |- context [if ?b then _ else _] => destruct b; simpl; [done|]
  end.
  unfold primary_key. simpl. rewrite fmap_app. apply NoDup_app.
  split; [done|]. split; [|apply NoDup_singleton].
  intros x (r & -> & Hr%max_rowid_ge)%list_elem_of_fmap Hx%list_elem_of_singleton.
  simpl in Hx. lia.
Qed.

(** Every call keeps the ids of the table distinct. *)
Lemma primary_key_after c s : primary_key s → primary_key (after c s).
Proof.
  intros Hpk. destruct c; unfold after; try done.
  - by apply store_message_primary_key.
  - by apply store_message_primary_key.
  - unfold forget_keyword. destruct (Py.is_empty _); [done|].
    unfold primary_key. by rewrite update_deleted_ids.
  - unfold forget_id, primary_key. by rewrite update_deleted_ids.
  - unfold clear_user, primary_key. by rewrite update_deleted_ids.
Qed.

(** The primary key holds of every store the API builds from an empty
    table. *)
Lemma primary_key_run cs s : primary_key s → primary_key (run cs s).
Proof.
  revert s. induction cs as [|c cs IH]; intros s Hpk; [done|].
  simpl. by apply IH, primary_key_after.
Qed.

(** ** The deleted flag over a run of calls *)

Lemma soft_deletes_refl r : soft_deletes r r.
Proof. by left. Qed.

Lemma soft_deletes_trans r1 r2 r3 :
  soft_deletes r1 r2 → soft_deletes r2 r3 → soft_deletes r1 r3.
Proof.
  intros [->|[Hd ->]] [->|[Hd' ->]]; [by left|by right|by right|].
  simpl in Hd'. done.
Qed.

(** No way back: a row with the flag set stays exactly as it is. *)
Lemma soft_deletes_deleted r r' : soft_deletes r r' → deleted r ≠ 0 → r' = r.
Proof. intros [->|[Hd ->]] Hne; done. Qed.

Lemma soft_deletes_Forall2_refl l : Forall2 soft_deletes l l.
Proof. apply Forall_Forall2_diag, Forall_forall. intros r _. apply soft_deletes_refl. Qed.

Lemma update_deleted_soft_deletes w s :
  (∀ r, w r = true → deleted r = 0) →
  Forall2 soft_deletes (conversations s) (conversations (update_deleted w s).2).
Proof.
  intros Hlive. rewrite update_deleted_rows.
  apply Forall2_fmap_r, Forall_Forall2_diag, Forall_forall. intros r _. simpl.
  destruct (w r) eqn:Hw; [right|by left]. split; [by apply Hlive|done].
Qed.

(** One call: the rows that were there stay in place and are at most
    soft-deleted; a row that is new has deleted = 0. *)
Lemma after_step c s :
  ∃ old new,
    conversations (after c s) = old ++ new ∧
    Forall2 soft_deletes (conversations s) old ∧
    Forall (λ r, deleted r = 0) new.
Proof.
  assert (∀ now user role content kind, ∃ old new,
    conversations (store_message s now user role content kind).2 = old ++ new ∧
    Forall2 soft_deletes (conversations s) old ∧
    Forall (λ r, deleted r = 0) new) as Hstore.
  { intros now user role content kind. unfold store_message.
    repeat match goal with
    | |- context [if ?b then _ else _] => destruct b; simpl
    end;
    try (exists (conversations s), []; rewrite app_nil_r;
         split; [done|]; split; [apply soft_deletes_Forall2_refl|constructor]).
    eexists (conversations s), [_]. split; [done|].
    split; [apply soft_deletes_Forall2_refl|]. by repeat constructor. }
  assert (∀ w, (∀ r, w r = true → deleted r = 0) → ∃ old new,
    conversations (update_deleted w s).2 = old ++ new ∧
    Forall2 soft_deletes (conversations s) old ∧
    Forall (λ r, deleted r = 0) new) as Hupd.
  { intros w Hlive. exists (conversations (update_deleted w s).2), [].
    rewrite app_nil_r. split; [done|].
    split; [by apply update_deleted_soft_deletes|constructor]. }
  assert (∃ old new,
    conversations s = old ++ new ∧
    Forall2 soft_deletes (conversations s) old ∧
    Forall (λ r, deleted r = 0) new) as Hsame.
  { exists (conversations s), []. rewrite app_nil_r.
    split; [done|]. split; [apply soft_deletes_Forall2_refl|constructor]. }
  destruct c; unfold after.
  - apply Hstore.
  - apply Hstore.
  - unfold forget_keyword. destruct (Py.is_empty _); [exact Hsame|].
    apply Hupd, forget_keyword_where_live.
  - apply Hupd, forget_id_where_live.
  - apply Hupd, clear_user_where_live.
  - exact Hsame.
  - exact Hsame.
  - exact Hsame.
Qed.

(** Any run of calls: the rows that were there stay in place and are at
    most soft-deleted. *)
Lemma run_soft_deletes cs s :
  ∃ old new,
    conversations (run cs s) = old ++ new ∧
    Forall2 soft_deletes (conversations s) old.
Proof.
  revert s. induction cs as [|c cs IH]; intros s.
  - exists (conversations s), []. rewrite app_nil_r.
    split; [done|apply soft_deletes_Forall2_refl].
  - simpl. destruct (after_step c s) as (old1 & new1 & Heq1 & H1 & _).
    destruct (IH (after c s)) as (old2 & new2 & Heq2 & H2).
    rewrite Heq1 in H2.
    apply Forall2_app_inv_l in H2 as (old2a & old2b & H2a & _ & ->).
    exists old2a, (old2b ++ new2). split; [by rewrite Heq2, app_assoc|].
    eapply Forall2_trans; [|exact H1|exact H2a].
    apply soft_deletes_trans.
Qed.

Lemma select_desc_live w n s :
  (∀ r, w r = true → deleted r = 0) →
  Forall (λ r, deleted r = 0) (select_desc w n s).
Proof.
  intros Hlive. apply Forall_forall. intros r [_ Hw]%elem_of_select_desc. auto.
Qed.

(** C7: the deleted flag only ever goes from 0 to 1.  A call creates rows
    with deleted = 0 only, and over any run of calls every row stays at its
    place with all other fields as they were, its flag unchanged or turned
    from 0 to 1; a row whose flag is set is never touched again, so it stays
    in the table.  A query with [include_deleted] off returns no such row;
    [get_recent] with [include_deleted] on and a limit that covers the table
    returns it. *)
Theorem deleted_flag_is_monotone :
  (∀ c s, ∃ old new,
     conversations (after c s) = old ++ new ∧
     Forall2 soft_deletes (conversations s) old ∧
     Forall (λ r, deleted r = 0) new) ∧
  (∀ cs s i r, conversations s !! i = Some r →
     ∃ r', conversations (run cs s) !! i = Some r' ∧
           (r' = r ∨ (deleted r = 0 ∧ r' = set_deleted r))) ∧
  (∀ cs s i r, conversations s !! i = Some r → deleted r ≠ 0 →
     conversations (run cs s) !! i = Some r) ∧
  (∀ s user limit kind l,
     get_recent s user limit false kind = Ok l → Forall (λ r, deleted r = 0) l) ∧
  (∀ s user query limit kind l,
     search s user query limit false kind = Ok l → Forall (λ r, deleted r = 0) l) ∧
  (∀ s user limit r,
     r ∈ conversations s → user_id r = user → deleted r ≠ 0 →
     Z.of_nat (length (conversations s)) ≤ limit →
     ∃ l, get_recent s user limit true None = Ok l ∧ r ∈ l).
Proof.
  assert (∀ cs s i r, conversations s !! i = Some r →
     ∃ r', conversations (run cs s) !! i = Some r' ∧ soft_deletes r r') as Hrun.
  { intros cs s i r Hi.
    destruct (run_soft_deletes cs s) as (old & new & Heq & Hall).
    destruct (Forall2_lookup_l _ _ _ _ _ Hall Hi) as (r' & Hi' & Hr').
    exists r'. split; [|done]. rewrite Heq. by apply lookup_app_l_Some. }
  split; [exact after_step|]. split; [exact Hrun|]. split; [|split; [|split]].
  - intros cs s i r Hi Hd. destruct (Hrun cs s i r Hi) as (r' & Hi' & Hr').
    by rewrite (soft_deletes_deleted r r' Hr' Hd) in Hi'.
  - intros s user limit kind l. unfold get_recent.
    destruct (kind_clause kind) as [k|e]; [|done]. simpl. intros [= <-].
    apply select_desc_live. unfold recent_where. intros r.
    rewrite !andb_true_iff. simpl. lia.
  - intros s user query limit kind l. unfold search.
    destruct (Py.is_empty _); [by intros [= <-]|].
    destruct (kind_clause kind) as [k|e]; [|done]. simpl. intros [= <-].
    apply select_desc_live. unfold search_where. intros r.
    rewrite !andb_true_iff. simpl. lia.
  - intros s user limit r Hr Hu Hd Hlim. eexists. split; [done|].
    apply select_desc_all; [lia|done|].
    unfold recent_where. by rewrite bool_decide_eq_true_2.
Qed.

Lemma deleted_flag_is_monotone_witness :
  let r := mkRow 1 "JD" "user" "likes dark roast Coffee" "remembered" 1 "2026-01-01 00:00:00" in
  conversations (run [CallRemember "2026-01-02 00:00:00" "JD" "note";
                      CallForgetKeyword "JD" "%"; CallClearUser "JD"]
                     (forget_id two_users "JD" 1).2) !! 0%nat = Some r.
Proof.
  destruct deleted_flag_is_monotone as (_ & _ & H & _).
  apply H; [reflexivity|discriminate].
Defined.

Lemma percent_keyword_is_wildcard_witness :
  conversations (forget_keyword two_users "Ann" "%").2 !! 1%nat
  = Some (mkRow 2 "Ann" "user" "drinks tea" "remembered" 1 "2026-01-01 00:00:00").
Proof.
  destruct percent_keyword_is_wildcard as (_ & H & _).
  apply (H two_users "Ann" 1%nat (mkRow 2 "Ann" "user" "drinks tea" "remembered" 0 _));
    reflexivity.
Defined.

(** ** [build_memory_block] *)

Lemma get_recent_chat s user n :
  get_recent s user n false (Some "chat") = Ok (fetched s user n true "chat").
Proof. done. Qed.

Lemma get_recent_remembered s user n :
  get_recent s user n false (Some "remembered") = Ok (fetched s user n true "remembered").
Proof. done. Qed.

Lemma memory_candidates_ok s user n ic ir :
  memory_candidates s user n ic ir
  = Ok (fetched s user n ic "chat" ++ fetched s user n ir "remembered").
Proof. unfold memory_candidates. by destruct ic, ir. Qed.

Lemma elem_of_fetched s user n enabled k r :
  r ∈ fetched s user n enabled k →
  r ∈ conversations s ∧ kind r = k.
Proof.
  unfold fetched. destruct enabled; [|by intros ?%elem_of_nil].
  intros [Hr Hw]%elem_of_select_desc. split; [done|].
  apply recent_where_spec in Hw as (_ & _ & Hk). by apply Hk.
Qed.

Lemma fetched_NoDup_ids s user n enabled k :
  primary_key s → NoDup (id <$> fetched s user n enabled k).
Proof.
  intros Hpk. unfold fetched. destruct enabled; [|constructor].
  eapply NoDup_fmap_Permutation_sub; [exact Hpk|apply select_desc_submseteq].
Qed.

(** The two fetches share no id: their rows differ in kind. *)
Lemma candidates_NoDup_ids s user n ic ir :
  primary_key s →
  NoDup (id <$> (fetched s user n ic "chat" ++ fetched s user n ir "remembered")).
Proof.
  intros Hpk. rewrite fmap_app. apply NoDup_app.
  split; [by apply fetched_NoDup_ids|]. split; [|by apply fetched_NoDup_ids].
  intros x (r1 & -> & [H1 Hk1]%elem_of_fetched)%list_elem_of_fmap
           (r2 & Heq & [H2 Hk2]%elem_of_fetched)%list_elem_of_fmap.
  rewrite (primary_key_inj s r1 r2 Hpk H1 H2 Heq) in Hk1. congruence.
Qed.

Lemma id_asc_total (a b : MemoryRow) : (id a <=? id b) = true ∨ (id b <=? id a) = true.
Proof. lia. Qed.

Lemma id_asc_trans (a b c : MemoryRow) :
  (id a <=? id b) = true → (id b <=? id c) = true → (id a <=? id c) = true.
Proof. lia. Qed.

Lemma sort_key_id_sorted l :
  StronglySorted (λ a b, id a ≤ id b) (sort_key_id l).
Proof.
  eapply StronglySorted_mono; [|apply (sort_by_sorted _ id_asc_total id_asc_trans)].
  intros a b. simpl. lia.
Qed.

Section memory_selection.
Context (n : Z) (rows : list MemoryRow).
Hypothesis n_pos : 0 < n.
Hypothesis rows_ids : NoDup (id <$> rows).

Lemma length_memory_selection :
  length (memory_selection n rows) = (Z.to_nat n `min` length rows)%nat.
Proof.
  unfold memory_selection, last_n, sort_key_id.
  rewrite length_drop, length_sort_by. lia.
Qed.

Lemma elem_of_memory_selection r : r ∈ memory_selection n rows → r ∈ rows.
Proof.
  unfold memory_selection, last_n. intros H%subseteq_drop.
  unfold sort_key_id in H. by rewrite elem_of_sort_by in H.
Qed.

Lemma memory_selection_sorted :
  StronglySorted (λ a b, id a < id b) (memory_selection n rows).
Proof.
  unfold memory_selection, last_n. apply StronglySorted_drop.
  apply StronglySorted_strict; [|apply sort_key_id_sorted].
  unfold sort_key_id. by rewrite sort_by_Permutation.
Qed.

(** What the slice drops is older than everything it keeps. *)
Lemma memory_selection_newest r :
  r ∈ rows →
  r ∈ memory_selection n rows ∨ ∀ r', r' ∈ memory_selection n rows → id r < id r'.
Proof.
  intros Hr. unfold memory_selection, last_n.
  set (l := sort_key_id rows). set (k := (length l - Z.to_nat n)%nat).
  assert (r ∈ l) as Hin by (unfold l, sort_key_id; by rewrite elem_of_sort_by).
  rewrite <-(take_drop k l) in Hin.
  apply elem_of_app in Hin as [Hin|Hin]; [right|by left].
  intros r' Hr'.
  assert (StronglySorted (λ a b, id a < id b) l) as Hs.
  { apply StronglySorted_strict; [|apply sort_key_id_sorted].
    unfold l, sort_key_id. by rewrite sort_by_Permutation. }
  by apply (StronglySorted_take_drop _ k l r r' Hs).
Qed.
End memory_selection.

(** *** Lines of a text *)

Lemma length_splitlines_go cur s :
  length (Py.splitlines_go cur s) = S (count_nl s).
Proof.
  revert cur. induction s as [|c s IH]; intros cur; [done|]. simpl.
  destruct (Ascii.eqb c _); simpl; by rewrite IH.
Qed.

Lemma length_split_nl s : length (Py.split_nl s) = S (count_nl s).
Proof. apply length_splitlines_go. Qed.

Lemma count_nl_app a b : count_nl (a +:+ b) = (count_nl a + count_nl b)%nat.
Proof. induction a as [|c a IH]; simpl; [done|]. rewrite IH. lia. Qed.

Lemma count_nl_lstrip s : (count_nl (Py.lstrip s) ≤ count_nl s)%nat.
Proof.
  induction s as [|c s IH]; simpl; [done|].
  destruct (Py.isspace c); simpl; lia.
Qed.

Lemma count_nl_rstrip s : (count_nl (Py.rstrip s) ≤ count_nl s)%nat.
Proof.
  induction s as [|c s IH]; simpl; [done|].
  destruct (Py.rstrip s) as [|d t]; simpl in *.
  - destruct (Py.isspace c); simpl; lia.
  - lia.
Qed.

Lemma count_nl_strip s : (count_nl (Py.strip s) ≤ count_nl s)%nat.
Proof.
  unfold Py.strip. etrans; [apply count_nl_rstrip|apply count_nl_lstrip].
Qed.

Lemma count_nl_upper s : count_nl (Py.upper s) = count_nl s.
Proof.
  induction s as [|c s IH]; simpl; [done|]. rewrite IH. f_equal.
  destruct c as [[] [] [] [] [] [] [] []]; reflexivity.
Qed.

Lemma count_nl_join l :
  Forall (λ x, count_nl x = 0%nat) l →
  count_nl (Py.join Py.nl l) = (length l - 1)%nat.
Proof.
  induction 1 as [|x l Hx Hl IH]; [done|].
  destruct l as [|y l]; [simpl; lia|].
  change (Py.join Py.nl (x :: y :: l)) with (x +:+ Py.nl +:+ Py.join Py.nl (y :: l)).
  rewrite !count_nl_app, IH, Hx. simpl. lia.
Qed.

Lemma count_nl_memory_line r : single_line r → count_nl (memory_line r) = 0%nat.
Proof.
  intros (Hr & Hk & Hc). unfold memory_line.
  rewrite !count_nl_app, count_nl_upper, or_else_empty, Hr, Hc.
  unfold Py.or_else. destruct (Py.is_empty (kind r)); [done|]. by rewrite Hk.
Qed.

(** C1, as the program has it: for [mem_inject] = N > 0 and a non-empty
    merge of the two fetches, [build_memory_block] returns, trimmed, a header
    line followed by one entry per selected row, joined by line breaks.  The
    selected rows are min(N, number fetched) of the fetched rows, by strictly
    ascending id, and a fetched row outside the selection is older than each
    selected row.  When no selected row holds a line break in its texts, the
    block has at most N + 1 lines.  With three chat and three remembered rows
    and N = 4 the block has 5 lines: the header and the rows 3, 4, 5, 6. *)
Theorem build_memory_block_spec (s : store) (user : string) (n : Z) (ic ir : bool) :
  primary_key s → 0 < n →
  (∃ chat remembered,
    (if ic then get_recent s user n false (Some "chat") = Ok chat else chat = []) ∧
    (if ir then get_recent s user n false (Some "remembered") = Ok remembered
     else remembered = []) ∧
    (chat ++ remembered ≠ [] →
     ∃ sel,
       build_memory_block (Some s) user n ic ir
       = Ok (Py.strip (Py.join Py.nl (memory_header :: (memory_line <$> sel)))) ∧
       length sel = (Z.to_nat n `min` length (chat ++ remembered))%nat ∧
       StronglySorted (λ a b, id a < id b) sel ∧
       (∀ r, r ∈ sel → r ∈ chat ++ remembered) ∧
       (∀ r, r ∈ chat ++ remembered → r ∈ sel ∨ ∀ r', r' ∈ sel → id r < id r') ∧
       (Forall single_line sel →
        ∃ b, build_memory_block (Some s) user n ic ir = Ok b ∧
             Z.of_nat (length (Py.split_nl b)) ≤ n + 1))) ∧
  (∃ b, build_memory_block (Some six_mixed) "JD" 4 true true = Ok b ∧
        Py.split_nl b
        = ["Long-term memory (SQLite). Use this for continuity:";
           "- ASSISTANT (chat): hi there"; "- USER (remembered): owns a bike";
           "- USER (chat): what now"; "- USER (remembered): lives in Bern"]).
Proof.
  intros Hpk Hn. split.
  - exists (fetched s user n ic "chat"), (fetched s user n ir "remembered").
    split; [by destruct ic|]. split; [by destruct ir|].
    set (rows := fetched s user n ic "chat" ++ fetched s user n ir "remembered").
    intros Hne. exists (memory_selection n rows).
    assert (build_memory_block (Some s) user n ic ir
            = Ok (Py.strip (Py.join Py.nl
                    (memory_header :: (memory_line <$> memory_selection n rows))))) as Hb.
    { unfold build_memory_block.
      rewrite (proj2 (Z.leb_gt n 0)) by lia.
      rewrite memory_candidates_ok. fold rows. simpl.
      by destruct rows. }
    pose proof (candidates_NoDup_ids s user n ic ir Hpk) as Hnd. fold rows in Hnd.
    split; [exact Hb|]. split; [by apply length_memory_selection|].
    split; [by apply memory_selection_sorted|].
    split; [apply elem_of_memory_selection|].
    split; [by apply memory_selection_newest|].
    intros Hsl. eexists. split; [exact Hb|].
    rewrite length_split_nl.
    pose proof (count_nl_strip (Py.join Py.nl
                  (memory_header :: (memory_line <$> memory_selection n rows)))) as Hle.
    rewrite count_nl_join in Hle.
    + change (length (memory_header :: ?l)) with (S (length l)) in Hle.
      rewrite length_fmap, length_memory_selection in Hle by done. lia.
    + constructor; [done|]. apply Forall_fmap.
      eapply Forall_impl; [exact Hsl|]. intros r Hr. by apply count_nl_memory_line.
  - eexists. split; vm_compute; reflexivity.
Qed.

Lemma build_memory_block_spec_witness :
  primary_key six_mixed ∧ 0 < 4 ∧
  ∃ chat remembered,
    get_recent six_mixed "JD" 4 false (Some "chat") = Ok chat ∧
    get_recent six_mixed "JD" 4 false (Some "remembered") = Ok remembered ∧
    id <$> chat = [5; 3; 1] ∧ id <$> remembered = [6; 4; 2].
Proof.
  assert (primary_key six_mixed) as Hpk by (unfold primary_key; by_compute).
  split; [exact Hpk|]. split; [lia|].
  destruct (build_memory_block_spec six_mixed "JD" 4 true true Hpk)
    as ((chat & remembered & Hc & Hr & _) & _); [lia|].
  exists chat, remembered. split; [exact Hc|]. split; [exact Hr|].
  vm_compute in Hc, Hr. injection Hc as <-. injection Hr as <-. done.
Defined.

(** C1 as stated fails: with ids 1 to 6 and N = 4 the block has one line
    more than the four the claim counts, the header; and a record whose
    content holds a line break takes more than one line of the block. *)
Lemma build_memory_block_counterexample :
  (∃ b, build_memory_block (Some six_mixed) "JD" 4 true true = Ok b ∧
        length (Py.split_nl b) = 5%nat ∧
        ¬ (Z.of_nat (length (Py.split_nl b)) ≤ 4)) ∧
  (∃ b, build_memory_block (Some two_line_note) "JD" 1 true true = Ok b ∧
        length (conversations two_line_note) = 1%nat ∧
        Py.split_nl b
        = ["Long-term memory (SQLite). Use this for continuity:";
           "- USER (chat): milk"; "eggs"]).
Proof.
  split.
  - eexists. split; [vm_compute; reflexivity|]. split; [done|]. vm_compute. done.
  - eexists. split; [vm_compute; reflexivity|]. split; vm_compute; reflexivity.
Qed.

(** ** Migration of the legacy layout *)

Lemma same_name_refl a : Schema.same_name a a = true.
Proof. unfold Schema.same_name. by apply bool_decide_eq_true_2. Qed.

Lemma elem_of_has_name names n : n ∈ names → Schema.has_name names n = true.
Proof.
  intros Hn. unfold Schema.has_name. apply existsb_exists.
  exists n. split; [by apply list_elem_of_In|apply same_name_refl].
Qed.

Lemma not_has_name names n : Schema.has_name names n = false → n ∉ names.
Proof. intros Hf Hn. by rewrite elem_of_has_name in Hf. Qed.

Lemma has_name_app l k n :
  Schema.has_name (l ++ k) n = Schema.has_name l n || Schema.has_name k n.
Proof. apply existsb_app. Qed.

Lemma add_column_ok c v d t :
  Schema.conversations d = Some t → Schema.has_name (Schema.columns t) c = false →
  Schema.add_column c v d
  = (Ok tt,
     Schema.mkDb (Some (Schema.mkTable (Schema.columns t ++ [c])
                          ((λ r, <[c := v]> r) <$> Schema.body t)))
                 (Schema.indexes d) (Schema.meta d)).
Proof. intros Ht Hc. unfold Schema.add_column. by rewrite Ht, Hc. Qed.

Lemma migrate_no_table d :
  Schema.conversations d = None →
  Schema._attempt_migrate_legacy_schema d = (Ok tt, d).
Proof.
  intros Hnone. unfold Schema._attempt_migrate_legacy_schema, Schema._table_columns.
  by rewrite Hnone.
Qed.

Lemma migrate_current d t :
  Schema.conversations d = Some t →
  "content" ∈ Schema.columns t → "role" ∈ Schema.columns t →
  Schema._attempt_migrate_legacy_schema d = (Ok tt, d).
Proof.
  intros Ht Hc Hr. unfold Schema._attempt_migrate_legacy_schema, Schema._table_columns.
  rewrite Ht. destruct (bool_decide (Schema.columns t = [])); [done|].
  rewrite (bool_decide_eq_true_2 ("content" ∈ _)) by done.
  by rewrite (bool_decide_eq_true_2 ("role" ∈ _)).
Qed.

(** On a legacy table the four ALTER statements run and end well. *)
Lemma add_missing_columns_legacy d t :
  Schema.conversations d = Some t → legacy_layout (Schema.columns t) →
  Schema.add_missing_columns (Schema.columns t) d
  = (Ok tt,
     Schema.mkDb
       (Some (Schema.mkTable
                (Schema.columns t ++ ["role"; "content"; "kind"; "deleted"])
                ((λ r, <["deleted" := Schema.INTEGER 0]> (<["kind" := Schema.TEXT "chat"]>
                   (<["content" := Schema.NULL]> (<["role" := Schema.NULL]> r))))
                 <$> Schema.body t)))
       (Schema.indexes d) (Schema.meta d)).
Proof.
  intros Ht (_ & _ & Hnew).
  rewrite !Forall_cons in Hnew. destruct Hnew as (Hr & Hc & Hk & Hd & _).
  unfold Schema.add_missing_columns, Schema.if_not_in.
  rewrite !bool_decide_eq_false_2 by (by apply not_has_name).
  unfold mbind, Schema.stmt_bind.
  rewrite (add_column_ok "role" _ d t Ht Hr).
  erewrite add_column_ok; [|reflexivity|].
  2:{ cbn [Schema.columns]. rewrite has_name_app, Hc. reflexivity. }
  erewrite add_column_ok; [|reflexivity|].
  2:{ cbn [Schema.columns]. rewrite !has_name_app, Hk. reflexivity. }
  erewrite add_column_ok; [|reflexivity|].
  2:{ cbn [Schema.columns]. rewrite !has_name_app, Hd. reflexivity. }
  cbn [Schema.columns Schema.body Schema.indexes Schema.meta].
  rewrite <-!list_fmap_compose, <-!app_assoc. reflexivity.
Qed.

(** The guards of the migration on a legacy table. *)
Lemma migrate_legacy_steps d t :
  Schema.conversations d = Some t → legacy_layout (Schema.columns t) →
  Schema._attempt_migrate_legacy_schema d
  = (Schema.add_missing_columns (Schema.columns t) ;; Schema.back_fill) d.
Proof.
  intros Ht Hl. unfold Schema._attempt_migrate_legacy_schema, Schema._table_columns.
  rewrite Ht. pose proof Hl as (Hmsg & Hctx & Hnew).
  rewrite !Forall_cons in Hnew. destruct Hnew as (Hr & Hc & Hk & Hd & _).
  rewrite bool_decide_eq_false_2
    by (intros Hnil; rewrite Hnil in Hmsg; by apply elem_of_nil in Hmsg).
  rewrite (bool_decide_eq_false_2 ("content" ∈ _)) by (by apply not_has_name).
  rewrite (bool_decide_eq_true_2 ("message" ∈ _)) by done.
  by rewrite (bool_decide_eq_true_2 ("context" ∈ _)).
Qed.

(** With the table [meta] in place, the migration of a legacy table ends
    well and turns every row into its migrated form. *)
Lemma migrate_legacy_ok d t m :
  Schema.conversations d = Some t → Schema.meta d = Some m →
  legacy_layout (Schema.columns t) →
  ∃ d' t',
    Schema._attempt_migrate_legacy_schema d = (Ok tt, d') ∧
    Schema.conversations d' = Some t' ∧
    Schema.columns t' = Schema.columns t ++ ["role"; "content"; "kind"; "deleted"] ∧
    Schema.body t' = migrated_row <$> Schema.body t.
Proof.
  intros Ht Hm Hl. rewrite (migrate_legacy_steps d t Ht Hl).
  unfold mbind, Schema.stmt_bind.
  rewrite (add_missing_columns_legacy d t Ht Hl).
  unfold Schema.back_fill. cbn [Schema.meta]. rewrite Hm.
  eexists _, _. split; [done|]. split; [done|]. split; [done|].
  cbn [Schema.body Schema.on_rows]. rewrite <-list_fmap_compose. done.
Qed.

(** A remembered legacy row in its migrated form. *)
Lemma migrated_row_remembered r :
  Schema.cell r "context" = Schema.TEXT "remembered" →
  Schema.cell (migrated_row r) "content" = Schema.text_affinity (Schema.cell r "message") ∧
  Schema.cell (migrated_row r) "role" = Schema.TEXT "user" ∧
  Schema.cell (migrated_row r) "kind" = Schema.TEXT "remembered" ∧
  Schema.cell (migrated_row r) "deleted" = Schema.INTEGER 0.
Proof.
  intros Hctx. unfold migrated_row.
  set (r1 := <["deleted":=_]> _).
  assert (Schema.cell r1 "content" = Schema.NULL) as Hc1 by (unfold Schema.cell, r1; by simplify_map_eq).
  assert (Schema.cell r1 "message" = Schema.cell r "message") as Hm1
    by (unfold Schema.cell, r1; by simplify_map_eq).
  unfold Schema.fill_content. rewrite Hc1, Hm1. simpl Schema.coalesce.
  set (r2 := <["content":=_]> r1).
  assert (Schema.cell r2 "role" = Schema.NULL) as Hr2 by (unfold Schema.cell, r2, r1; by simplify_map_eq).
  assert (Schema.cell r2 "context" = Schema.TEXT "remembered") as Hx2.
  { rewrite <-Hctx. unfold Schema.cell, r2, r1. by simplify_map_eq. }
  unfold Schema.fill_role. rewrite Hr2, Hx2. simpl.
  set (r3 := <["role":=_]> r2).
  assert (Schema.cell r3 "context" = Schema.TEXT "remembered") as Hx3.
  { rewrite <-Hx2. unfold Schema.cell, r3. by simplify_map_eq. }
  unfold Schema.fill_kind. rewrite Hx3. simpl.
  unfold Schema.cell, r3, r2, r1. by simplify_map_eq.
Qed.

(** The constructor reaches the migration only through [_init_database],
    and that raises on a table without a content column that has not been
    indexed yet: the table is left as it was. *)
Lemma init_refuses_legacy d t :
  Schema.conversations d = Some t →
  Schema.has_name (Schema.columns t) "content" = false →
  Schema.has_name (Schema.indexes d) "idx_conv_content" = false →
  ∃ e d', Schema.__init__ d = (Raise e, d') ∧
          Schema.conversations d' = Some t ∧ Schema.meta d' = Schema.meta d.
Proof.
  intros Ht Hc Hi.
  unfold Schema.__init__, Schema._init_database, mbind, Schema.stmt_bind, Schema.exec.
  unfold Schema.create_conversations. rewrite Ht.
  assert (∀ name on d0, Schema.conversations d0 = Some t →
            Schema.has_name (Schema.indexes d0) "idx_conv_content" = false →
            Schema.same_name "idx_conv_content" name = false →
            (∃ e, Schema.create_index name on d0 = (Raise e, d0)) ∨
            (∃ d1, Schema.create_index name on d0 = (Ok tt, d1) ∧
                   Schema.conversations d1 = Some t ∧ Schema.meta d1 = Schema.meta d0 ∧
                   Schema.has_name (Schema.indexes d1) "idx_conv_content" = false)) as Hstep.
  { intros name on d0 Ht0 Hi0 Hname. unfold Schema.create_index.
    destruct (Schema.has_name (Schema.indexes d0) name); [right; by exists d0|].
    rewrite Ht0. destruct (forallb _ on); [right|left; by eexists].
    eexists. split; [done|]. simpl. split; [done|]. split; [done|].
    rewrite has_name_app, Hi0. simpl. by rewrite Hname. }
  destruct (Hstep "idx_conv_user_time" ["user_id"; "id"] d Ht Hi) as [[e ->]|(d1 & -> & Ht1 & Hm1 & Hi1)];
    [done|by exists e, d|].
  destruct (Hstep "idx_conv_user_deleted" ["user_id"; "deleted"] d1 Ht1 Hi1)
    as [[e ->]|(d2 & -> & Ht2 & Hm2 & Hi2)]; [done|exists e, d1; by rewrite Hm1|].
  unfold Schema.create_index at 1.
  rewrite Hi2, Ht2. cbn [forallb]. rewrite Hc. cbn [andb].
  eexists _, d2. split; [done|]. split; [done|]. by rewrite Hm2, Hm1.
Qed.

(** C8, at a file in the legacy layout: the constructor raises in
    [_init_database], at the first index over a column the legacy table
    lacks, and leaves the file as it found it, so the migration never runs.
    Called on the file directly, the migration adds the columns, raises at
    the UPDATE of the absent table [meta], and its back-fill is rolled back:
    content and role of the remembered row are NULL. *)
Theorem legacy_file_is_not_migrated :
  Schema.cell Schema.legacy_row "context" = Schema.TEXT "remembered" ∧
  Schema.__init__ Schema.legacy_file
  = (Raise (OperationalError "no such column"), Schema.legacy_file) ∧
  ∃ d' t' r',
    Schema._attempt_migrate_legacy_schema Schema.legacy_file
    = (Raise (OperationalError "no such table: meta"), d') ∧
    Schema.conversations d' = Some t' ∧ Schema.body t' = [r'] ∧
    Schema.cell r' "message" = Schema.TEXT "likes tea" ∧
    Schema.cell r' "content" = Schema.NULL ∧
    Schema.cell r' "role" = Schema.NULL ∧
    Schema.cell r' "kind" = Schema.TEXT "chat".
Proof.
  split; [reflexivity|]. split; [vm_compute; reflexivity|].
  eexists _, _, _. split; [vm_compute; reflexivity|].
  split; [reflexivity|]. split; [reflexivity|].
  repeat split; vm_compute; reflexivity.
Qed.

(** The same file with the table [meta] already in it: called directly, the
    migration gives the remembered row the shape the current layout has. *)
Lemma legacy_file_with_meta_is_migrated :
  let d := Schema.mkDb (Schema.conversations Schema.legacy_file) []
                       (Some {[ "schema_version" := "1" ]}) in
  ∃ d' t' r',
    Schema._attempt_migrate_legacy_schema d = (Ok tt, d') ∧
    Schema.conversations d' = Some t' ∧ Schema.body t' = [r'] ∧
    Schema.cell r' "content" = Schema.TEXT "likes tea" ∧
    Schema.cell r' "role" = Schema.TEXT "user" ∧
    Schema.cell r' "kind" = Schema.TEXT "remembered" ∧
    Schema.cell r' "deleted" = Schema.INTEGER 0.
Proof.
  intros d.
  destruct (migrate_legacy_ok d _ _ eq_refl eq_refl) as (d' & t' & Hd' & Ht' & _ & Hb').
  { unfold legacy_layout. simpl. repeat split; by_compute. }
  exists d', t', (migrated_row Schema.legacy_row).
  split; [done|]. split; [done|]. split; [done|].
  apply (migrated_row_remembered Schema.legacy_row). reflexivity.
Qed.


(** A blank text: [search] and [forget_keyword] stop before any SQL. *)
Lemma blank_search_forget s user text limit incl kind :
  Py.strip text = "" →
  search s user text limit incl kind = Ok [] ∧ forget_keyword s user text = (0, s).
Proof.
  intros Hblank. unfold search, forget_keyword.
  rewrite or_else_empty, Hblank. done.
Qed.

(** * Further properties of the store *)

(** ** Insert, then look up *)

Lemma insert_by_front {A} (le : A → A → bool) x y l :
  le y x = false → insert_by le y (x :: l) = x :: insert_by le y l.
Proof. intros H. simpl. by rewrite H. Qed.

(** A row newer than all others sorts first. *)
Lemma order_by_id_desc_snoc l x :
  (∀ r, r ∈ l → id r < id x) →
  order_by_id_desc (l ++ [x]) = x :: order_by_id_desc l.
Proof.
  unfold order_by_id_desc, sort_by. rewrite foldr_app. simpl.
  induction l as [|y l IH]; intros Hlt; [done|]. simpl.
  rewrite IH by (intros r Hr; apply Hlt; by right).
  apply insert_by_front. apply Z.leb_gt, Hlt. by left.
Qed.

Lemma select_desc_snoc w n rows q x :
  w x = true → (∀ r, r ∈ rows → id r < id x) → 0 < n →
  select_desc w n (mkStore (rows ++ [x]) q)
  = x :: take (Z.to_nat n - 1) (order_by_id_desc (filter (λ r, w r = true) rows)).
Proof.
  intros Hw Hlt Hn. unfold select_desc. simpl.
  rewrite filter_app, (filter_cons_True (λ r, w r = true)) by done.
  rewrite filter_nil, order_by_id_desc_snoc.
  - destruct (Z.to_nat n) as [|k] eqn:Hk; [lia|]. simpl. by rewrite Nat.sub_0_r.
  - intros r [_ Hr]%list_elem_of_filter. by apply Hlt.
Qed.

Lemma store_message_ok s now user role content kind :
  Py.lower (Py.strip role) ∈ roles →
  Py.lower (Py.strip (Py.or_else kind "chat")) ∈ kinds →
  Py.strip content ≠ "" →
  store_message s now user role content kind
  = (Ok (Z.max (max_rowid (conversations s)) (sqlite_sequence s) + 1),
     mkStore (conversations s
              ++ [mkRow (Z.max (max_rowid (conversations s)) (sqlite_sequence s) + 1)
                        user (Py.lower (Py.strip role)) (Py.strip content)
                        (Py.lower (Py.strip (Py.or_else kind "chat"))) 0 now])
             (Z.max (max_rowid (conversations s)) (sqlite_sequence s) + 1)).
Proof.
  intros Hr Hk Hc%is_empty_false. unfold store_message. rewrite !or_else_empty.
  rewrite !bool_decide_eq_true_2 by done. simpl. by rewrite Hc.
Qed.

Lemma elem_of_kinds k : k ∈ kinds ↔ k = "chat" ∨ k = "remembered".
Proof.
  unfold kinds. rewrite !elem_of_cons, elem_of_nil. tauto.
Qed.

Lemma kind_clause_kinds k : k ∈ kinds → kind_clause (Some k) = Ok (Some k).
Proof. intros [->| ->]%elem_of_kinds; reflexivity. Qed.

(** X1: what [store_message] has just stored is what [get_recent] returns
    first for that user, with or without a filter on the kind stored, and
    with limit 1 it is all that is returned. *)
Theorem store_then_recent (s : store) (now user role content kind : string)
    (limit : Z) (incl : bool) :
  let role' := Py.lower (Py.strip role) in
  let kind' := Py.lower (Py.strip (Py.or_else kind "chat")) in
  let content' := Py.strip content in
  role' ∈ roles → kind' ∈ kinds → content' ≠ "" →
  ∃ i s',
    store_message s now user role content kind = (Ok i, s') ∧
    ∀ k, k = None ∨ k = Some kind' →
      ∃ rest,
        get_recent s' user limit incl k
        = Ok (mkRow i user role' content' kind' 0 now :: rest) ∧
        Z.of_nat (length rest) ≤ Z.max 1 limit - 1 ∧
        (∀ r, r ∈ rest → r ∈ conversations s).
Proof.
  intros role' kind' content' Hr Hk Hc.
  rewrite (store_message_ok s now user role content kind Hr Hk Hc).
  fold role' kind' content'.
  set (i := Z.max (max_rowid (conversations s)) (sqlite_sequence s) + 1).
  exists i, (mkStore (conversations s ++ [mkRow i user role' content' kind' 0 now]) i).
  split; [done|]. intros k Hcase.
  assert (∃ k', kind_clause k = Ok k' ∧ (k' = None ∨ k' = Some kind')) as (k' & Hk' & Hk'').
  { destruct Hcase as [->| ->]; [by exists None; auto|].
    exists (Some kind'). split; [by apply kind_clause_kinds|by right]. }
  unfold get_recent. rewrite Hk'. simpl.
  rewrite select_desc_snoc.
  - eexists. split; [done|]. split.
    + rewrite length_take. lia.
    + intros r Hin%subseteq_take. unfold order_by_id_desc in Hin.
      rewrite elem_of_sort_by in Hin. by apply list_elem_of_filter in Hin as [_ ?].
  - unfold recent_where. simpl. rewrite bool_decide_eq_true_2 by done.
    rewrite orb_true_r. simpl.
    destruct Hk'' as [->| ->]; [done|]. by apply bool_decide_eq_true_2.
  - intros r Hin%max_rowid_ge. simpl. lia.
  - lia.
Qed.

Lemma store_then_recent_witness :
  ∃ rest,
    get_recent (store_message two_users "2026-02-02 08:00:00" "Ann" " USER " " tea at five " "").2
               "Ann" 1 false None
    = Ok (mkRow 4 "Ann" "user" "tea at five" "chat" 0 "2026-02-02 08:00:00" :: rest) ∧
    rest = [].
Proof.
  destruct (store_then_recent two_users "2026-02-02 08:00:00" "Ann" " USER " " tea at five " "" 1 false)
    as (i & s' & Hs & H); [by_compute|by_compute|discriminate|].
  destruct (H None (or_introl eq_refl)) as (rest & Hrest & Hlen & _).
  exists rest. rewrite Hs in *. vm_compute in Hs. injection Hs as <- <-.
  split; [exact Hrest|]. destruct rest; [done|simpl in Hlen; lia].
Defined.

Lemma append_nil_r s : s +:+ "" = s.
Proof. induction s as [|c s IH]; [done|]. rewrite append_cons. f_equal. exact IH. Qed.

(** A text matches the pattern built from it, whatever was trimmed. *)
Lemma like_own_pattern q : Sql.like (Py.strip q) ("%" +:+ Py.strip q +:+ "%") = true.
Proof.
  unfold Sql.like. change ("%" +:+ ?x) with (String Sql.percent x).
  apply like_pat_percent_here.
  rewrite <-(append_nil_r (Py.strip q)) at 2.
  by apply like_pat_nocase.
Qed.

(** A row just stored passes the WHERE clause of a search whose pattern
    matches its content. *)
Lemma search_where_fresh user pat incl i r c k now :
  Sql.like c pat = true →
  search_where user pat incl None (mkRow i user r c k 0 now) = true.
Proof.
  intros Hl. unfold search_where. cbn [user_id content deleted].
  rewrite bool_decide_eq_true_2 by done. rewrite Hl, orb_true_r. done.
Qed.

(** X2: what [remember] has just stored is what [search] for the same text
    returns first for that user. *)
Theorem remember_then_search (s : store) (now user content : string)
    (limit : Z) (incl : bool) :
  Py.strip content ≠ "" →
  ∃ i s' rest,
    remember s now user content = (Ok i, s') ∧
    search s' user content limit incl None
    = Ok (mkRow i user "user" (Py.strip content) "remembered" 0 now :: rest) ∧
    (∀ r, r ∈ rest → r ∈ conversations s).
Proof.
  intros Hc. unfold remember.
  rewrite (store_message_ok s now user "user" content "remembered");
    [|by_compute|by_compute|done].
  eexists _, _, _. split; [reflexivity|].
  rewrite search_nonblank by done. simpl.
  rewrite select_desc_snoc.
  - split; [reflexivity|].
    intros r Hin%subseteq_take. unfold order_by_id_desc in Hin.
    rewrite elem_of_sort_by in Hin. by apply list_elem_of_filter in Hin as [_ ?].
  - apply search_where_fresh, like_own_pattern.
  - intros r Hin%max_rowid_ge. simpl. lia.
  - lia.
Qed.

Lemma remember_then_search_witness :
  ∃ rest,
    search (remember two_users "2026-02-02 08:00:00" "Ann" " tea at five ").2
           "Ann" " tea at five " 20 false None
    = Ok (mkRow 4 "Ann" "user" "tea at five" "remembered" 0 "2026-02-02 08:00:00" :: rest).
Proof.
  destruct (remember_then_search two_users "2026-02-02 08:00:00" "Ann" " tea at five " 20 false)
    as (i & s' & rest & Hs & H & _); [discriminate|].
  exists rest. rewrite Hs. vm_compute in Hs. injection Hs as <- <-. exact H.
Defined.

(** ** Forgetting *)

Lemma select_desc_nil w n s :
  (∀ r, r ∈ conversations s → w r = false) → select_desc w n s = [].
Proof.
  intros Hnone. unfold select_desc.
  assert (filter (λ r, w r = true) (conversations s) = []) as ->;
    [|by destruct (Z.to_nat n)].
  induction (conversations s) as [|r l IH]; [done|].
  rewrite filter_cons_False by (rewrite Hnone; [done|by left]).
  apply IH. intros x Hx. apply Hnone. by right.
Qed.

(** After the UPDATE no row satisfies its WHERE clause any more. *)
Lemma update_deleted_spent w s r :
  (∀ r, w r = true → deleted r = 0) →
  r ∈ conversations (update_deleted w s).2 → deleted r = 0 →
  r ∈ conversations s ∧ w r = false.
Proof.
  intros Hlive. rewrite update_deleted_rows.
  intros (x & -> & Hx)%list_elem_of_fmap.
  destruct (w x) eqn:Hw; simpl; [discriminate|done].
Qed.

(** X3: [forget_keyword] hides what it matched: a search for the same
    text and user that leaves the soft-deleted rows out returns nothing. *)
Theorem forget_then_search (s : store) (user keyword : string) (limit : Z)
    (kind : option string) (l : list MemoryRow) :
  search (forget_keyword s user keyword).2 user keyword limit false kind = Ok l →
  l = [].
Proof.
  destruct (decide (Py.strip keyword = "")) as [Hblank|Hkw].
  - rewrite (proj1 (blank_search_forget _ user keyword limit false kind Hblank)).
    by intros [= <-].
  - rewrite search_nonblank, forget_keyword_nonblank by done.
    destruct (kind_clause kind) as [k|e]; [|done]. simpl. intros [= <-].
    apply select_desc_nil. intros r Hr.
    destruct (search_where _ _ false k r) eqn:Hw; [exfalso|done].
    unfold search_where in Hw. rewrite !andb_true_iff in Hw.
    destruct Hw as [[[Hu Hl] Hd] _]. simpl in Hd.
    apply Z.eqb_eq in Hd.
    apply update_deleted_spent in Hr as [_ Hnot];
      [|apply forget_keyword_where_live|done].
    unfold forget_keyword_where in Hnot.
    by rewrite Hu, Hl, (proj2 (Z.eqb_eq _ _) Hd) in Hnot.
Qed.

Lemma forget_then_search_witness :
  search (forget_keyword two_users "JD" "coffee").2 "JD" "coffee" 20 false None = Ok [].
Proof.
  assert (∃ l, search (forget_keyword two_users "JD" "coffee").2 "JD" "coffee" 20 false None
               = Ok l) as [l Hl] by (eexists; vm_compute; reflexivity).
  rewrite Hl. f_equal. exact (forget_then_search two_users "JD" "coffee" 20 None l Hl).
Defined.

Lemma update_deleted_twice w s :
  (∀ r, w r = true → deleted r = 0) →
  update_deleted w (update_deleted w s).2 = (0, (update_deleted w s).2).
Proof.
  intros Hlive. apply update_deleted_none. intros r Hr.
  destruct (w r) eqn:Hw; [exfalso|done].
  apply update_deleted_spent in Hr as [_ Hnot]; [congruence|done|by apply Hlive].
Qed.

(** X4: forgetting twice is forgetting once: a second [forget_keyword],
    [forget_id] or [clear_user] with the same arguments returns 0 and leaves
    the store as the first call left it. *)
Theorem forget_is_idempotent (s : store) (user keyword : string) (row_id : Z) :
  forget_keyword (forget_keyword s user keyword).2 user keyword
  = (0, (forget_keyword s user keyword).2) ∧
  forget_id (forget_id s user row_id).2 user row_id
  = (0, (forget_id s user row_id).2) ∧
  clear_user (clear_user s user).2 user = (0, (clear_user s user).2).
Proof.
  split; [|split].
  - destruct (decide (Py.strip keyword = "")) as [Hblank|Hkw].
    + by rewrite !(proj2 (blank_search_forget _ user keyword 0 false None Hblank)).
    + rewrite (forget_keyword_nonblank s) by done.
      rewrite forget_keyword_nonblank by done.
      apply update_deleted_twice, forget_keyword_where_live.
  - apply update_deleted_twice, forget_id_where_live.
  - apply update_deleted_twice, clear_user_where_live.
Qed.

(** ** Updates that keep what a query looks at *)

Lemma filter_fmap_commute {A} (w : A → bool) (f : A → A) (l : list A) :
  (∀ r, w (f r) = w r) →
  filter (λ r, w r = true) (f <$> l) = f <$> filter (λ r, w r = true) l.
Proof.
  intros Hw. induction l as [|x l IH]; [done|]. rewrite fmap_cons.
  destruct (w x) eqn:Hx.
  - rewrite !filter_cons_True by (by rewrite ?Hw). by rewrite IH.
  - rewrite !filter_cons_False by (rewrite ?Hw; congruence). done.
Qed.

Lemma insert_by_fmap {A} (le : A → A → bool) (f : A → A) x (l : list A) :
  (∀ a b, le (f a) (f b) = le a b) →
  insert_by le (f x) (f <$> l) = f <$> insert_by le x l.
Proof.
  intros Hle. induction l as [|y l IH]; [done|].
  rewrite fmap_cons. cbn [insert_by]. rewrite Hle.
  destruct (le x y); [done|]. by rewrite fmap_cons, IH.
Qed.

Lemma sort_by_fmap {A} (le : A → A → bool) (f : A → A) (l : list A) :
  (∀ a b, le (f a) (f b) = le a b) →
  sort_by le (f <$> l) = f <$> sort_by le l.
Proof.
  intros Hle. induction l as [|x l IH]; [done|].
  rewrite fmap_cons. unfold sort_by in *. cbn [foldr].
  rewrite IH. by apply insert_by_fmap.
Qed.

(** A query whose WHERE clause and order an update leaves alone returns the
    updated rows, in the same order. *)
Lemma select_desc_fmap w n (f : MemoryRow → MemoryRow) rows q :
  (∀ r, w (f r) = w r) → (∀ r, id (f r) = id r) →
  select_desc w n (mkStore (f <$> rows) q) = f <$> select_desc w n (mkStore rows q).
Proof.
  intros Hw Hid. unfold select_desc. simpl.
  rewrite filter_fmap_commute by done.
  unfold order_by_id_desc. rewrite sort_by_fmap by (intros a b; by rewrite !Hid).
  by rewrite fmap_take.
Qed.

Lemma select_desc_store w n s :
  select_desc w n s = select_desc w n (mkStore (conversations s) (sqlite_sequence s)).
Proof. by destruct s. Qed.

(** An UPDATE that touches no row a query selects does not change what the
    query returns. *)
Lemma select_desc_update (w : MemoryRow → bool) n (v : MemoryRow → bool) s :
  (∀ r, w (if v r then set_deleted r else r) = w r) →
  (∀ r, w r = true → v r = false) →
  select_desc w n (update_deleted v s).2 = select_desc w n s.
Proof.
  intros Hw Hv. rewrite (select_desc_store w n s).
  transitivity (select_desc w n
                  (mkStore ((λ r, if v r then set_deleted r else r) <$> conversations s)
                           (sqlite_sequence s))); [reflexivity|].
  rewrite select_desc_fmap; [|done|intros r; by destruct (v r)].
  rewrite <-(list_fmap_id (select_desc w n _)) at 2.
  apply list_fmap_ext. intros i r Hr%list_elem_of_lookup_2.
  apply elem_of_select_desc in Hr as [_ Hr]. simpl. by rewrite (Hv r Hr).
Qed.

Lemma select_desc_append_other w n rows q x :
  w x = false →
  select_desc w n (mkStore (rows ++ [x]) q) = select_desc w n (mkStore rows q).
Proof.
  intros Hx. unfold select_desc. simpl.
  rewrite filter_app, (filter_cons_False (λ r, w r = true)) by (by rewrite Hx).
  by rewrite filter_nil, app_nil_r.
Qed.

Lemma set_deleted_user r : user_id (set_deleted r) = user_id r.
Proof. done. Qed.

Lemma recent_where_user user incl k r : recent_where user incl k r = true → user_id r = user.
Proof. intros H%recent_where_spec. by destruct H. Qed.

Lemma search_where_user user pat incl k r : search_where user pat incl k r = true → user_id r = user.
Proof.
  unfold search_where. rewrite !andb_true_iff, bool_decide_eq_true. tauto.
Qed.

(** ** Namespaces *)

Section isolation.
Context (w : MemoryRow → bool) (user : string).
Hypothesis w_user : ∀ r, w r = true → user_id r = user.

Lemma w_other r : user_id r ≠ user → w r = false.
Proof. intros Hne. destruct (w r) eqn:Hw; [|done]. by apply w_user in Hw. Qed.

Lemma select_desc_store_other n s now other role content kind :
  other ≠ user →
  select_desc w n (store_message s now other role content kind).2 = select_desc w n s.
Proof.
  intros Hne. unfold store_message.
  repeat match goal with
  | |- context [if ?b then _ else _] => destruct b; simpl; [done|]
  end.
  rewrite select_desc_append_other; [by destruct s|].
  by apply w_other.
Qed.

Lemma select_desc_update_other n v s :
  (∀ r, v r = true → user_id r ≠ user) →
  select_desc w n (update_deleted v s).2 = select_desc w n s.
Proof.
  intros Hv. apply select_desc_update.
  - intros r. destruct (v r) eqn:Hvr; [|done].
    rewrite !w_other; [done|by apply Hv|rewrite set_deleted_user; by apply Hv].
  - intros r Hw. destruct (v r) eqn:Hvr; [|done].
    apply Hv in Hvr. by apply w_user in Hw.
Qed.

Lemma select_desc_after_other n c s :
  caller c ≠ Some user → select_desc w n (after c s) = select_desc w n s.
Proof.
  intros Hc. destruct c; unfold after, caller in *; try done.
  - apply select_desc_store_other. congruence.
  - apply select_desc_store_other. congruence.
  - unfold forget_keyword. destruct (Py.is_empty _); [done|].
    apply select_desc_update_other. intros r. unfold forget_keyword_where.
    rewrite !andb_true_iff, bool_decide_eq_true. intros [[-> _] _]. congruence.
  - apply select_desc_update_other. intros r Hr%forget_id_where_spec.
    destruct Hr as [-> _]. congruence.
  - apply select_desc_update_other. intros r. unfold clear_user_where.
    rewrite !andb_true_iff, bool_decide_eq_true. intros [-> _]. congruence.
Qed.
End isolation.

(** X6: namespaces are isolated: a call made for one user, whatever it is
    and whether it succeeds or raises, does not change what [get_recent] and
    [search] return for another user. *)
Theorem other_users_calls_are_invisible (c : call) (s : store) (user : string) :
  caller c ≠ Some user →
  (∀ limit incl kind,
     get_recent (after c s) user limit incl kind = get_recent s user limit incl kind) ∧
  (∀ query limit incl kind,
     search (after c s) user query limit incl kind = search s user query limit incl kind).
Proof.
  intros Hc. split.
  - intros limit incl kind. unfold get_recent.
    destruct (kind_clause kind) as [k|e]; [|done]. simpl. f_equal.
    apply select_desc_after_other with (user := user); [|done].
    apply recent_where_user.
  - intros query limit incl kind. unfold search.
    destruct (Py.is_empty _); [done|].
    destruct (kind_clause kind) as [k|e]; [|done]. simpl. f_equal.
    apply select_desc_after_other with (user := user); [|done].
    apply search_where_user.
Qed.

Lemma other_users_calls_are_invisible_witness :
  get_recent (after (CallClearUser "Ann") two_users) "JD" 20 false None
  = get_recent two_users "JD" 20 false None.
Proof.
  destruct (other_users_calls_are_invisible (CallClearUser "Ann") two_users "JD") as [H _];
    [discriminate|apply H].
Defined.

(** ** [clear_user] *)

Lemma clear_user_where_spec user r :
  clear_user_where user r = true ↔ user_id r = user ∧ deleted r = 0.
Proof.
  unfold clear_user_where. rewrite andb_true_iff, bool_decide_eq_true, Z.eqb_eq. done.
Qed.

(** X5: [clear_user] returns the number of rows of the user that were not
    deleted yet; after it [get_recent] and [search] without the deleted rows
    return nothing for the user, [get_recent] with them returns the rows it
    returned before, each now marked deleted, and the rows of other users are
    as they were. *)
Theorem clear_user_spec (s : store) (user : string) :
  (clear_user s user).1
  = Z.of_nat (length (filter (λ r, user_id r = user ∧ deleted r = 0) (conversations s))) ∧
  (∀ limit kind l,
     get_recent (clear_user s user).2 user limit false kind = Ok l → l = []) ∧
  (∀ query limit kind l,
     search (clear_user s user).2 user query limit false kind = Ok l → l = []) ∧
  (∀ limit kind l,
     get_recent s user limit true kind = Ok l →
     get_recent (clear_user s user).2 user limit true kind
     = Ok ((λ r, if deleted r =? 0 then set_deleted r else r) <$> l)) ∧
  (∀ i r, conversations s !! i = Some r → user_id r ≠ user →
          conversations (clear_user s user).2 !! i = Some r).
Proof.
  assert (∀ r, r ∈ conversations (clear_user s user).2 →
               user_id r = user → deleted r ≠ 0) as Hgone.
  { intros r Hr Hu Hd.
    apply update_deleted_spent in Hr as [_ Hnot]; [|apply clear_user_where_live|done].
    unfold clear_user_where in Hnot.
    by rewrite bool_decide_eq_true_2, (proj2 (Z.eqb_eq _ _) Hd) in Hnot. }
  split; [|split; [|split; [|split]]].
  - unfold clear_user. rewrite update_deleted_count. do 2 f_equal.
    apply list_filter_iff. intros r. apply clear_user_where_spec.
  - intros limit kind l. unfold get_recent.
    destruct (kind_clause kind) as [k|e]; [|done]. simpl. intros [= <-].
    apply select_desc_nil. intros r Hr.
    destruct (recent_where user false k r) eqn:Hw; [exfalso|done].
    apply recent_where_spec in Hw as (Hu & Hd & _).
    by apply (Hgone r Hr Hu), Hd.
  - intros query limit kind l. unfold search.
    destruct (Py.is_empty _); [by intros [= <-]|].
    destruct (kind_clause kind) as [k|e]; [|done]. simpl. intros [= <-].
    apply select_desc_nil. intros r Hr.
    destruct (search_where user _ false k r) eqn:Hw; [exfalso|done].
    pose proof (search_where_user _ _ _ _ _ Hw) as Hu.
    unfold search_where in Hw. rewrite !andb_true_iff in Hw.
    destruct Hw as [[_ Hd] _]. simpl in Hd. apply Z.eqb_eq in Hd.
    by apply (Hgone r Hr Hu).
  - intros limit kind l. unfold get_recent.
    destruct (kind_clause kind) as [k|e]; [|done]. simpl. intros [= <-]. f_equal.
    rewrite (select_desc_store _ _ s).
    transitivity (select_desc (recent_where user true k) (Z.max 1 limit)
                    (mkStore ((λ r, if clear_user_where user r then set_deleted r else r)
                                <$> conversations s) (sqlite_sequence s))); [reflexivity|].
    rewrite select_desc_fmap.
    + apply list_fmap_ext. intros i r Hr%list_elem_of_lookup_2.
      apply elem_of_select_desc in Hr as [_ Hr%recent_where_user]. simpl in Hr.
      unfold clear_user_where. by rewrite bool_decide_eq_true_2.
    + intros r. by destruct (clear_user_where user r).
    + intros r. by destruct (clear_user_where user r).
  - intros i r Hi Hu. apply update_deleted_other; [done|].
    destruct (clear_user_where user r) eqn:Hw; [|done].
    apply clear_user_where_spec in Hw. tauto.
Qed.

Lemma clear_user_spec_witness :
  get_recent (clear_user two_users "JD").2 "JD" 20 true None
  = Ok [mkRow 3 "JD" "user" "owns a bike" "remembered" 1 "2026-01-01 00:00:00";
        mkRow 1 "JD" "user" "likes dark roast Coffee" "remembered" 1 "2026-01-01 00:00:00"].
Proof.
  destruct (clear_user_spec two_users "JD") as (_ & _ & _ & H & _).
  rewrite (H 20 None _ eq_refl). reflexivity.
Defined.

(** ** Ids *)

Lemma max_rowid_le (l : list MemoryRow) n :
  0 ≤ n → (∀ r, r ∈ l → id r ≤ n) → max_rowid l ≤ n.
Proof.
  intros Hn. induction l as [|x l IH]; intros Hall; simpl; [done|].
  apply Z.max_lub; [apply Hall; by left|]. apply IH. intros r Hr. apply Hall. by right.
Qed.

Lemma consecutive_ids_next s :
  consecutive_ids s →
  Z.max (max_rowid (conversations s)) (sqlite_sequence s) + 1
  = Z.of_nat (length (conversations s)) + 1.
Proof.
  intros [Hids Hseq]. rewrite Hseq.
  pose proof (max_rowid_le (conversations s) (Z.of_nat (length (conversations s)))) as Hle.
  rewrite Z.max_r; [done|]. apply Hle; [lia|].
  intros r [i Hi]%list_elem_of_lookup. rewrite (Hids i r Hi).
  apply lookup_lt_Some in Hi. lia.
Qed.

Lemma consecutive_ids_store s now user role content kind :
  consecutive_ids s → consecutive_ids (store_message s now user role content kind).2.
Proof.
  intros Hc. pose proof (consecutive_ids_next s Hc) as Hnext.
  unfold store_message.
  repeat match goal with
  | |- context [if ?b then _ else _] => destruct b; simpl; [done|]
  end.
  rewrite Hnext. destruct Hc as [Hids Hseq]. split; simpl.
  - intros i r Hi. apply lookup_app_Some in Hi as [Hi|[Hge Hi]]; [by apply Hids|].
    apply list_lookup_singleton_Some in Hi as [Hi <-]. simpl. lia.
  - rewrite length_app. simpl. lia.
Qed.

Lemma consecutive_ids_update w s :
  consecutive_ids s → consecutive_ids (update_deleted w s).2.
Proof.
  intros [Hids Hseq]. split.
  - intros i r. rewrite update_deleted_rows, list_lookup_fmap.
    destruct (conversations s !! i) as [x|] eqn:Hi; [|done]. simpl.
    intros [= <-]. rewrite <-(Hids i x Hi). by destruct (w x).
  - rewrite update_deleted_rows, length_fmap. exact Hseq.
Qed.

Lemma consecutive_ids_after c s : consecutive_ids s → consecutive_ids (after c s).
Proof.
  intros Hc. destruct c; unfold after; try done.
  - by apply consecutive_ids_store.
  - by apply consecutive_ids_store.
  - unfold forget_keyword. destruct (Py.is_empty _); [done|].
    by apply consecutive_ids_update.
  - by apply consecutive_ids_update.
  - by apply consecutive_ids_update.
Qed.

(** X7: in a store built from an empty table by any run of calls, the rows
    carry the ids 1, 2, 3, ... in the order they were inserted, soft-deleted
    rows included, and the next successful [store_message] returns the number
    of rows plus one: no id is skipped and none is used twice. *)
Theorem ids_are_consecutive (cs : list call) :
  let s := run cs empty_store in
  (∀ i r, conversations s !! i = Some r → id r = Z.of_nat i + 1) ∧
  (∀ now user role content kind i s',
     store_message s now user role content kind = (Ok i, s') →
     i = Z.of_nat (length (conversations s)) + 1 ∧
     length (conversations s') = S (length (conversations s))).
Proof.
  assert (∀ s, consecutive_ids s → consecutive_ids (run cs s)) as Hrun.
  { induction cs as [|c cs IH]; intros s Hs; [done|].
    simpl. by apply IH, consecutive_ids_after. }
  assert (consecutive_ids empty_store) as H0 by (split; [by intros i r ?|done]).
  specialize (Hrun _ H0). intros s. fold s in Hrun.
  split; [apply Hrun|].
  intros now user role content kind i s'. unfold store_message.
  repeat match goal with
  | |- context [if ?b then _ else _] => destruct b; simpl; [done|]
  end.
  rewrite (consecutive_ids_next s Hrun). intros [= <- <-]. simpl.
  split; [done|]. rewrite length_app. simpl. lia.
Qed.

Lemma ids_are_consecutive_witness :
  (store_message (run [CallRemember "t1" "JD" "a"; CallForgetKeyword "JD" "a";
                       CallStoreMessage "t2" "Ann" "user" "b" "chat"] empty_store)
                 "t3" "JD" "assistant" "c" "chat").1 = Ok 3.
Proof.
  destruct (ids_are_consecutive [CallRemember "t1" "JD" "a"; CallForgetKeyword "JD" "a";
                       CallStoreMessage "t2" "Ann" "user" "b" "chat"]) as [_ H].
  destruct (store_message _ "t3" "JD" "assistant" "c" "chat") as [r s'] eqn:Hs.
  assert (∃ i, r = Ok i) as [i ->] by (vm_compute in Hs; injection Hs as <- _; by eexists).
  destruct (H _ _ _ _ _ _ _ Hs) as [-> _]. reflexivity.
Defined.

(** ** [search] against [get_recent] *)

Section sort_filter.
Context {A : Type} (le : A → A → bool) (p : A → bool).
Hypothesis le_total : ∀ a b, le a b = true ∨ le b a = true.
Hypothesis le_trans : ∀ a b c, le a b = true → le b c = true → le a c = true.

Lemma insert_by_least x (l : list A) :
  Forall (λ y, le x y = true) l → insert_by le x l = x :: l.
Proof. destruct 1 as [|y l Hy _]; simpl; [done|]. by rewrite Hy. Qed.

Lemma filter_insert_by x (t : list A) :
  StronglySorted (λ a b, le a b = true) t →
  filter (λ r, p r = true) (insert_by le x t)
  = if p x then insert_by le x (filter (λ r, p r = true) t)
    else filter (λ r, p r = true) t.
Proof.
  induction 1 as [|y t Ht IH Hy]; simpl.
  - destruct (p x) eqn:Hx.
    + by rewrite filter_cons_True.
    + by rewrite filter_cons_False by congruence.
  - destruct (le x y) eqn:Hxy.
    + assert (insert_by le x (filter (λ r, p r = true) (y :: t))
              = x :: filter (λ r, p r = true) (y :: t)) as Hfront.
      { apply insert_by_least. apply Forall_forall.
        intros z [_ Hz]%list_elem_of_filter.
        apply elem_of_cons in Hz as [->|Hz]; [done|].
        rewrite Forall_forall in Hy. eapply le_trans; [exact Hxy|by apply Hy]. }
      destruct (p x) eqn:Hx.
      * by rewrite Hfront, (filter_cons_True _ x).
      * by rewrite (filter_cons_False _ x) by congruence.
    + destruct (p y) eqn:Hpy.
      * rewrite !(filter_cons_True _ y) by done. rewrite IH.
        destruct (p x); [|done]. simpl. by rewrite Hxy.
      * rewrite !(filter_cons_False _ y) by congruence. exact IH.
Qed.

(** Sorting and filtering commute: the sort keeps equal keys in order. *)
Lemma sort_by_filter (l : list A) :
  sort_by le (filter (λ r, p r = true) l) = filter (λ r, p r = true) (sort_by le l).
Proof.
  induction l as [|x l IH]; [done|].
  change (sort_by le (x :: l)) with (insert_by le x (sort_by le l)).
  rewrite filter_insert_by by (by apply sort_by_sorted).
  destruct (p x) eqn:Hx.
  - rewrite filter_cons_True by done.
    change (sort_by le (x :: ?t)) with (insert_by le x (sort_by le t)). by rewrite IH.
  - by rewrite filter_cons_False by congruence.
Qed.
End sort_filter.

Lemma select_desc_search_recent user pat incl k n m s :
  (length (conversations s) ≤ Z.to_nat m)%nat →
  select_desc (search_where user pat incl k) n s
  = take (Z.to_nat n)
         (filter (λ r, Sql.like (content r) pat = true)
                 (select_desc (recent_where user incl k) m s)).
Proof.
  intros Hm. unfold select_desc.
  rewrite (take_ge (order_by_id_desc (filter (λ r, recent_where user incl k r = true) _))).
  - unfold order_by_id_desc.
    rewrite <-(sort_by_filter _ (λ r, Sql.like (content r) pat));
      [|apply id_desc_total|apply id_desc_trans].
    do 2 f_equal. rewrite list_filter_filter. apply list_filter_iff.
    intros r. unfold search_where, recent_where.
    rewrite !andb_true_iff. tauto.
  - unfold order_by_id_desc. rewrite length_sort_by.
    pose proof (length_filter (λ r, recent_where user incl k r = true) (conversations s)).
    lia.
Qed.

(** X9: [search] is [get_recent] narrowed to the matching contents: for a
    text that is not blank it returns, up to its limit, the rows that
    [get_recent] returns for the same user, flags and kind under a limit
    that covers the table and whose content matches the pattern, in the same
    order; and it raises what [get_recent] raises. *)
Theorem search_filters_recent (s : store) (user query : string) (limit : Z)
    (incl : bool) (kind : option string) :
  Py.strip query ≠ "" →
  match get_recent s user (Z.of_nat (length (conversations s))) incl kind with
  | Ok all =>
      search s user query limit incl kind
      = Ok (take (Z.to_nat (Z.max 1 limit))
                 (filter (λ r, Sql.like (content r) ("%" +:+ Py.strip query +:+ "%") = true)
                         all))
  | Raise e => search s user query limit incl kind = Raise e
  end.
Proof.
  intros Hq. rewrite search_nonblank by done. unfold get_recent.
  destruct (kind_clause kind) as [k|e]; [|done].
  cbn [mbind result_bind]. f_equal.
  apply select_desc_search_recent. lia.
Qed.

Lemma search_filters_recent_witness :
  search two_users "JD" "bike" 5 false None
  = Ok (take 5 (filter (λ r, Sql.like (content r) "%bike%" = true)
                       [mkRow 3 "JD" "user" "owns a bike" "remembered" 0 "2026-01-01 00:00:00";
                        mkRow 1 "JD" "user" "likes dark roast Coffee" "remembered" 0
                              "2026-01-01 00:00:00"])).
Proof.
  pose proof (search_filters_recent two_users "JD" "bike" 5 false None) as H.
  apply H. discriminate.
Defined.

(** ** What [build_memory_block] shows *)

(** The two fetches bring live rows of the user only. *)
Lemma elem_of_fetched_live s user n enabled k r :
  r ∈ fetched s user n enabled k →
  enabled = true ∧ r ∈ conversations s ∧ user_id r = user ∧ deleted r = 0 ∧ kind r = k.
Proof.
  unfold fetched. destruct enabled; [|by intros ?%elem_of_nil].
  intros [Hr Hw]%elem_of_select_desc. split; [done|]. split; [done|].
  apply recent_where_spec in Hw as (Hu & Hd & Hk). auto.
Qed.

Lemma build_memory_block_rows s user n ic ir :
  0 < n →
  build_memory_block (Some s) user n ic ir
  = Ok (match fetched s user n ic "chat" ++ fetched s user n ir "remembered" with
        | [] => ""
        | (_ :: _) as rows =>
            Py.strip (Py.join Py.nl (memory_header :: (memory_line <$> memory_selection n rows)))
        end).
Proof.
  intros Hn. unfold build_memory_block.
  rewrite (proj2 (Z.leb_gt n 0)) by lia.
  rewrite memory_candidates_ok. cbn [mbind result_bind].
  by destruct (_ ++ _).
Qed.

(** X8: what [build_memory_block] renders are rows of the asking user that
    are not soft-deleted and whose kind is one that was asked for; right
    after [forget_keyword] no rendered row matches the forgotten text. *)
Theorem memory_block_shows_live_rows (s : store) (user : string) (n : Z) (ic ir : bool) :
  0 < n →
  ∃ rows,
    build_memory_block (Some s) user n ic ir
    = Ok (match rows with
          | [] => ""
          | _ => Py.strip (Py.join Py.nl (memory_header :: (memory_line <$> rows)))
          end) ∧
    (∀ r, r ∈ rows →
       r ∈ conversations s ∧ user_id r = user ∧ deleted r = 0 ∧
       ((ic = true ∧ kind r = "chat") ∨ (ir = true ∧ kind r = "remembered"))) ∧
    (∀ s0 keyword r,
       s = (forget_keyword s0 user keyword).2 → Py.strip keyword ≠ "" →
       r ∈ rows → Sql.like (content r) ("%" +:+ Py.strip keyword +:+ "%") = false).
Proof.
  intros Hn. rewrite build_memory_block_rows by done.
  set (cands := fetched s user n ic "chat" ++ fetched s user n ir "remembered").
  assert (∀ r, r ∈ memory_selection n cands →
       r ∈ conversations s ∧ user_id r = user ∧ deleted r = 0 ∧
       ((ic = true ∧ kind r = "chat") ∨ (ir = true ∧ kind r = "remembered"))) as Hlive.
  { intros r Hr%elem_of_memory_selection. unfold cands in Hr.
    apply elem_of_app in Hr as [Hr|Hr];
      apply elem_of_fetched_live in Hr as (He & Hin & Hu & Hd & Hk); auto 10. }
  exists (memory_selection n cands). split; [|split].
  - destruct cands as [|c cands'] eqn:Hc; [done|].
    destruct (memory_selection n (c :: cands')) eqn:Hsel; [|done].
    pose proof (length_memory_selection n (c :: cands') Hn) as Hlen.
    rewrite Hsel in Hlen. simpl in Hlen. lia.
  - exact Hlive.
  - intros s0 keyword r Hs Hkw Hr. destruct (Hlive r Hr) as (Hin & Hu & Hd & _).
    rewrite Hs, forget_keyword_nonblank in Hin by done.
    apply update_deleted_spent in Hin as [_ Hnot];
      [|apply forget_keyword_where_live|done].
    unfold forget_keyword_where in Hnot.
    rewrite bool_decide_eq_true_2, (proj2 (Z.eqb_eq _ _) Hd) in Hnot by done.
    exact Hnot.
Qed.

Lemma memory_block_shows_live_rows_witness :
  ∃ rows,
    build_memory_block (Some (forget_keyword six_mixed "JD" "bike").2) "JD" 4 true true
    = Ok (match rows with
          | [] => ""
          | _ => Py.strip (Py.join Py.nl (memory_header :: (memory_line <$> rows)))
          end) ∧
    (∀ r, r ∈ rows → Sql.like (content r) "%bike%" = false).
Proof.
  destruct (memory_block_shows_live_rows (forget_keyword six_mixed "JD" "bike").2 "JD" 4 true true)
    as (rows & Hb & _ & Hf); [lia|].
  exists rows. split; [exact Hb|].
  intros r Hr. apply (Hf six_mixed "bike" r); [reflexivity|discriminate|exact Hr].
Defined.

(** A list without repetition that lies inside another and misses one of its
    elements is shorter. *)
Lemma NoDup_strict_length {A} (l k : list A) x :
  NoDup l → (∀ y, y ∈ l → y ∈ k) → x ∈ k → x ∉ l → (length l < length k)%nat.
Proof.
  intros Hnd Hsub Hx Hnot.
  assert (x :: l ⊆+ k) as Hle%submseteq_length.
  { apply NoDup_submseteq; [by apply NoDup_cons|].
    intros y [->|Hy]%elem_of_cons; auto. }
  simpl in Hle. lia.
Qed.

(** X10: remembered items can be crowded out of the block.  When the user
    has N live chat rows that are all newer than every live remembered row,
    [build_memory_block] with [mem_inject] = N and both streams enabled
    renders N rows, all of them chat turns and none a remembered item. *)
Theorem chat_crowds_out_remembered (s : store) (user : string) (n : Z)
    (newest : list MemoryRow) :
  primary_key s → 0 < n →
  NoDup newest → length newest = Z.to_nat n →
  (∀ h, h ∈ newest →
     h ∈ conversations s ∧ user_id h = user ∧ deleted h = 0 ∧ kind h = "chat") →
  (∀ h r, h ∈ newest → r ∈ conversations s → user_id r = user → deleted r = 0 →
     kind r = "remembered" → id r < id h) →
  ∃ rows,
    build_memory_block (Some s) user n true true
    = Ok (Py.strip (Py.join Py.nl (memory_header :: (memory_line <$> rows)))) ∧
    length rows = Z.to_nat n ∧
    (∀ r, r ∈ rows → kind r = "chat").
Proof.
  intros Hpk Hn Hnd Hlen Hchat Hnewer.
  set (F := fetched s user n true "chat").
  set (M := fetched s user n true "remembered").
  assert (∀ h, h ∈ newest → recent_where user false (Some "chat") h = true) as Hw.
  { intros h (_ & Hu & Hd & Hk)%Hchat. apply recent_where_spec.
    split; [done|]. split; [done|]. by intros k' [= <-]. }
  assert (length F = Z.to_nat n) as HlenF.
  { unfold F, fetched. rewrite length_select_desc.
    assert (length newest ≤ length (filter (λ r, recent_where user false (Some "chat") r = true)
                                           (conversations s)))%nat; [|lia].
    apply submseteq_length, NoDup_submseteq; [done|].
    intros h Hh. apply list_elem_of_filter. split; [by apply Hw|by apply Hchat]. }
  assert (NoDup F) as HndF.
  { apply (NoDup_fmap_1 id). by apply fetched_NoDup_ids. }
  assert (∀ f r, f ∈ F → r ∈ M → id r < id f) as Hstep.
  { intros f r Hf Hr.
    apply elem_of_fetched_live in Hr as (_ & Hrin & Hru & Hrd & Hrk).
    destruct (Z.lt_ge_cases (id r) (id f)) as [?|Hge]; [done|exfalso].
    assert (∀ h, h ∈ newest → h ∈ F) as Hsub.
    { intros h Hh. destruct (decide (h ∈ F)) as [?|Hout]; [done|exfalso].
      pose proof (select_desc_newest _ _ s h f (proj1 (Hchat h Hh)) (Hw h Hh) Hout Hf) as Hle.
      pose proof (Hnewer h r Hh Hrin Hru Hrd Hrk). lia. }
    assert (f ∉ newest) as Hfout.
    { intros Hfin. pose proof (Hnewer f r Hfin Hrin Hru Hrd Hrk). lia. }
    pose proof (NoDup_strict_length newest F f Hnd Hsub Hf Hfout). lia. }
  assert (F ≠ []) as HF by (intros HFnil; rewrite HFnil in HlenF; simpl in HlenF; lia).
  rewrite build_memory_block_rows by done. fold F M.
  destruct (F ++ M) as [|c cands'] eqn:Hc; [by destruct F|]. rewrite <-Hc. clear c cands' Hc.
  pose proof (candidates_NoDup_ids s user n true true Hpk) as Hids. fold F M in Hids.
  exists (memory_selection n (F ++ M)). split; [done|].
  assert (∀ r, r ∈ memory_selection n (F ++ M) → kind r = "chat") as Hkind.
  { intros x Hx. pose proof (elem_of_memory_selection n _ x Hx) as Hin.
    apply elem_of_app in Hin as [Hin|Hin].
    { apply elem_of_fetched_live in Hin as (_ & _ & _ & _ & Hk). exact Hk. }
    exfalso.
    assert (∀ f, f ∈ F → f ∈ memory_selection n (F ++ M)) as Hsub.
    { intros f Hf.
      destruct (memory_selection_newest n (F ++ M) Hids f) as [?|Hold];
        [apply elem_of_app; by left|done|].
      pose proof (Hold x Hx). pose proof (Hstep f x Hf Hin). lia. }
    assert (x ∉ F) as Hxout.
    { intros HxF. apply elem_of_fetched_live in HxF as (_ & _ & _ & _ & Hk1).
      apply elem_of_fetched_live in Hin as (_ & _ & _ & _ & Hk2). congruence. }
    pose proof (NoDup_strict_length F _ x HndF Hsub Hx Hxout) as Hlt.
    rewrite length_memory_selection in Hlt by done. lia. }
  split; [|exact Hkind].
  rewrite length_memory_selection, length_app by done. lia.
Qed.

Lemma chat_crowds_out_remembered_witness :
  ∃ rows,
    build_memory_block (Some busy_chat) "JD" 2 true true
    = Ok (Py.strip (Py.join Py.nl (memory_header :: (memory_line <$> rows)))) ∧
    length rows = 2%nat ∧ (∀ r, r ∈ rows → kind r = "chat").
Proof.
  assert (primary_key busy_chat) as Hpk by (unfold primary_key; by_compute).
  apply (chat_crowds_out_remembered busy_chat "JD" 2
           [mkRow 2 "JD" "user" "hello" "chat" 0 "2026-01-01 00:00:00";
            mkRow 3 "JD" "assistant" "hi there" "chat" 0 "2026-01-01 00:00:00"]).
  - exact Hpk.
  - lia.
  - by_compute.
  - reflexivity.
  - intros h Hh. split; [|by repeat (apply elem_of_cons in Hh as [->|Hh]; [done|]);
                            apply elem_of_nil in Hh].
    vm_compute conversations. by right.
  - intros h r Hh. vm_compute conversations. intros Hr _ _ Hk.
    repeat (apply elem_of_cons in Hh as [->|Hh];
            [repeat (apply elem_of_cons in Hr as [->|Hr]; [simpl in *; (lia || discriminate)|]);
             by apply elem_of_nil in Hr|]).
    by apply elem_of_nil in Hh.
Defined.


(** * Further properties of the schema *)

Lemma has_name_mono (l k : list string) n :
  (∀ x, x ∈ l → x ∈ k) → Schema.has_name l n = true → Schema.has_name k n = true.
Proof.
  intros Hsub. unfold Schema.has_name. rewrite !existsb_exists.
  intros (x & Hx & Hn). exists x. split; [|done].
  by apply list_elem_of_In, Hsub, list_elem_of_In.
Qed.

Lemma create_index_skip name on d :
  Schema.has_name (Schema.indexes d) name = true →
  Schema.create_index name on d = (Ok tt, d).
Proof. intros Hin. unfold Schema.create_index. by rewrite Hin. Qed.

(** What [CREATE INDEX IF NOT EXISTS] leaves alone, whether it ends well or
    raises. *)
Lemma create_index_keeps name on d r d' :
  Schema.create_index name on d = (r, d') →
  Schema.conversations d' = Schema.conversations d ∧
  Schema.meta d' = Schema.meta d ∧
  (∀ x, x ∈ Schema.indexes d → x ∈ Schema.indexes d').
Proof.
  unfold Schema.create_index.
  destruct (Schema.has_name (Schema.indexes d) name); [by intros [= <- <-]|].
  destruct (Schema.conversations d) as [t|] eqn:Ht; [|intros [= <- <-]; by rewrite Ht].
  destruct (forallb _ on); intros [= <- <-]; simpl; [|by rewrite Ht].
  split; [done|]. split; [done|]. intros x Hx. apply elem_of_app. by left.
Qed.

Lemma create_index_ok name on d t :
  Schema.conversations d = Some t → Forall (λ c, c ∈ Schema.columns t) on →
  ∃ d', Schema.create_index name on d = (Ok tt, d') ∧
        Schema.has_name (Schema.indexes d') name = true.
Proof.
  intros Ht Hon. unfold Schema.create_index.
  destruct (Schema.has_name (Schema.indexes d) name) eqn:Hin.
  - by exists d.
  - rewrite Ht.
    assert (forallb (Schema.has_name (Schema.columns t)) on = true) as ->.
    { apply forallb_forall. intros c Hc%list_elem_of_In.
      rewrite Forall_forall in Hon. by apply elem_of_has_name, Hon. }
    eexists. split; [done|]. simpl. rewrite has_name_app. simpl.
    by rewrite same_name_refl, orb_true_r.
Qed.

Lemma init_database_steps d :
  Schema._init_database d
  = match Schema.create_index "idx_conv_user_time" ["user_id"; "id"]
            (Schema.create_conversations d) with
    | (Raise e, d1) => (Raise e, d1)
    | (Ok _, d1) =>
        match Schema.create_index "idx_conv_user_deleted" ["user_id"; "deleted"] d1 with
        | (Raise e, d2) => (Raise e, d2)
        | (Ok _, d2) =>
            match Schema.create_index "idx_conv_content" ["content"] d2 with
            | (Raise e, d3) => (Raise e, d3)
            | (Ok _, d3) => (Ok tt, Schema.create_meta d3)
            end
        end
    end.
Proof.
  unfold Schema._init_database, mbind, Schema.stmt_bind, Schema.exec.
  destruct (Schema.create_index "idx_conv_user_time" _ _) as [[[]|e] d1]; [|done].
  destruct (Schema.create_index "idx_conv_user_deleted" _ _) as [[[]|e] d2]; [|done].
  by destruct (Schema.create_index "idx_conv_content" _ _) as [[[]|e] d3].
Qed.

Lemma create_conversations_keeps d t :
  Schema.conversations d = Some t → Schema.create_conversations d = d.
Proof. intros Ht. unfold Schema.create_conversations. by rewrite Ht. Qed.

Lemma create_meta_keeps d m k v :
  Schema.meta d = Some m → m !! k = Some v →
  ∃ m', Schema.meta (Schema.create_meta d) = Some m' ∧ m' !! k = Some v.
Proof.
  intros Hm Hk. unfold Schema.create_meta. rewrite Hm. simpl.
  destruct (m !! "schema_version") eqn:Hv.
  - by exists m.
  - eexists. split; [done|].
    rewrite lookup_insert_ne by (intros <-; congruence). done.
Qed.

(** What [_init_database] finds, it keeps. *)
Lemma init_database_keeps (d : Schema.database) (r : result unit)
    (d' : Schema.database) :
  Schema._init_database d = (r, d') →
  (∀ t, Schema.conversations d = Some t → Schema.conversations d' = Some t) ∧
  (∀ x, x ∈ Schema.indexes d → x ∈ Schema.indexes d') ∧
  (∀ m k v, Schema.meta d = Some m → m !! k = Some v →
            ∃ m', Schema.meta d' = Some m' ∧ m' !! k = Some v).
Proof.
  rewrite init_database_steps.
  assert (Schema.indexes (Schema.create_conversations d) = Schema.indexes d ∧
          Schema.meta (Schema.create_conversations d) = Schema.meta d ∧
          ∀ t, Schema.conversations d = Some t →
               Schema.conversations (Schema.create_conversations d) = Some t) as (Hi0 & Hm0 & Ht0).
  { unfold Schema.create_conversations.
    destruct (Schema.conversations d) eqn:Ht; [by rewrite Ht|done]. }
  destruct (Schema.create_index "idx_conv_user_time" _ _) as [r1 d1] eqn:H1.
  apply create_index_keeps in H1 as (Ht1 & Hm1 & Hi1).
  assert (∀ dk, Schema.conversations dk = Schema.conversations (Schema.create_conversations d) →
                Schema.meta dk = Schema.meta d →
                (∀ x, x ∈ Schema.indexes d → x ∈ Schema.indexes dk) →
    (∀ t, Schema.conversations d = Some t → Schema.conversations dk = Some t) ∧
    (∀ x, x ∈ Schema.indexes d → x ∈ Schema.indexes dk) ∧
    (∀ m k v, Schema.meta d = Some m → m !! k = Some v →
              ∃ m', Schema.meta dk = Some m' ∧ m' !! k = Some v)) as Hsame.
  { intros dk Ht Hm Hi. split; [|split; [done|]].
    - intros t Hdt. rewrite Ht. by apply Ht0.
    - intros m k v Hdm Hk. exists m. by rewrite Hm. }
  destruct r1 as [[]|e1].
  2:{ intros [= <- <-]. apply Hsame; [done|congruence|]. intros x Hx. apply Hi1. by rewrite Hi0. }
  destruct (Schema.create_index "idx_conv_user_deleted" _ _) as [r2 d2] eqn:H2.
  apply create_index_keeps in H2 as (Ht2 & Hm2 & Hi2).
  destruct r2 as [[]|e2].
  2:{ intros [= <- <-]. apply Hsame; [congruence|congruence|].
      intros x Hx. apply Hi2, Hi1. by rewrite Hi0. }
  destruct (Schema.create_index "idx_conv_content" _ _) as [r3 d3] eqn:H3.
  apply create_index_keeps in H3 as (Ht3 & Hm3 & Hi3).
  destruct r3 as [[]|e3].
  2:{ intros [= <- <-]. apply Hsame; [congruence|congruence|].
      intros x Hx. apply Hi3, Hi2, Hi1. by rewrite Hi0. }
  intros [= <- <-]. split; [|split].
  - intros t Hdt. simpl. rewrite Ht3, Ht2, Ht1. by apply Ht0.
  - intros x Hx. simpl. apply Hi3, Hi2, Hi1. by rewrite Hi0.
  - intros m k v Hdm Hk. apply (create_meta_keeps d3 m k v); [congruence|done].
Qed.

(** X11: [_init_database] only adds: whether it ends well or raises, the
    table [conversations] it finds keeps its columns and rows, no index
    disappears, and every entry of [meta] keeps its value, the schema version
    included. *)
Theorem init_database_only_adds (d : Schema.database) (r : result unit)
    (d' : Schema.database) :
  Schema._init_database d = (r, d') →
  (∀ t, Schema.conversations d = Some t → Schema.conversations d' = Some t) ∧
  (∀ x, x ∈ Schema.indexes d → x ∈ Schema.indexes d') ∧
  (∀ m k v, Schema.meta d = Some m → m !! k = Some v →
            ∃ m', Schema.meta d' = Some m' ∧ m' !! k = Some v).
Proof. apply init_database_keeps. Qed.

Lemma init_database_only_adds_witness :
  ∃ d', Schema._init_database Schema.legacy_file
        = (Raise (OperationalError "no such column"), d') ∧
        Schema.conversations d' = Schema.conversations Schema.legacy_file.
Proof.
  eexists. split; [vm_compute; reflexivity|].
  destruct (init_database_only_adds Schema.legacy_file _ _ eq_refl) as (H & _).
  by apply H.
Defined.

(** On an initialised file [__init__] changes nothing. *)
Lemma init_fixpoint d : initialised d → Schema.__init__ d = (Ok tt, d).
Proof.
  intros (t & m & Ht & Hm & [v Hv] & H1 & H2 & H3 & Hc & Hr).
  unfold Schema.__init__, mbind, Schema.stmt_bind.
  rewrite init_database_steps, (create_conversations_keeps d t Ht).
  rewrite !create_index_skip by done.
  assert (Schema.create_meta d = d) as ->.
  { unfold Schema.create_meta. rewrite Hm. simpl. rewrite Hv.
    destruct d; simpl in *. by rewrite Hm. }
  by apply (migrate_current d t).
Qed.

Lemma create_meta_version d :
  ∃ m, Schema.meta (Schema.create_meta d) = Some m ∧ is_Some (m !! "schema_version").
Proof.
  unfold Schema.create_meta. simpl.
  destruct (default ∅ (Schema.meta d) !! "schema_version") eqn:Hv.
  - eexists. split; [done|]. by rewrite Hv.
  - eexists. split; [done|]. rewrite lookup_insert_eq. by eexists.
Qed.

(** X12: on a file without the table, or whose table has the columns the
    indexes and the migration name, [__init__] ends well, leaves an existing
    table as it is, creates an empty one in the current layout otherwise, and
    a second [__init__] changes nothing: opening the store at every start is
    safe. *)
Theorem init_is_idempotent (d : Schema.database) :
  indexable d →
  ∃ d',
    Schema.__init__ d = (Ok tt, d') ∧
    Schema.__init__ d' = (Ok tt, d') ∧
    Schema.conversations d'
    = Some (default (Schema.mkTable Schema.current_columns []) (Schema.conversations d)) ∧
    (∀ x, x ∈ Schema.indexes d → x ∈ Schema.indexes d') ∧
    (∀ m k v, Schema.meta d = Some m → m !! k = Some v →
              ∃ m', Schema.meta d' = Some m' ∧ m' !! k = Some v).
Proof.
  intros Hidx.
  set (t := default (Schema.mkTable Schema.current_columns []) (Schema.conversations d)).
  assert (Schema.conversations (Schema.create_conversations d) = Some t) as Ht0.
  { unfold t, Schema.create_conversations. by destruct (Schema.conversations d) eqn:Ht. }
  assert (Forall (λ c, c ∈ Schema.columns t) ["id"; "user_id"; "deleted"; "content"; "role"])
    as Hcols.
  { unfold t, indexable in *. destruct (Schema.conversations d); [done|].
    simpl. repeat constructor; by_compute. }
  rewrite !Forall_cons in Hcols. destruct Hcols as (Hid & Hu & Hd & Hc & Hr & _).
  destruct (Schema._init_database d) as [r d1] eqn:Hinit.
  pose proof (init_database_keeps d r d1 Hinit) as (_ & Hkeep_i & Hkeep_m).
  rewrite init_database_steps in Hinit.
  destruct (create_index_ok "idx_conv_user_time" ["user_id"; "id"] _ t Ht0)
    as (da & Ha & Hia); [by repeat constructor|].
  pose proof (create_index_keeps _ _ _ _ _ Ha) as (Hta & Hma & Hka).
  rewrite Ha in Hinit.
  destruct (create_index_ok "idx_conv_user_deleted" ["user_id"; "deleted"] da t)
    as (db & Hb & Hib); [congruence|by repeat constructor|].
  pose proof (create_index_keeps _ _ _ _ _ Hb) as (Htb & Hmb & Hkb).
  rewrite Hb in Hinit.
  destruct (create_index_ok "idx_conv_content" ["content"] db t)
    as (dc & Hcc & Hic); [congruence|by repeat constructor|].
  pose proof (create_index_keeps _ _ _ _ _ Hcc) as (Htc & Hmc & Hkc).
  rewrite Hcc in Hinit. injection Hinit as <- <-.
  assert (initialised (Schema.create_meta dc)) as Hdone.
  { destruct (create_meta_version dc) as (m & Hm & Hv).
    exists t, m. simpl. split; [congruence|]. split; [done|]. split; [done|].
    split; [apply (has_name_mono (Schema.indexes da)); [auto|done]|].
    split; [apply (has_name_mono (Schema.indexes db)); [auto|done]|].
    auto. }
  exists (Schema.create_meta dc).
  assert (Schema.__init__ d = (Ok tt, Schema.create_meta dc)) as Hrun.
  { unfold Schema.__init__, mbind, Schema.stmt_bind.
    rewrite init_database_steps, Ha, Hb, Hcc.
    apply (migrate_current _ t); [simpl; congruence|done|done]. }
  split; [exact Hrun|]. split; [by apply init_fixpoint|].
  split; [simpl; congruence|]. split; [exact Hkeep_i|exact Hkeep_m].
Qed.

Lemma init_is_idempotent_witness :
  ∃ d', Schema.__init__ (Schema.mkDb None [] None) = (Ok tt, d') ∧
        Schema.__init__ d' = (Ok tt, d') ∧
        Schema.conversations d' = Some (Schema.mkTable Schema.current_columns []).
Proof.
  destruct (init_is_idempotent (Schema.mkDb None [] None)) as (d' & H1 & H2 & H3 & _);
    [exact I|].
  exists d'. auto.
Defined.

(** ** The migration, row by row *)

Lemma fill_content_other (r : gmap string Schema.value) c :
  c ≠ "content" → Schema.fill_content r !! c = r !! c.
Proof.
  intros Hc. unfold Schema.fill_content.
  destruct (Schema.cell r "content"); [|done..]. by apply lookup_insert_ne.
Qed.

Lemma fill_role_other (r : gmap string Schema.value) c :
  c ≠ "role" → Schema.fill_role r !! c = r !! c.
Proof.
  intros Hc. unfold Schema.fill_role.
  destruct (Schema.cell r "role"); [|done..]. by apply lookup_insert_ne.
Qed.

Lemma fill_kind_other (r : gmap string Schema.value) c :
  c ≠ "kind" → Schema.fill_kind r !! c = r !! c.
Proof. intros Hc. unfold Schema.fill_kind. by apply lookup_insert_ne. Qed.

Lemma migrated_row_other r c :
  c ∉ ["role"; "content"; "kind"; "deleted"] → migrated_row r !! c = r !! c.
Proof.
  intros Hc.
  assert (c ≠ "role" ∧ c ≠ "content" ∧ c ≠ "kind" ∧ c ≠ "deleted") as (H1 & H2 & H3 & H4).
  { repeat split; intros ->; apply Hc; by_compute. }
  unfold migrated_row.
  rewrite fill_kind_other, fill_role_other, fill_content_other by done.
  by rewrite !lookup_insert_ne.
Qed.

Lemma migrated_row_cells r :
  Schema.cell (migrated_row r) "content" = Schema.text_affinity (Schema.cell r "message") ∧
  Schema.cell (migrated_row r) "deleted" = Schema.INTEGER 0 ∧
  (∀ x, Schema.cell r "context" = Schema.TEXT x →
     Schema.cell (migrated_row r) "role"
     = Schema.TEXT (if bool_decide (Sql.lower x ∈ roles) then Sql.lower x else "user") ∧
     Schema.cell (migrated_row r) "kind"
     = Schema.TEXT (if bool_decide (Sql.lower x ∈ ["remembered"; "memory"; "note"])
                    then "remembered" else "chat")) ∧
  (Schema.cell r "context" = Schema.NULL →
     Schema.cell (migrated_row r) "role" = Schema.TEXT "user" ∧
     Schema.cell (migrated_row r) "kind" = Schema.TEXT "chat").
Proof.
  unfold migrated_row.
  set (r1 := <["deleted":=_]> _).
  assert (Schema.cell r1 "content" = Schema.NULL) as Hc1
    by (unfold Schema.cell, r1; by simplify_map_eq).
  assert (Schema.cell r1 "message" = Schema.cell r "message") as Hm1
    by (unfold Schema.cell, r1; by simplify_map_eq).
  unfold Schema.fill_content. rewrite Hc1, Hm1. simpl Schema.coalesce.
  set (r2 := <["content":=_]> r1).
  assert (Schema.cell r2 "role" = Schema.NULL) as Hr2
    by (unfold Schema.cell, r2, r1; by simplify_map_eq).
  assert (Schema.cell r2 "context" = Schema.cell r "context") as Hx2
    by (unfold Schema.cell, r2, r1; by simplify_map_eq).
  unfold Schema.fill_role. rewrite Hr2, Hx2.
  set (r3 := <["role":=_]> r2).
  assert (Schema.cell r3 "context" = Schema.cell r "context") as Hx3.
  { rewrite <-Hx2. unfold Schema.cell, r3. by simplify_map_eq. }
  assert (Schema.cell r3 "kind" = Schema.TEXT "chat") as Hk3
    by (unfold Schema.cell, r3, r2, r1; by simplify_map_eq).
  unfold Schema.fill_kind. rewrite Hx3, Hk3.
  split; [unfold Schema.cell, r3, r2; by simplify_map_eq|].
  split; [unfold Schema.cell, r3, r2, r1; by simplify_map_eq|].
  split.
  - intros x Hx. rewrite Hx. simpl. unfold roles. split.
    + unfold Schema.cell. rewrite lookup_insert_ne by done.
      unfold r3. rewrite lookup_insert_eq. simpl. rewrite Hx. simpl.
      destruct (bool_decide (Sql.lower x ∈ ["user"; "assistant"; "system"])); [done|].
      by destruct (bool_decide (Sql.lower x ∈ ["remembered"; "memory"; "note"])).
    + unfold Schema.cell. rewrite lookup_insert_eq. simpl.
      by destruct (bool_decide (Sql.lower x ∈ ["remembered"; "memory"; "note"])).
  - intros Hx. rewrite Hx. simpl. split.
    + unfold Schema.cell. rewrite lookup_insert_ne by done.
      unfold r3. rewrite lookup_insert_eq. simpl. by rewrite Hx.
    + unfold Schema.cell. by rewrite lookup_insert_eq.
Qed.

(** X13: with the table [meta] in place, [_attempt_migrate_legacy_schema]
    turns a table in the legacy layout, one with the columns message and
    context and no column named role, content, kind or deleted in whatever
    letter case, into one with the four new columns appended and the same
    number of rows.  In each row the old columns keep their values; content
    is the old message as the TEXT column stores it, a text as it is, an
    integer as its decimal text, NULL as NULL; deleted is 0; role is the
    lower-cased context when that is user, assistant or system and user
    otherwise; kind is remembered when the lower-cased context is remembered,
    memory or note and chat otherwise. *)
Theorem migration_derives_rows (d : Schema.database) (t : Schema.table)
    (m : gmap string string) :
  Schema.conversations d = Some t → Schema.meta d = Some m →
  legacy_layout (Schema.columns t) →
  ∃ d' t',
    Schema._attempt_migrate_legacy_schema d = (Ok tt, d') ∧
    Schema.conversations d' = Some t' ∧
    Schema.columns t' = Schema.columns t ++ ["role"; "content"; "kind"; "deleted"] ∧
    length (Schema.body t') = length (Schema.body t) ∧
    ∀ i r, Schema.body t !! i = Some r →
      ∃ r', Schema.body t' !! i = Some r' ∧
        (∀ c, c ∉ ["role"; "content"; "kind"; "deleted"] → r' !! c = r !! c) ∧
        (∀ x, Schema.cell r "message" = Schema.TEXT x →
           Schema.cell r' "content" = Schema.TEXT x) ∧
        (∀ n, Schema.cell r "message" = Schema.INTEGER n →
           Schema.cell r' "content" = Schema.TEXT (pretty n)) ∧
        (Schema.cell r "message" = Schema.NULL →
           Schema.cell r' "content" = Schema.NULL) ∧
        Schema.cell r' "deleted" = Schema.INTEGER 0 ∧
        (∀ x, Schema.cell r "context" = Schema.TEXT x →
           Schema.cell r' "role"
           = Schema.TEXT (if bool_decide (Sql.lower x ∈ roles) then Sql.lower x else "user") ∧
           Schema.cell r' "kind"
           = Schema.TEXT (if bool_decide (Sql.lower x ∈ ["remembered"; "memory"; "note"])
                          then "remembered" else "chat")) ∧
        (Schema.cell r "context" = Schema.NULL →
           Schema.cell r' "role" = Schema.TEXT "user" ∧
           Schema.cell r' "kind" = Schema.TEXT "chat").
Proof.
  intros Ht Hm Hl.
  destruct (migrate_legacy_ok d t m Ht Hm Hl) as (d' & t' & Hd' & Ht' & Hcols & Hbody).
  exists d', t'. split; [done|]. split; [done|]. split; [done|].
  split; [by rewrite Hbody, length_fmap|].
  intros i r Hi. exists (migrated_row r). split.
  - by rewrite Hbody, list_lookup_fmap, Hi.
  - destruct (migrated_row_cells r) as (Hc & Hd & Hx & Hn).
    split; [apply migrated_row_other|].
    split; [by intros x Hmsg; rewrite Hc, Hmsg|].
    split; [by intros n Hmsg; rewrite Hc, Hmsg|].
    split; [by intros Hmsg; rewrite Hc, Hmsg|].
    done.
Qed.

Lemma migration_derives_rows_witness :
  let d := Schema.mkDb
             (Some (Schema.mkTable ["user_id"; "message"; "timestamp"; "context"]
                      [{[ "user_id" := Schema.TEXT "JD"; "message" := Schema.INTEGER 42;
                          "context" := Schema.TEXT "Assistant" ]}]))
             [] (Some {[ "schema_version" := "1" ]}) in
  ∃ d' t' r',
    Schema._attempt_migrate_legacy_schema d = (Ok tt, d') ∧
    Schema.conversations d' = Some t' ∧ Schema.body t' !! 0%nat = Some r' ∧
    Schema.cell r' "content" = Schema.TEXT "42" ∧
    Schema.cell r' "role" = Schema.TEXT "assistant" ∧
    Schema.cell r' "kind" = Schema.TEXT "chat".
Proof.
  intros d.
  destruct (migration_derives_rows d _ _ eq_refl eq_refl) as (d' & t' & Hd' & Ht' & _ & _ & H).
  { unfold legacy_layout. simpl. repeat split; by_compute. }
  destruct (H 0%nat _ eq_refl) as (r' & Hr' & _ & _ & Hn & _ & _ & Hx & _).
  exists d', t', r'. split; [done|]. split; [done|]. split; [done|].
  split; [apply (Hn 42); reflexivity|].
  apply (Hx "Assistant"). reflexivity.
Defined.

(** ** A second run of the migration *)

Lemma stmt_bind_inv {A B} (m : Schema.stmt A) (k : A → Schema.stmt B) d r d' :
  (x ← m; k x) d = (r, d') →
  (∃ e, m d = (Raise e, d') ∧ r = Raise e) ∨
  (∃ a d1, m d = (Ok a, d1) ∧ k a d1 = (r, d')).
Proof.
  unfold mbind, Schema.stmt_bind.
  destruct (m d) as [[a|e] d1]; [right; by exists a, d1|].
  intros [= <- <-]. left. by exists e.
Qed.

(** One guarded ALTER: skipped, run, or refused. *)
Lemma if_not_in_add c v cols d t r d' :
  Schema.conversations d = Some t →
  Schema.if_not_in c cols (Schema.add_column c v) d = (r, d') →
  (r = Ok tt ∧ c ∈ cols ∧ d' = d) ∨
  (r = Ok tt ∧ (c ∉ cols) ∧
   d' = Schema.mkDb (Some (Schema.mkTable (Schema.columns t ++ [c])
                             ((λ x, <[c := v]> x) <$> Schema.body t)))
                    (Schema.indexes d) (Schema.meta d)) ∨
  (r = Raise (OperationalError "duplicate column name") ∧ (c ∉ cols) ∧
   Schema.has_name (Schema.columns t) c = true ∧ d' = d).
Proof.
  intros Ht. unfold Schema.if_not_in.
  destruct (bool_decide (c ∈ cols)) eqn:Hin.
  - apply bool_decide_eq_true in Hin. intros [= <- <-]. by left.
  - apply bool_decide_eq_false in Hin. unfold Schema.add_column. rewrite Ht.
    destruct (Schema.has_name (Schema.columns t) c) eqn:Hhas; intros [= <- <-].
    + right. by right.
    + right. by left.
Qed.

(** A guarded ALTER only adds columns, whether it ends well or raises. *)
Lemma if_not_in_add_grows c v cols d t r d' :
  Schema.conversations d = Some t →
  Schema.if_not_in c cols (Schema.add_column c v) d = (r, d') →
  ∃ t', Schema.conversations d' = Some t' ∧
        ∀ x, x ∈ Schema.columns t → x ∈ Schema.columns t'.
Proof.
  intros Ht H.
  destruct (if_not_in_add c v cols d t r d' Ht H)
    as [(_ & _ & ->)|[(_ & _ & ->)|(_ & _ & _ & ->)]]; [by exists t| |by exists t].
  eexists. split; [done|]. intros x Hx. simpl. apply elem_of_app. by left.
Qed.

Lemma back_fill_columns d t r d' :
  Schema.conversations d = Some t → Schema.back_fill d = (r, d') →
  ∃ t', Schema.conversations d' = Some t' ∧ Schema.columns t' = Schema.columns t.
Proof.
  intros Ht. unfold Schema.back_fill.
  destruct (Schema.meta d); intros [= <- <-]; [|by exists t].
  simpl. rewrite Ht. by eexists.
Qed.

(** Once role and content are columns, whatever the rest of the migration
    does, a further call has nothing to do. *)
Lemma migrate_rest_done d t r d' (cols : list string) :
  Schema.conversations d = Some t →
  "role" ∈ Schema.columns t → "content" ∈ Schema.columns t →
  (Schema.if_not_in "kind" cols (Schema.add_column "kind" (Schema.TEXT "chat")) ;;
   Schema.if_not_in "deleted" cols (Schema.add_column "deleted" (Schema.INTEGER 0)) ;;
   Schema.back_fill) d = (r, d') →
  Schema._attempt_migrate_legacy_schema d' = (Ok tt, d').
Proof.
  intros Ht Hr Hc H.
  assert (∃ t', Schema.conversations d' = Some t' ∧
                ∀ x, x ∈ Schema.columns t → x ∈ Schema.columns t') as (t' & Ht' & Hsub).
  { apply stmt_bind_inv in H as [(e & H & _)|([] & d1 & H1 & H)].
    { by apply (if_not_in_add_grows _ _ _ _ t) in H. }
    apply (if_not_in_add_grows _ _ _ _ t) in H1 as (t1 & Ht1 & Hsub1); [|done].
    apply stmt_bind_inv in H as [(e & H & _)|([] & d2 & H2 & H)].
    { apply (if_not_in_add_grows _ _ _ _ t1) in H as (t2 & Ht2 & Hsub2); [|done].
      exists t2. auto. }
    apply (if_not_in_add_grows _ _ _ _ t1) in H2 as (t2 & Ht2 & Hsub2); [|done].
    apply (back_fill_columns _ t2) in H as (t3 & Ht3 & Hcols); [|done].
    exists t3. split; [done|]. intros x Hx. rewrite Hcols. auto. }
  apply (migrate_current d' t'); auto.
Qed.

(** The monad law the migration is read with. *)
Lemma stmt_bind_assoc {A B C} (m : Schema.stmt A) (k : A → Schema.stmt B)
    (h : B → Schema.stmt C) d :
  (y ← (x ← m; k x); h y) d = (x ← m; y ← k x; h y) d.
Proof. unfold mbind, Schema.stmt_bind. by destruct (m d) as [[a|e] d1]. Qed.

(** X14: a second run of the migration changes nothing.  Whatever a call
    of [_attempt_migrate_legacy_schema] did, a second call on the file it
    left leaves that file as it is.  It ends well, also after a first call
    that raised at the UPDATE of a missing [meta], unless the first call was
    refused an ALTER for a column that exists in another letter case, and
    then it can only be refused again in the same way. *)
Theorem migration_runs_once (d : Schema.database) (r : result unit)
    (d' : Schema.database) :
  Schema._attempt_migrate_legacy_schema d = (r, d') →
  ∃ r',
    Schema._attempt_migrate_legacy_schema d' = (r', d') ∧
    (r' = Ok tt ∨
     (r' = r ∧ r = Raise (OperationalError "duplicate column name"))) ∧
    ((r = Ok tt ∨ r = Raise (OperationalError "no such table: meta")) → r' = Ok tt).
Proof.
  intros Hfirst.
  assert (∀ r', Schema._attempt_migrate_legacy_schema d' = (r', d') →
      (r' = Ok tt ∨ (r' = r ∧ r = Raise (OperationalError "duplicate column name"))) →
      ∃ r', Schema._attempt_migrate_legacy_schema d' = (r', d') ∧
        (r' = Ok tt ∨
         (r' = r ∧ r = Raise (OperationalError "duplicate column name"))) ∧
        ((r = Ok tt ∨ r = Raise (OperationalError "no such table: meta")) → r' = Ok tt))
    as Hend.
  { intros r' H' Hr'. exists r'. split; [done|]. split; [done|].
    destruct Hr' as [->|[-> ->]]; [done|]. by intros [?|?]. }
  pose proof Hfirst as H.
  unfold Schema._attempt_migrate_legacy_schema in H. unfold Schema._table_columns in H.
  destruct (Schema.conversations d) as [t|] eqn:Ht.
  2:{ simpl in H. injection H as <- <-.
      apply (Hend (Ok tt)); [by apply migrate_no_table|by left]. }
  destruct (bool_decide (Schema.columns t = [])) eqn:Hnil.
  { injection H as <- <-. apply (Hend (Ok tt)); [done|by left]. }
  destruct (bool_decide ("content" ∈ Schema.columns t) && bool_decide ("role" ∈ Schema.columns t))
    eqn:Hcur.
  { injection H as <- <-. apply (Hend (Ok tt)); [done|by left]. }
  destruct (bool_decide ("message" ∈ Schema.columns t) && bool_decide ("context" ∈ Schema.columns t))
    eqn:Hleg.
  2:{ injection H as <- <-. apply (Hend (Ok tt)); [done|by left]. }
  apply andb_true_iff in Hleg as [Hmsg%bool_decide_eq_true Hctx%bool_decide_eq_true].
  unfold Schema.add_missing_columns in H. rewrite stmt_bind_assoc in H.
  (* role *)
  apply stmt_bind_inv in H as [(e & H & ->)|([] & d1 & H1 & H)].
  { destruct (if_not_in_add _ _ _ _ t _ _ Ht H)
      as [(? & _)|[(? & _)|(He & _ & _ & ->)]]; [done|done|].
    injection He as ->. apply (Hend _ Hfirst). by right. }
  assert (∃ t1, Schema.conversations d1 = Some t1 ∧ "role" ∈ Schema.columns t1 ∧
                (∀ x, x ∈ Schema.columns t → x ∈ Schema.columns t1) ∧
                (d1 = d ∨ (("role" ∉ Schema.columns t) ∧
                           Schema.columns t1 = Schema.columns t ++ ["role"])))
    as (t1 & Ht1 & Hrole & Hsub1 & Hd1).
  { destruct (if_not_in_add _ _ _ _ t _ _ Ht H1)
      as [(_ & Hin & ->)|[(_ & Hnot & ->)|(? & _)]]; [by exists t; auto| |done].
    eexists. split; [done|]. simpl. split; [|split]; [| |by right].
    - apply elem_of_app. right. by left.
    - intros x Hx. apply elem_of_app. by left. }
  (* content *)
  rewrite stmt_bind_assoc in H.
  apply stmt_bind_inv in H as [(e & H & ->)|([] & d2 & H2 & H)].
  { destruct (if_not_in_add _ _ _ _ t1 _ _ Ht1 H)
      as [(? & _)|[(? & _)|(He & Hnot & Hhas & ->)]]; [done|done|].
    injection He as ->.
    destruct Hd1 as [->|[Hnr Hcols1]]; [apply (Hend _ Hfirst); by right|].
    apply (Hend (Raise (OperationalError "duplicate column name"))); [|by right].
    unfold Schema._attempt_migrate_legacy_schema, Schema._table_columns.
    rewrite Ht1.
    rewrite bool_decide_eq_false_2
      by (intros Hnil1; rewrite Hnil1 in Hrole; by apply elem_of_nil in Hrole).
    assert ("content" ∉ Schema.columns t1) as Hnc.
    { rewrite Hcols1. intros [?|?%list_elem_of_singleton]%elem_of_app; done. }
    rewrite (bool_decide_eq_false_2 ("content" ∈ _)) by done.
    rewrite (bool_decide_eq_true_2 ("message" ∈ _)) by auto.
    rewrite (bool_decide_eq_true_2 ("context" ∈ _)) by auto.
    cbn [andb]. unfold Schema.add_missing_columns. rewrite !stmt_bind_assoc.
    unfold mbind, Schema.stmt_bind, Schema.if_not_in.
    rewrite (bool_decide_eq_true_2 ("role" ∈ _)) by done.
    rewrite (bool_decide_eq_false_2 ("content" ∈ _)) by done.
    unfold mret, Schema.stmt_ret, Schema.add_column. by rewrite Ht1, Hhas. }
  assert (∃ t2, Schema.conversations d2 = Some t2 ∧ "role" ∈ Schema.columns t2 ∧
                "content" ∈ Schema.columns t2) as (t2 & Ht2 & Hrole2 & Hcontent2).
  { destruct (if_not_in_add _ _ _ _ t1 _ _ Ht1 H2)
      as [(_ & Hin & ->)|[(_ & Hnot & ->)|(? & _)]]; [by exists t1; auto| |done].
    eexists. split; [done|]. simpl. split; apply elem_of_app; [by left|].
    right. by left. }
  apply (Hend (Ok tt)); [|by left].
  rewrite stmt_bind_assoc in H.
  by apply (migrate_rest_done d2 t2 r d' (Schema.columns t)).
Qed.

Lemma migration_runs_once_witness :
  ∃ d', Schema._attempt_migrate_legacy_schema Schema.legacy_file
        = (Raise (OperationalError "no such table: meta"), d') ∧
        Schema._attempt_migrate_legacy_schema d' = (Ok tt, d').
Proof.
  eexists. split; [vm_compute; reflexivity|].
  destruct (migration_runs_once Schema.legacy_file _ _ eq_refl) as (r' & H & _ & Hr').
  rewrite (Hr' (or_intror eq_refl)) in H. exact H.
Defined.


(** * Properties of the routing in [jarvis.py] *)

(** ** Trimming *)

Lemma lstrip_head s c t : Py.lstrip s = String c t → Py.isspace c = false.
Proof.
  induction s as [|d s IH]; [done|]. simpl.
  destruct (Py.isspace d) eqn:Hd; [exact IH|]. by intros [= <- <-].
Qed.

Lemma lstrip_nonspace c t : Py.isspace c = false → Py.lstrip (String c t) = String c t.
Proof. intros Hc. simpl. by rewrite Hc. Qed.

Lemma rstrip_head s c t : Py.rstrip s = String c t → ∃ t', s = String c t'.
Proof.
  destruct s as [|d s]; [done|]. simpl.
  destruct (Py.rstrip s); [destruct (Py.isspace d); [done|]|]; intros [= <- <-]; by eexists.
Qed.

Lemma rstrip_idem s : Py.rstrip (Py.rstrip s) = Py.rstrip s.
Proof.
  induction s as [|c s IH]; [done|]. simpl.
  destruct (Py.rstrip s) as [|d t] eqn:Hs.
  - destruct (Py.isspace c) eqn:Hc; [done|]. simpl. by rewrite Hc.
  - change (Py.rstrip (String c (String d t))) with
      (match Py.rstrip (String d t) with
       | "" => if Py.isspace c then "" else String c ""
       | t' => String c t'
       end).
    by rewrite IH.
Qed.

(** What [strip] returns starts with a character that is not blank. *)
Lemma strip_head s c t : Py.strip s = String c t → Py.isspace c = false.
Proof.
  unfold Py.strip. intros Hs. destruct (rstrip_head _ _ _ Hs) as [t' Ht'].
  by apply (lstrip_head s c t').
Qed.

(** Trimming twice is trimming once. *)
Lemma strip_idem s : Py.strip (Py.strip s) = Py.strip s.
Proof.
  destruct (Py.strip s) as [|c t] eqn:Hs; [done|].
  pose proof (strip_head s c t Hs) as Hc.
  unfold Py.strip at 1. rewrite lstrip_nonspace by done.
  rewrite <-Hs. unfold Py.strip. apply rstrip_idem.
Qed.

Lemma rstrip_strip s : Py.rstrip (Py.strip s) = Py.strip s.
Proof. unfold Py.strip. apply rstrip_idem. Qed.

Lemma rstrip_app a b : Py.rstrip b ≠ "" → Py.rstrip (a +:+ b) = a +:+ Py.rstrip b.
Proof.
  intros Hb. induction a as [|c a IH]; [done|].
  rewrite !append_cons. simpl. rewrite IH.
  destruct (a +:+ Py.rstrip b) eqn:Ha; [|done].
  destruct a; [by rewrite append_nil_l in Ha|done].
Qed.

(** ** [parse_mode_and_query] *)

Lemma split_maxsplit1_cons s c t :
  s = String c t → Py.isspace c = false → ∃ w rest, split_maxsplit1 s = w :: rest.
Proof.
  intros -> Hc. unfold split_maxsplit1. rewrite lstrip_nonspace by done.
  destruct (span _ (String c t)) as [w r]. destruct (Py.lstrip r); by eexists _, _.
Qed.

(** X15: [parse_mode_and_query] never raises: for every text it returns a
    mode among chat, wiki, arxiv, rag and tools, and a query without blanks at
    either end.  In chat mode the query is the whole text, trimmed; a blank
    text is a chat with the empty query. *)
Theorem parse_mode_and_query_total (argv_text : string) :
  ∃ mode q,
    parse_mode_and_query argv_text = Some (mode, q) ∧
    mode ∈ modes ∧
    Py.strip q = q ∧
    (mode = "chat" → q = Py.strip argv_text) ∧
    (Py.strip argv_text = "" → mode = "chat" ∧ q = "").
Proof.
  unfold parse_mode_and_query.
  destruct (Py.strip argv_text) as [|c t] eqn:Hs.
  { exists "chat", "". simpl. split; [done|]. split; [by_compute|]. done. }
  pose proof (strip_head _ _ _ Hs) as Hc.
  destruct (split_maxsplit1_cons (String c t) c t eq_refl Hc) as (w & rest & ->).
  cbn [Py.is_empty].
  set (tail := match rest with part1 :: _ => Py.strip part1 | [] => "" end).
  assert (Py.strip tail = tail) as Htail.
  { unfold tail. destruct rest; [done|apply strip_idem]. }
  repeat match goal with
  | |- context [if bool_decide ?P then _ else _] =>
      destruct (bool_decide P);
      [eexists _, tail; split; [reflexivity|];
       split; [by_compute|]; split; [exact Htail|]; split; [discriminate|discriminate]|]
  end.
  exists "chat", (String c t). split; [done|]. split; [by_compute|].
  split; [by rewrite <-Hs, strip_idem|]. split; [done|discriminate].
Qed.

(** ** [parse_chat_prefix] *)

Lemma is_letter_not_space c : is_letter c = true → Py.isspace c = false.
Proof. destruct c as [[] [] [] [] [] [] [] []]; (reflexivity || discriminate). Qed.

Lemma is_letter_not_colon c : is_letter c = true → Ascii.eqb c ":" = false.
Proof. destruct c as [[] [] [] [] [] [] [] []]; (reflexivity || discriminate). Qed.

Lemma span_letters p x :
  forall_chars is_letter p = true →
  span is_letter (p +:+ ":" +:+ x) = (p, ":" +:+ x).
Proof.
  induction p as [|c p IH]; [done|]. simpl.
  intros [Hc Hp]%andb_true_iff. rewrite Hc, (IH Hp). done.
Qed.

Lemma lstrip_letters p x :
  p ≠ "" → forall_chars is_letter p = true → Py.lstrip (p +:+ x) = p +:+ x.
Proof.
  destruct p as [|c p]; [done|]. simpl. intros _ [Hc _]%andb_true_iff.
  by rewrite (is_letter_not_space c Hc).
Qed.

(** A word of letters, a colon and a one-line body: the two groups. *)
Lemma _PREFIX_RE_match_word p body :
  p ≠ "" → forall_chars is_letter p = true →
  Py.strip body ≠ "" → forall_chars is_dot (Py.strip body) = true →
  _PREFIX_RE_match (p +:+ ":" +:+ body) = Some (p, Py.strip body).
Proof.
  intros Hp Hl Hb Hd. unfold _PREFIX_RE_match.
  rewrite lstrip_letters, span_letters by done.
  apply is_empty_false in Hp, Hb. rewrite Hp.
  change (Py.lstrip (":" +:+ body)) with (String ":" body).
  cbn [Ascii.eqb Bool.eqb]. by rewrite Hb, Hd.
Qed.

Lemma strip_after_word w b c t :
  b = String c t → Py.isspace c = false → Py.rstrip b = b →
  w ≠ "" → forall_chars is_letter w = true →
  Py.strip (w +:+ " " +:+ b) = w +:+ " " +:+ b.
Proof.
  intros Hb Hc Hr Hw Hl. unfold Py.strip. rewrite lstrip_letters by done.
  assert (Py.rstrip (" " +:+ b) = " " +:+ b) as Hsb.
  { rewrite rstrip_app, Hr; [done|]. by rewrite Hr, Hb. }
  rewrite rstrip_app, Hsb; [done|]. by rewrite Hsb.
Qed.

Lemma span_word w b :
  forall_chars is_letter w = true →
  span (λ c, negb (Py.isspace c)) (w +:+ " " +:+ b) = (w, " " +:+ b).
Proof.
  induction w as [|c w IH]; [done|]. simpl.
  intros [Hc Hw]%andb_true_iff. rewrite (is_letter_not_space c Hc), (IH Hw). done.
Qed.

Lemma split_after_word w b c t :
  b = String c t → Py.isspace c = false →
  w ≠ "" → forall_chars is_letter w = true →
  split_maxsplit1 (w +:+ " " +:+ b) = [w; b].
Proof.
  intros Hb Hc Hw Hl. unfold split_maxsplit1.
  rewrite lstrip_letters by done.
  destruct (w +:+ " " +:+ b) eqn:Hwb; [by destruct w|]. rewrite <-Hwb.
  rewrite span_word by done.
  change (Py.lstrip (" " +:+ b)) with (Py.lstrip b).
  rewrite Hb, lstrip_nonspace by done. done.
Qed.

(** One case for each recognised word. *)
Ltac prefix_cases H :=
  unfold prefix_modes in H; set_unfold;
  destruct H as [H|[H|[H|[H|[H|[H|[H|[]]]]]]]].

Lemma parse_after_word mode b c t :
  (mode, mode) ∈ prefix_modes →
  b = String c t → Py.isspace c = false → Py.strip b = b →
  parse_mode_and_query (mode +:+ " " +:+ b) = Some (mode, b).
Proof.
  intros Hw Hb Hc Hs.
  assert (Py.rstrip b = b) as Hr by (by rewrite <-Hs, rstrip_strip).
  assert (mode ≠ "" ∧ forall_chars is_letter mode = true ∧
          Py.is_empty (mode +:+ " " +:+ b) = false) as (Hne & Hl & He).
  { prefix_cases Hw; simplify_eq; done. }
  unfold parse_mode_and_query.
  rewrite (strip_after_word mode b c t), He, (split_after_word mode b c t), Hs by done.
  prefix_cases Hw; simplify_eq; reflexivity.
Qed.

(** X16: a chat line [word: body], where the word is made of the letters
    a to z and A to Z, as the pattern asks, and is one of wiki, wikipedia,
    arxiv, rag, mitre, tools and all in any letter case, and the body has a
    character that is not blank and no line break between its first and
    last such characters, is rewritten by [parse_chat_prefix] to the mode's
    word, one space and the trimmed body; [parse_mode_and_query] then reads
    exactly that mode and that trimmed body back. *)
Theorem chat_prefix_round_trip (p body mode : string) :
  forall_chars is_letter p = true →
  (Py.lower p, mode) ∈ prefix_modes →
  Py.strip body ≠ "" →
  forall_chars is_dot (Py.strip body) = true →
  parse_chat_prefix (p +:+ ":" +:+ body) = mode +:+ " " +:+ Py.strip body ∧
  parse_mode_and_query (parse_chat_prefix (p +:+ ":" +:+ body))
    = Some (mode, Py.strip body).
Proof.
  intros Hl Hp Hb Hd.
  assert (p ≠ "" ∧ (mode, mode) ∈ prefix_modes) as (Hne & Hm).
  { prefix_cases Hp; injection Hp as Hp ->;
      (split; [by destruct p|]); by_compute. }
  assert (parse_chat_prefix (p +:+ ":" +:+ body) = mode +:+ " " +:+ Py.strip body)
    as ->.
  { unfold parse_chat_prefix. rewrite _PREFIX_RE_match_word by done.
    cbv zeta. rewrite strip_idem.
    prefix_cases Hp; injection Hp as Hp ->; rewrite Hp; done. }
  split; [done|].
  destruct (Py.strip body) as [|c t] eqn:Hs; [done|].
  rewrite <-Hs. apply (parse_after_word mode _ c t); try done.
  - by apply (strip_head body c t).
  - apply strip_idem.
Qed.

Lemma chat_prefix_round_trip_witness :
  parse_chat_prefix "MITRE:  T1059 PowerShell " = "rag T1059 PowerShell" ∧
  parse_mode_and_query (parse_chat_prefix "MITRE:  T1059 PowerShell ")
    = Some ("rag", "T1059 PowerShell").
Proof.
  apply (chat_prefix_round_trip "MITRE" "  T1059 PowerShell " "rag");
    [reflexivity|by_compute|by vm_compute|by vm_compute].
Defined.

Lemma no_colon_lstrip s : no_colon s = true → no_colon (Py.lstrip s) = true.
Proof.
  induction s as [|c s IH]; [done|]. simpl.
  intros [Hc Hs]%andb_true_iff. destruct (Py.isspace c); [by apply IH|].
  by apply andb_true_iff.
Qed.

Lemma no_colon_span p s : no_colon s = true → no_colon (span p s).2 = true.
Proof.
  induction s as [|c s IH]; [done|]. simpl.
  intros [Hc Hs]%andb_true_iff. destruct (p c).
  - specialize (IH Hs). by destruct (span p s).
  - by apply andb_true_iff.
Qed.

(** X17: a chat line without a colon is passed on as it is, whatever
    words it starts with. *)
Theorem chat_without_colon_unchanged (user_in : string) :
  no_colon user_in = true → parse_chat_prefix user_in = user_in.
Proof.
  intros Hc. unfold parse_chat_prefix, _PREFIX_RE_match.
  pose proof (no_colon_span is_letter _ (no_colon_lstrip _ Hc)) as Hr.
  destruct (span is_letter (Py.lstrip user_in)) as [letters r]. simpl in Hr.
  destruct (Py.is_empty letters); [done|].
  apply no_colon_lstrip in Hr.
  destruct (Py.lstrip r) as [|c body]; [done|].
  simpl in Hr. apply andb_true_iff in Hr as [Hr _].
  apply negb_true_iff in Hr. by rewrite Hr.
Qed.

Lemma chat_without_colon_unchanged_witness :
  parse_chat_prefix "wiki moons of Jupiter" = "wiki moons of Jupiter".
Proof. apply chat_without_colon_unchanged. reflexivity. Defined.

(** ** The keyword tests [should_auto_use_*] *)

Lemma append_assoc (a b c : string) : (a +:+ b) +:+ c = a +:+ b +:+ c.
Proof.
  induction a as [|x a IH]; [by rewrite !append_nil_l|].
  rewrite !append_cons. by rewrite IH.
Qed.

Lemma prefix_sound a b : String.prefix a b = true → ∃ q, b = a +:+ q.
Proof.
  revert b. induction a as [|x a IH]; intros b Hp.
  - exists b. by rewrite append_nil_l.
  - destruct b as [|y b]; [done|]. simpl in Hp.
    destruct (ascii_dec x y) as [->|]; [|done].
    destruct (IH b Hp) as [q ->]. exists q. by rewrite append_cons.
Qed.

(** [Py.contains] finds occurrences only. *)
Lemma contains_sound b a : Py.contains b a = true → ∃ p q, b = p +:+ a +:+ q.
Proof.
  induction b as [|x b IH]; intros Hc.
  - destruct a; [|done]. by exists "", "".
  - unfold Py.contains in Hc; fold Py.contains in Hc.
    apply orb_true_iff in Hc as [Hp|Hc].
    + apply prefix_sound in Hp as [q Hq]. exists "", q. by rewrite append_nil_l.
    + destruct (IH Hc) as (p & q & ->). exists (String x p), q.
      by rewrite append_cons.
Qed.

Lemma contains_context p b r a :
  Py.contains b a = true → Py.contains (p +:+ b +:+ r) a = true.
Proof.
  intros (p' & q' & ->)%contains_sound.
  rewrite (append_assoc p' (a +:+ q') r), (append_assoc a q' r).
  rewrite <-(append_assoc p p'). apply contains_complete.
Qed.

Lemma lower_upper_char c : Py.lower_char (Py.upper_char c) = Py.lower_char c.
Proof. destruct c as [[] [] [] [] [] [] [] []]; reflexivity. Qed.

Lemma lower_upper s : Py.lower (Py.upper s) = Py.lower s.
Proof. induction s as [|c s IH]; [done|]. simpl. by rewrite lower_upper_char, IH. Qed.

Lemma any_in_lower_upper keys q : any_in_lower keys (Py.upper q) = any_in_lower keys q.
Proof. unfold any_in_lower. by rewrite lower_upper. Qed.

Lemma any_in_lower_context keys p q r :
  any_in_lower keys q = true → any_in_lower keys (p +:+ q +:+ r) = true.
Proof.
  unfold any_in_lower. cbv zeta. rewrite !existsb_exists.
  intros (k & Hk & Hc). exists k. split; [done|].
  rewrite !lower_app. by apply contains_context.
Qed.

(** X18: on text in the ASCII range, each of the three keyword tests that
    route a question to arXiv, to the RAG tool or to Wikipedia gives the
    same answer for a question and for the question in capitals, and a
    question that triggers the test still triggers it with any such text put
    before and after it. *)
Theorem auto_routing_ignores_case_and_context (f : string → bool) (p q r : string) :
  f ∈ [should_auto_use_arxiv; should_auto_use_rag; should_auto_use_wiki] →
  Py.isascii p = true → Py.isascii q = true → Py.isascii r = true →
  f (Py.upper q) = f q ∧ (f q = true → f (p +:+ q +:+ r) = true).
Proof.
  intros Hf _ _ _. set_unfold.
  destruct Hf as [->|[->|[->|[]]]];
    (split; [apply any_in_lower_upper|apply any_in_lower_context]).
Qed.

Lemma auto_routing_ignores_case_and_context_witness :
  should_auto_use_rag (Py.upper "t1059") = should_auto_use_rag "t1059" ∧
  (should_auto_use_rag "t1059" = true →
   should_auto_use_rag ("explain " +:+ "t1059" +:+ " to me") = true).
Proof.
  apply (auto_routing_ignores_case_and_context should_auto_use_rag);
    [apply list_elem_of_further, list_elem_of_here|reflexivity..].
Defined.

(** * Properties of the command line of [jarv_memory.py] *)

Lemma StronglySorted_reverse {A} (R : relation A) (l : list A) :
  StronglySorted R l → StronglySorted (flip R) (reverse l).
Proof.
  induction 1 as [|x l Hl IH Hx]; [constructor|].
  rewrite reverse_cons. apply StronglySorted_app_2; [|done|repeat constructor].
  intros a b Ha ->%list_elem_of_singleton. rewrite elem_of_reverse in Ha.
  rewrite Forall_forall in Hx. by apply Hx.
Qed.

Lemma recent_where_live user k r :
  recent_where user false k r = true → deleted r = 0.
Proof.
  unfold recent_where. intros [[_ H]%andb_true_iff _]%andb_true_iff.
  by apply Z.eqb_eq.
Qed.

Lemma search_where_live user pat k r :
  search_where user pat false k r = true → deleted r = 0.
Proof.
  unfold search_where. intros [[_ H]%andb_true_iff _]%andb_true_iff.
  by apply Z.eqb_eq.
Qed.

(** What the two listings print of a newest-first selection. *)
Lemma listing_oldest_first s user n incl (w : MemoryRow → bool) :
  primary_key s →
  (∀ r, w r = true → user_id r = user ∧ (incl = false → deleted r = 0)) →
  let rows := reverse (select_desc w (Z.max 1 n) s) in
  StronglySorted (λ a b, id a < id b) rows ∧
  Z.of_nat (length rows) ≤ Z.max 1 n ∧
  ∀ r, r ∈ rows →
       r ∈ conversations s ∧ user_id r = user ∧ (incl = false → deleted r = 0).
Proof.
  intros Hpk Hw rows. split; [|split].
  - apply (StronglySorted_reverse (λ a b, id b < id a)). by apply select_desc_strict.
  - unfold rows. rewrite length_reverse, length_select_desc. lia.
  - intros r Hr. unfold rows in Hr. rewrite elem_of_reverse in Hr.
    apply elem_of_select_desc in Hr as [Hin Hr].
    split; [done|]. by apply Hw.
Qed.

(** X19: the two listing commands print one line for each row fetched,
    oldest first: the rows printed have strictly ascending ids, there are at
    most max(1, n) of them, each is a row of the user asked for, and without
    [--include-deleted] none of them is soft-deleted. *)
Theorem cmd_listings_oldest_first (s : store) (user q : string) (n : Z)
    (kind : option string) (include_deleted : bool) (lines : list string) :
  primary_key s →
  _cmd_recent s user n kind include_deleted = Ok lines ∨
  _cmd_search s user q n kind include_deleted = Ok lines →
  ∃ rows,
    lines = row_line <$> rows ∧
    StronglySorted (λ a b, id a < id b) rows ∧
    Z.of_nat (length rows) ≤ Z.max 1 n ∧
    ∀ r, r ∈ rows →
         r ∈ conversations s ∧ user_id r = user ∧
         (include_deleted = false → deleted r = 0).
Proof.
  intros Hpk [H|H].
  - unfold _cmd_recent, get_recent in H.
    destruct (kind_clause kind) as [k|e]; [|done]. injection H as <-.
    eexists. split; [done|]. apply listing_oldest_first; [done|].
    intros r Hr. split; [by apply recent_where_user in Hr|].
    intros ->. by apply recent_where_live in Hr.
  - unfold _cmd_search, search in H.
    destruct (Py.is_empty _).
    { injection H as <-. exists []. split; [done|]. split; [constructor|].
      split; [simpl; lia|]. by intros r ?%elem_of_nil. }
    destruct (kind_clause kind) as [k|e]; [|done]. injection H as <-.
    eexists. split; [done|]. apply listing_oldest_first; [done|].
    intros r Hr. split; [by apply search_where_user in Hr|].
    intros ->. by apply search_where_live in Hr.
Qed.

Lemma cmd_listings_oldest_first_witness :
  ∃ rows,
    ["[4] 2026-01-01 00:00:00 user/remembered: owns a bike";
     "[5] 2026-01-01 00:00:00 user/chat: what now"] = row_line <$> rows ∧
    StronglySorted (λ a b, id a < id b) rows ∧
    Z.of_nat (length rows) ≤ Z.max 1 2 ∧
    ∀ r, r ∈ rows →
         r ∈ conversations six_mixed ∧ user_id r = "JD" ∧ (true = false → deleted r = 0).
Proof.
  apply (cmd_listings_oldest_first six_mixed "JD" "a" 2 None true);
    [by_compute|right; reflexivity].
Defined.

Lemma add_then_recent_lines s now user r0 k0 c0 n incl :
  Py.lower (Py.strip r0) ∈ roles →
  Py.lower (Py.strip (Py.or_else k0 "chat")) ∈ kinds →
  Py.strip c0 ≠ "" → n ≤ 1 →
  let i := Z.max (max_rowid (conversations s)) (sqlite_sequence s) + 1 in
  ∃ s',
    _cmd_add s now user r0 k0 c0 = (Ok ["added id=" +:+ pretty i], s') ∧
    _cmd_recent s' user n None incl
    = Ok ["[" +:+ pretty i +:+ "] " +:+ now +:+ " " +:+ Py.lower (Py.strip r0) +:+ "/"
          +:+ Py.lower (Py.strip (Py.or_else k0 "chat")) +:+ ": " +:+ Py.strip c0].
Proof.
  intros Hr Hk Hc Hn i. unfold _cmd_add.
  rewrite (store_message_ok s now user r0 c0 k0 Hr Hk Hc). fold i.
  eexists. split; [done|].
  unfold _cmd_recent, get_recent. cbn [kind_clause mbind result_bind].
  rewrite select_desc_snoc.
  - replace (Z.to_nat (Z.max 1 n) - 1)%nat with 0%nat by lia. done.
  - unfold recent_where. simpl. rewrite bool_decide_eq_true_2 by done.
    by rewrite orb_true_r.
  - intros r Hin%max_rowid_ge. simpl. lia.
  - lia.
Qed.

(** X20: after [add] has stored a message, [recent] with [-n 1] (or less)
    prints exactly one line for that user: the id that [add] printed in
    brackets, the time of the insert, the role and the kind as normalised, and
    the trimmed content, with no (DELETED) mark. *)
Theorem cmd_add_then_recent (s : store) (now user role kind content : string)
    (n : Z) (include_deleted : bool) :
  Py.lower (Py.strip role) ∈ roles →
  Py.lower (Py.strip (Py.or_else kind "chat")) ∈ kinds →
  Py.strip content ≠ "" → n ≤ 1 →
  ∃ (i : Z) s',
    _cmd_add s now user role kind content = (Ok ["added id=" +:+ pretty i], s') ∧
    _cmd_recent s' user n None include_deleted
    = Ok ["[" +:+ pretty i +:+ "] " +:+ now +:+ " " +:+ Py.lower (Py.strip role) +:+ "/"
          +:+ Py.lower (Py.strip (Py.or_else kind "chat")) +:+ ": " +:+ Py.strip content].
Proof.
  intros Hr Hk Hc Hn.
  destruct (add_then_recent_lines s now user role kind content n include_deleted
              Hr Hk Hc Hn) as (s' & H).
  by eexists _, s'.
Qed.

Lemma cmd_add_then_recent_witness :
  ∃ (i : Z) s',
    _cmd_add two_users "2026-02-02 08:00:00" "Ann" " USER " "" " tea at five "
    = (Ok ["added id=" +:+ pretty i], s') ∧
    _cmd_recent s' "Ann" 1 None false
    = Ok ["[" +:+ pretty i +:+ "] " +:+ "2026-02-02 08:00:00" +:+ " "
          +:+ Py.lower (Py.strip " USER ") +:+ "/"
          +:+ Py.lower (Py.strip (Py.or_else "" "chat")) +:+ ": "
          +:+ Py.strip " tea at five "].
Proof.
  apply (cmd_add_then_recent two_users "2026-02-02 08:00:00" "Ann" " USER " "" " tea at five " 1 false);
    [by_compute|by_compute|discriminate|lia].
Defined.
